(** * Ledger and pending-balance reconciliation of api/routes/gameEntries.js

    A shallow embedding of the game-entry routes (create with deposit
    merge, update, delete, clear-pending, pending, pending-by-tag and
    summary), of the GameEntry schema they save through, and of the
    per-game [totalCoins] counter they maintain.

    Conventions of the embedding.
    - Numbers are whole amounts ([Z]): on integers within 2^53 the
      additions and subtractions of the routes are exact.  What the game
      counters do on amounts with a fractional part is told apart, in
      [Binary64], on the numbers of the host.  [None] in a numeric
      position is JavaScript's [undefined] for a stored field and [NaN]
      for the result of a conversion.
    - The collection is a list kept in creation order, and documents are
      created at distinct instants, so that [sort({createdAt: 1})] is the
      list itself and [sort({createdAt: -1})] followed by [findOne] is its
      last match.
    - Ids are well-formed, and the writes of the entry and game
      collections succeed unless a validator of the schema refuses the
      document; [deleteEntryByIdThrowing] is the delete route when its
      last write throws.  The history collection may refuse a write, and
      its schema refuses an action outside its enum; [recordHistory]
      swallows both.

    Beside the routes above the file embeds the list, summary-by-game and
    history routes of the same module and the client code that calls the
    routes: the total of a game row (src/admin/Gamerow.tsx), the pending
    payments table (src/user/PendingPaymentsTable.tsx) and the player-tag
    form (src/user/PlayerTagEntryForm.tsx).
    - An amount typed into a form is the number [Number()] reads from it.
    - The [$sort] of an aggregation is a merge sort on the byte order of
      strings. *)

From Stdlib Require Import ZArith Lia Bool Ascii String.
From Stdlib Require PrimFloat.
From stdpp Require Import gmap strings list fin_maps sorting.

Local Open Scope string_scope.
Local Open Scope Z_scope.

(** ** JavaScript values as the routes observe them *)

(** A value of the request body read through [toNumber], [!= null] and
    [!== undefined]: undefined, null, the empty string, a value whose
    [Number()] is not finite, or one whose [Number()] is [z]. *)
Inductive numArg :=
| NUndefined
| NNull
| NEmpty
| NNotFinite
| NFinite (z : Z).

(** A value read through [Boolean()]. *)
Inductive jsval :=
| JUndefined
| JNull
| JBool (b : bool)
| JNum (z : Z)
| JNaN
| JStr (s : string).

Definition truthy (v : jsval) : bool :=
  match v with
  | JUndefined | JNull | JNaN => false
  | JBool b => b
  | JNum z => negb (z =? 0)
  | JStr s => negb (s =? "")%string
  end.

(** A stored numeric field, as [toNumber] sees it. *)
Definition ofField (f : option Z) : numArg :=
  match f with
  | None => NUndefined
  | Some z => NFinite z
  end.

(** [toNumber(n, def)]; the result [None] is [NaN]. *)
Definition toNumber (n : numArg) (def : option Z) : option Z :=
  match n with
  | NUndefined | NNull | NEmpty => def
  | NNotFinite => def
  | NFinite v => Some v
  end.

(** [toNumber(n, 0)], which is always a finite number. *)
Definition toNumber0 (n : numArg) : Z := default 0 (toNumber n (Some 0)).

(** ** Strings: [trim], the date pattern *)

(** The white space [String.prototype.trim] removes, among Latin-1 code
    units: TAB, LF, VT, FF, CR, space and the no-break space. *)
Definition isSpace (a : ascii) : bool :=
  let n := nat_of_ascii a in
  ((9 <=? n) && (n <=? 13))%nat || (n =? 32)%nat || (n =? 160)%nat.

Fixpoint trimStart (s : string) : string :=
  match s with
  | EmptyString => EmptyString
  | String a r => if isSpace a then trimStart r else s
  end.

Fixpoint trimEnd (s : string) : string :=
  match s with
  | EmptyString => EmptyString
  | String a r =>
      match trimEnd r with
      | EmptyString => if isSpace a then EmptyString else String a EmptyString
      | r' => String a r'
      end
  end.

Definition trim (s : string) : string := trimEnd (trimStart s).

Definition isDigit (a : ascii) : bool :=
  let n := nat_of_ascii a in ((48 <=? n) && (n <=? 57))%nat.

(** The pattern [/^\d{4}-\d{2}-\d{2}/]. *)
Definition isoDayPrefix (s : string) : bool :=
  match s with
  | String y1 (String y2 (String y3 (String y4 (String d1
      (String m1 (String m2 (String d2 (String a1 (String a2 _))))))))) =>
      isDigit y1 && isDigit y2 && isDigit y3 && isDigit y4
      && Ascii.eqb d1 "-" && isDigit m1 && isDigit m2
      && Ascii.eqb d2 "-" && isDigit a1 && isDigit a2
  | _ => false
  end.

Definition slice10 (s : string) : string := substring 0 10 s.

Definition ALLOWED_TYPES : list string :=
  ["freeplay"; "deposit"; "redeem"; "playedgame"].
Definition ALLOWED_METHODS : list string :=
  ["cashapp"; "paypal"; "chime"; "venmo"].

Definition includes (l : list string) (s : string) : bool :=
  existsb (String.eqb s) l.

(** ** The GameEntry document (api/models/GameEntry.js) *)

Module Entry.
Record t := mk {
  _id : nat;
  username : string;
  createdBy : string;
  type : string;
  method : option string;
  playerName : string;
  playerTag : option string;
  gameName : string;
  amountBase : option Z;
  amount : option Z;
  bonusRate : Z;
  bonusAmount : Z;
  amountFinal : option Z;
  note : string;
  date : option string;
  totalPaid : option Z;
  totalCashout : option Z;
  remainingPay : option Z;
  isPending : bool;
  extraMoney : option Z;
  reduction : option Z;
  createdAt : nat
}.

Definition minZero (f : option Z) : bool :=
  match f with
  | None => true
  | Some v => 0 <=? v
  end.

Definition requiredMinZero (f : option Z) : bool :=
  match f with
  | None => false
  | Some v => 0 <=? v
  end.

(** The validators of [gameEntrySchema], run by [create] and [save]. *)
Definition schemaValid (e : t) : bool :=
  negb (username e =? "")%string
  && negb (createdBy e =? "")%string
  && includes ALLOWED_TYPES (type e)
  && match method e with
     | Some m => includes ALLOWED_METHODS m
     | None =>
         negb ((type e =? "deposit")%string || (type e =? "redeem")%string)
     end
  && negb (gameName e =? "")%string
  && requiredMinZero (amountBase e)
  && minZero (amount e)
  && (0 <=? bonusRate e)
  && (0 <=? bonusAmount e)
  && requiredMinZero (amountFinal e)
  && minZero (totalPaid e)
  && minZero (totalCashout e)
  && minZero (remainingPay e)
  && minZero (extraMoney e)
  && minZero (reduction e).
End Entry.

(** ** Helpers of the routes *)

(** [coinEffect(type, amountFinal)]: how much an entry changes
    [totalCoins]. *)
Definition coinEffect (type : string) (amountFinal : option Z) : Z :=
  match amountFinal with
  | None => 0
  | Some amt =>
      if amt <=? 0 then 0
      else if (type =? "deposit")%string || (type =? "freeplay")%string
              || (type =? "playedgame")%string then - amt
      else if (type =? "redeem")%string then amt
      else 0
  end.

(** [applyGameDelta(gameName, delta)] on the Game rows, keyed by name;
    [current + delta] on whole amounts.  [Binary64.applyGameDelta] is the
    same function on the numbers of the host. *)
Definition applyGameDelta (gameName : string) (delta : Z)
    (games : gmap string Z) : gmap string Z :=
  let name := trim gameName in
  if (name =? "")%string then games
  else match games !! name with
       | None => games
       | Some current => <[name := current + delta]> games
       end.

(** ** The history collection and the state of the store *)

Module History.
(** A GameEntryHistory row; the financial fields it copies are those of
    [snapshot]. *)
Record t := mk {
  entryId : nat;
  action : string;
  snapshot : Entry.t
}.
End History.

Record ledger := mkLedger {
  entries : list Entry.t;
  games : gmap string Z;
  history : list History.t;
  nextId : nat
}.

(** The enum of the [action] field of the GameEntryHistory schema
    (api/models/GameEntryHistory.js). *)
Definition HISTORY_ACTION_ENUM : list string := ["create"; "update"; "delete"].

(** [recordHistory(entry, action)].  [GameEntryHistory.create] validates
    the row first, and an [action] outside the enum of the schema is
    refused; [hok] tells whether the collection then accepts the write.
    A failure of either kind is caught and logged. *)
Definition recordHistory (hok : bool) (entry : Entry.t) (action : string)
    (st : ledger) : ledger :=
  if hok && includes HISTORY_ACTION_ENUM action then
    mkLedger (entries st) (games st)
      (history st ++ [History.mk (Entry._id entry) action entry])
      (nextId st)
  else st.

Definition setGames (g : gmap string Z) (st : ledger) : ledger :=
  mkLedger (entries st) g (history st) (nextId st).

Definition setEntries (l : list Entry.t) (st : ledger) : ledger :=
  mkLedger l (games st) (history st) (nextId st).

(** [GameEntry.findById(id)]. *)
Definition findById (id : nat) (l : list Entry.t) : option Entry.t :=
  find (fun x => (Entry._id x =? id)%nat) l.

(** [findOne(q).sort({createdAt: -1})]. *)
Definition findLatest (q : Entry.t -> bool) (l : list Entry.t)
    : option Entry.t :=
  last (List.filter q l).

(** [doc.save()] of a loaded document, once validated. *)
Definition saveEntry (e : Entry.t) (l : list Entry.t) : list Entry.t :=
  map (fun x => if (Entry._id x =? Entry._id e)%nat then e else x) l.

(** [doc.deleteOne()]. *)
Definition deleteEntry (e : Entry.t) (l : list Entry.t) : list Entry.t :=
  List.filter (fun x => negb (Entry._id x =? Entry._id e)%nat) l.

(** What a route sends back. *)
Inductive response :=
| Json (status : nat) (doc : Entry.t)
| JsonOk
| Fail (status : nat) (message : string).

(** [!x || !String(x).trim()] for a text field. *)
Definition blank (x : option string) : bool :=
  match x with
  | None => true
  | Some s => (s =? "")%string || (trim s =? "")%string
  end.

(** [x || undefined]. *)
Definition orUndefined (x : option string) : option string :=
  match x with
  | Some s => if (s =? "")%string then None else Some s
  | None => None
  end.

(** The body of POST /api/game-entries.  A text field is absent ([None])
    or a string; [null] behaves as the empty string on every path.  A body
    that sends another JSON type in a text field, which the route hands
    on to the String cast of the schema, is outside the embedding. *)
Module Body.
Record t := mk {
  username : option string;
  createdBy : option string;
  type : option string;
  method : option string;
  playerName : option string;
  playerTag : option string;
  gameName : option string;
  amountBase : numArg;
  amount : numArg;
  bonusRate : numArg;
  bonusAmount : numArg;
  amountFinal : numArg;
  date : option string;
  note : option string;
  totalPaid : numArg;
  totalCashout : numArg;
  remainingPay : numArg;
  extraMoney : numArg;
  reduction : numArg;
  isPending : jsval
}.
End Body.

(** The body of PUT /api/game-entries/:id; [None] is [undefined]. *)
Module Payload.
Record t := mk {
  username : option string;
  createdBy : option string;
  type : option string;
  method : option string;
  playerName : option string;
  playerTag : option string;
  gameName : option string;
  amountBase : numArg;
  amount : numArg;
  bonusRate : numArg;
  bonusAmount : numArg;
  amountFinal : numArg;
  date : option string;
  note : option string;
  totalPaid : numArg;
  totalCashout : numArg;
  remainingPay : numArg;
  extraMoney : numArg;
  reduction : numArg;
  isPending : option bool
}.
End Payload.

(** Field assignments of a loaded document. *)
Definition setPending (remainingPay' reduction' : option Z)
    (isPending' : bool) (e : Entry.t) : Entry.t :=
  {| Entry._id := Entry._id e;
     Entry.username := Entry.username e;
     Entry.createdBy := Entry.createdBy e;
     Entry.type := Entry.type e;
     Entry.method := Entry.method e;
     Entry.playerName := Entry.playerName e;
     Entry.playerTag := Entry.playerTag e;
     Entry.gameName := Entry.gameName e;
     Entry.amountBase := Entry.amountBase e;
     Entry.amount := Entry.amount e;
     Entry.bonusRate := Entry.bonusRate e;
     Entry.bonusAmount := Entry.bonusAmount e;
     Entry.amountFinal := Entry.amountFinal e;
     Entry.note := Entry.note e;
     Entry.date := Entry.date e;
     Entry.totalPaid := Entry.totalPaid e;
     Entry.totalCashout := Entry.totalCashout e;
     Entry.remainingPay := remainingPay';
     Entry.isPending := isPending';
     Entry.extraMoney := Entry.extraMoney e;
     Entry.reduction := reduction';
     Entry.createdAt := Entry.createdAt e |}.

(** [payload.f !== undefined ? v : old] for the fields of the update. *)
Definition assignText (p : option string) (old : string) : string :=
  match p with
  | Some s => s
  | None => old
  end.

Definition assignNum (p : numArg) (old : option Z) : option Z :=
  match p with
  | NUndefined => old
  | _ => Some (toNumber0 p)
  end.

(** ** JavaScript [Map] with string keys: insertion-ordered *)

Definition mapGet {V} (k : string) (m : list (string * V)) : option V :=
  snd <$> find (fun kv => (fst kv =? k)%string) m.

Fixpoint mapSet {V} (k : string) (v : V) (m : list (string * V))
    : list (string * V) :=
  match m with
  | [] => [(k, v)]
  | kv :: rest =>
      if (fst kv =? k)%string then (k, v) :: rest
      else kv :: mapSet k v rest
  end.

(** ** Shapes of the read routes *)

(** The two documents a group of /pending keeps. *)
Module Group.
Record t := mk {
  lastRedeem : option Entry.t;
  lastDeposit : option Entry.t
}.
End Group.

(** A row of the pending list. *)
Module Row.
Record t := mk {
  _id : nat;
  type : string;
  username : string;
  playerName : string;
  playerTag : string;
  gameName : string;
  method : string;
  totalPaid : Z;
  totalCashout : Z;
  remainingPay : Z;
  reduction : Z;
  date : string;
  createdAt : string
}.
End Row.

(** The answer of /pending-by-tag. *)
Module TagPending.
Record t := mk {
  playerTag : string;
  totalPending : Z;
  pendingRedeem : Z;
  pendingReduction : Z;
  totalCashout : Z;
  totalPaid : Z
}.
End TagPending.

(** The report of /summary. *)
Module Summary.
Record t := mk {
  totalFreeplay : Z;
  totalPlayedGame : Z;
  totalDeposit : Z;
  totalRedeem : Z;
  totalCoin : Z;
  totalPendingRemainingPay : Z;
  totalPendingCount : nat;
  pendingEntries : list Row.t;
  totalReduction : Z;
  totalExtraMoney : Z;
  revenueCashApp : Z;
  revenuePayPal : Z;
  revenueChime : Z;
  revenueVenmo : Z;
  totalRevenue : Z
}.
End Summary.

(** The query of GET /api/game-entries; [None] is an absent parameter. *)
Module ListQuery.
Record t := mk {
  username : option string;
  type : option string;
  method : option string;
  gameName : option string;
  playerTag : option string;
  dateFrom : option string;
  dateTo : option string
}.
End ListQuery.

(** A row of /summary-by-game. *)
Module GameSummary.
Record t := mk {
  gameName : string;
  totalFreeplay : Z;
  totalPlayedGame : Z;
  totalDeposit : Z;
  totalRedeem : Z;
  totalCoins : Z
}.
End GameSummary.

(** A row of the pending payments table (src/user/PendingPaymentsTable.tsx). *)
Module ClientRow.
Record t := mk {
  _id : nat;
  type : string;
  playerName : string;
  playerTag : string;
  method : string;
  gameName : string;
  pendingAmount : Z;
  createdAt : string
}.
End ClientRow.

(** ** The game counters on binary64 numbers

    The amounts of the routes are JavaScript numbers, IEEE 754 binary64.
    The embedding above and below computes on whole amounts, which is what
    the host computes while every amount, counter and sum is a whole
    number within 2^53.  This module keeps the arithmetic of the host for
    the part of the create and delete routes that the game counters depend
    on, to tell what the counters hold when amounts have a fractional
    part. *)
Module Binary64.
Import PrimFloat.

(** The fields of a GameEntry the counters depend on. *)
Record entry := mkEntry {
  _id : nat;
  type : string;
  gameName : string;
  amountFinal : float
}.

(** [coinEffect(type, amountFinal)]. *)
Definition coinEffect (t : string) (a : float) : float :=
  let amt := a in
  if negb (is_finite amt) || (amt <=? 0)%float then 0%float
  else if (t =? "deposit")%string || (t =? "freeplay")%string
          || (t =? "playedgame")%string then (- amt)%float
  else if (t =? "redeem")%string then amt
  else 0%float.

(** [applyGameDelta(gameName, delta)]; [game.totalCoins || 0] reads a
    counter that is zero or NaN as 0. *)
Definition applyGameDelta (g : string) (delta : float)
    (gs : gmap string float) : gmap string float :=
  let name := trim g in
  if (name =? "")%string then gs
  else match gs !! name with
       | None => gs
       | Some totalCoins =>
           let current :=
             if is_nan totalCoins || (totalCoins =? 0)%float then 0%float
             else totalCoins in
           <[name := (current + delta)%float]> gs
       end.

Record ledger := mkLedger {
  entries : list entry;
  games : gmap string float;
  nextId : nat
}.

Inductive request :=
| CreateEntry (t g : string) (a : float)
| DeleteEntry (id : nat).

(** POST /api/game-entries, default branch, for a body the route accepts:
    the document is inserted and its coin effect, when it is not zero,
    applied to its game. *)
Definition createEntry (t g : string) (a : float) (st : ledger) : ledger :=
  let doc := mkEntry (nextId st) t (trim g) a in
  let delta := coinEffect (type doc) (amountFinal doc) in
  mkLedger (entries st ++ [doc])%list
    (if negb (delta =? 0)%float
     then applyGameDelta (gameName doc) delta (games st)
     else games st)
    (S (nextId st)).

(** DELETE /api/game-entries/:id: the coin effect of the entry, when it is
    not zero, is applied with the opposite sign, and the entry removed. *)
Definition deleteEntryById (id : nat) (st : ledger) : ledger :=
  match find (fun x => (_id x =? id)%nat) (entries st) with
  | None => st
  | Some doc =>
      let delta := coinEffect (type doc) (amountFinal doc) in
      mkLedger
        (List.filter (fun x => negb (_id x =? _id doc)%nat) (entries st))
        (if negb (delta =? 0)%float
         then applyGameDelta (gameName doc) (- delta)%float (games st)
         else games st)
        (nextId st)
  end.

Definition step (r : request) (st : ledger) : ledger :=
  match r with
  | CreateEntry t g a => createEntry t g a st
  | DeleteEntry id => deleteEntryById id st
  end.

Definition run (rs : list request) (st : ledger) : ledger :=
  fold_left (fun acc r => step r acc) rs st.

Definition initLedger (names : list string) : ledger :=
  mkLedger [] (list_to_map (map (fun n => (n, 0%float)) names)) 0.

(** The sum of [coinEffect(type, amountFinal)] over the entries of [g]. *)
Definition coinSum (g : string) (l : list entry) : float :=
  foldr (fun e acc => (coinEffect (type e) (amountFinal e) + acc)%float)
    0%float
    (List.filter (fun e => (gameName e =? g)%string) l).

(** The numbers binary64 has for 0.1 and 0.2, and the one next below
    -0.2, which prints as -0.20000000000000004. *)
Definition tenth : float := 0x1.999999999999ap-4%float.
Definition fifth : float := 0x1.999999999999ap-3%float.
Definition belowMinusFifth : float := (- 0x1.999999999999bp-3)%float.

(** Deposits of 0.1 and 0.2 on game X, then the first one deleted. *)
Definition twoDepositsOneDeleted : list request :=
  [CreateEntry "deposit" "X" tenth; CreateEntry "deposit" "X" fifth;
   DeleteEntry 0].

(** A deposit of 100 and a redeem of 40 on game X. *)
Definition depositThenRedeem : list request :=
  [CreateEntry "deposit" "X" 100%float; CreateEntry "redeem" "X" 40%float].
Definition minusSixty : float := (- 60)%float.

End Binary64.

Section Routes.

(** The host's date parser: [new Date(d).toISOString()] when [d] parses,
    and the ISO rendering of a creation time. *)
Variable parseDate : string -> option string.
Variable isoString : nat -> string.

(** [normalizeDateString(d)] on an optional string. *)
Definition normalizeDateString (d : option string) : option string :=
  match d with
  | None => None
  | Some s =>
      if (s =? "")%string then None
      else if isoDayPrefix s then Some (slice10 s)
      else match parseDate s with
           | Some iso => Some (slice10 iso)
           | None => None
           end
  end.

(** *** POST /api/game-entries *)

(** The merge of an incoming deposit into the [existing] row (the
    assignments between "Merge numeric fields" and "auto clear pending
    flag"). *)
Definition mergeDeposit (b : Body.t)
    (base final incomingAmount incomingTotalCashout incomingExtraMoney : Z)
    (existing : Entry.t) : Entry.t :=
  let oldAmtFinal := default 0 (Entry.amountFinal existing) in
  let amountFinal' := oldAmtFinal + final in
  let totalCashout' :=
    match Entry.totalCashout existing with
    | None => Some incomingTotalCashout
    | Some c => if c =? 0 then Some incomingTotalCashout else Some c
    end in
  let totalDepositMerged := toNumber0 (ofField (Some amountFinal')) in
  let totalCashoutMerged := toNumber0 (ofField totalCashout') in
  let recalculatedReduction := totalCashoutMerged - totalDepositMerged in
  let reduction' :=
    if 0 <? recalculatedReduction then recalculatedReduction else 0 in
  {| Entry._id := Entry._id existing;
     Entry.username := Entry.username existing;
     Entry.createdBy := Entry.createdBy existing;
     Entry.type := Entry.type existing;
     Entry.method := Entry.method existing;
     Entry.playerName :=
       match Body.playerName b with
       | Some p => trim p
       | None => Entry.playerName existing
       end;
     Entry.playerTag := Entry.playerTag existing;
     Entry.gameName := Entry.gameName existing;
     Entry.amountBase :=
       Some (toNumber0 (ofField (Entry.amountBase existing)) + base);
     Entry.amount :=
       Some (toNumber0 (ofField (Entry.amount existing)) + incomingAmount);
     Entry.bonusRate := Entry.bonusRate existing;
     Entry.bonusAmount := Entry.bonusAmount existing;
     Entry.amountFinal := Some amountFinal';
     Entry.note :=
       match Body.note b with
       | Some n => trim n
       | None => Entry.note existing
       end;
     Entry.date :=
       match Body.date b with
       | Some d => normalizeDateString (Some d)
       | None => Entry.date existing
       end;
     Entry.totalPaid := Entry.totalPaid existing;
     Entry.totalCashout := totalCashout';
     Entry.remainingPay := Entry.remainingPay existing;
     Entry.isPending := 0 <? reduction';
     Entry.extraMoney :=
       Some (toNumber0 (ofField (Entry.extraMoney existing))
             + incomingExtraMoney);
     Entry.reduction := Some reduction';
     Entry.createdAt := Entry.createdAt existing |}.

(** The document handed to [GameEntry.create].  The creation counter
    gives [_id], and stands for the [createdAt] that the timestamps of the
    schema set: later documents carry later instants. *)
Definition newEntry (b : Body.t) (cleanUsername cleanCreatedBy type : string)
    (cleanPlayerTag cleanGameName : string)
    (base final incomingAmount incomingTotalCashout incomingExtraMoney
     numericReduction : Z) (n : nat) : Entry.t :=
  {| Entry._id := n;
     Entry.username := cleanUsername;
     Entry.createdBy := cleanCreatedBy;
     Entry.type := type;
     Entry.method := orUndefined (Body.method b);
     Entry.playerName := trim (default "" (Body.playerName b));
     Entry.playerTag := Some cleanPlayerTag;
     Entry.gameName := cleanGameName;
     Entry.amountBase := Some base;
     Entry.amount := Some incomingAmount;
     Entry.bonusRate := toNumber0 (Body.bonusRate b);
     Entry.bonusAmount := toNumber0 (Body.bonusAmount b);
     Entry.amountFinal := Some final;
     Entry.note := trim (default "" (Body.note b));
     Entry.date := normalizeDateString (Body.date b);
     Entry.totalPaid := Some (toNumber0 (Body.totalPaid b));
     Entry.totalCashout := Some incomingTotalCashout;
     Entry.remainingPay := Some (toNumber0 (Body.remainingPay b));
     Entry.isPending := truthy (Body.isPending b);
     Entry.extraMoney := Some incomingExtraMoney;
     Entry.reduction := Some numericReduction;
     Entry.createdAt := n |}.

(** The query of the merge target: same username, same playerTag, type
    deposit. *)
Definition mergeTarget (cleanUsername cleanPlayerTag : string)
    (e : Entry.t) : bool :=
  (Entry.username e =? cleanUsername)%string
  && match Entry.playerTag e with
     | Some t => (t =? cleanPlayerTag)%string
     | None => false
     end
  && (Entry.type e =? "deposit")%string.

(** The checks that answer 400: the message, or the validated
    [amountBase] and [amountFinal]. *)
Definition validateBody (b : Body.t) : string + Z * Z :=
  let type := default "" (Body.type b) in
  let method := default "" (Body.method b) in
  if blank (Body.username b) then inl "username is required"
  else if blank (Body.createdBy b) then inl "createdBy is required"
  else if negb (includes ALLOWED_TYPES type) then inl "Invalid type"
  else if includes ["deposit"; "redeem"] type
          && negb (includes ALLOWED_METHODS method) then
    inl "Invalid or missing method"
  else if blank (Body.gameName b) then inl "gameName is required"
  else
    match toNumber (Body.amountBase b) None with
    | None => inl "Invalid amountBase"
    | Some base =>
        if base <? 0 then inl "Invalid amountBase"
        else
          match toNumber (Body.amountFinal b) None with
          | None => inl "Invalid amountFinal"
          | Some final =>
              if final <? 0 then inl "Invalid amountFinal"
              else inr (base, final)
          end
    end.

Definition cleanUsername (b : Body.t) : string :=
  trim (default "" (Body.username b)).
Definition cleanCreatedBy (b : Body.t) : string :=
  trim (default "" (Body.createdBy b)).
Definition cleanGameName (b : Body.t) : string :=
  trim (default "" (Body.gameName b)).
Definition cleanPlayerTag (b : Body.t) : string :=
  trim (default "" (Body.playerTag b)).
Definition numericReduction (b : Body.t) : Z := toNumber0 (Body.reduction b).
Definition incomingAmount (b : Body.t) (final : Z) : Z :=
  match Body.amount b with
  | NUndefined | NNull => final
  | a => toNumber0 a
  end.
Definition incomingTotalCashout (b : Body.t) : Z :=
  toNumber0 (Body.totalCashout b).
Definition incomingExtraMoney (b : Body.t) : Z :=
  toNumber0 (Body.extraMoney b).

(** The guard of the special case: a player-tag deposit with a positive
    reduction. *)
Definition mergeApplies (b : Body.t) : bool :=
  (default "" (Body.type b) =? "deposit")%string
  && negb (cleanPlayerTag b =? "")%string
  && (0 <? numericReduction b).

(** The merged row of the special case. *)
Definition mergedEntry (b : Body.t) (base final : Z) (existing : Entry.t)
    : Entry.t :=
  mergeDeposit b base final (incomingAmount b final)
    (incomingTotalCashout b) (incomingExtraMoney b) existing.

(** The special case, once the merge target [existing] is found. *)
Definition createMerged (hok : bool) (b : Body.t) (base final : Z)
    (existing : Entry.t) (st : ledger) : response * ledger :=
  let oldType := Entry.type existing in
  let oldAmtFinal := default 0 (Entry.amountFinal existing) in
  let merged := mergedEntry b base final existing in
  if negb (Entry.schemaValid merged) then
    (Fail 500 "Failed to create game entry", st)
  else
    let st1 := setEntries (saveEntry merged (entries st)) st in
    let st2 := recordHistory hok merged "update-merge" st1 in
    let oldDelta := coinEffect oldType (Some oldAmtFinal) in
    let newDelta :=
      coinEffect (Entry.type merged) (Entry.amountFinal merged) in
    let diffDelta := newDelta - oldDelta in
    let st3 :=
      if diffDelta =? 0 then st2
      else setGames
             (applyGameDelta (Entry.gameName merged) diffDelta (games st2))
             st2 in
    (Json 200 merged, st3).

(** The document of the default case. *)
Definition createdEntry (b : Body.t) (base final : Z) (n : nat) : Entry.t :=
  newEntry b (cleanUsername b) (cleanCreatedBy b) (default "" (Body.type b))
    (cleanPlayerTag b) (cleanGameName b) base final (incomingAmount b final)
    (incomingTotalCashout b) (incomingExtraMoney b) (numericReduction b) n.

(** The default case: create a new entry. *)
Definition createNew (hok : bool) (b : Body.t) (base final : Z)
    (st : ledger) : response * ledger :=
  let doc := createdEntry b base final (nextId st) in
  if negb (Entry.schemaValid doc) then
    (Fail 500 "Failed to create game entry", st)
  else
    let st1 :=
      mkLedger (entries st ++ [doc]) (games st) (history st)
        (S (nextId st)) in
    let st2 := recordHistory hok doc "create" st1 in
    let delta := coinEffect (Entry.type doc) (Entry.amountFinal doc) in
    let st3 :=
      if delta =? 0 then st2
      else setGames (applyGameDelta (Entry.gameName doc) delta (games st2))
             st2 in
    (Json 201 doc, st3).

Definition createEntry (hok : bool) (b : Body.t) (st : ledger)
    : response * ledger :=
  match validateBody b with
  | inl message => (Fail 400 message, st)
  | inr (base, final) =>
      if mergeApplies b then
        match findLatest (mergeTarget (cleanUsername b) (cleanPlayerTag b))
                (entries st) with
        | Some existing => createMerged hok b base final existing st
        | None => createNew hok b base final st
        end
      else createNew hok b base final st
  end.

(** *** PUT /api/game-entries/:id *)

(** The guarded assignment of [amountBase] and [amountFinal]: [None] is
    the 400 answer. *)
Definition checkedAmount (p : numArg) (old : option Z)
    : option (option Z) :=
  match p with
  | NUndefined => Some old
  | _ =>
      match toNumber p None with
      | None => None
      | Some v => if v <? 0 then None else Some (Some v)
      end
  end.

(** [payload.f && !ALLOWED.includes(payload.f)]. *)
Definition rejected (allowed : list string) (p : option string) : bool :=
  match p with
  | Some s => negb (s =? "")%string && negb (includes allowed s)
  | None => false
  end.

(** The document after the assignments of the route; the schema trims the
    text fields declared with [trim: true] when they are set. *)
Definition assignPayload (payload : Payload.t)
    (amountBase' amountFinal' : option Z) (entry : Entry.t) : Entry.t :=
  {| Entry._id := Entry._id entry;
     Entry.username :=
       assignText (trim <$> Payload.username payload) (Entry.username entry);
     Entry.createdBy :=
       assignText (trim <$> Payload.createdBy payload)
         (Entry.createdBy entry);
     Entry.type := assignText (Payload.type payload) (Entry.type entry);
     Entry.method :=
       match Payload.method payload with
       | Some m => Some m
       | None => Entry.method entry
       end;
     Entry.playerName :=
       assignText (trim <$> Payload.playerName payload)
         (Entry.playerName entry);
     Entry.playerTag :=
       match Payload.playerTag payload with
       | Some t => Some (trim t)
       | None => Entry.playerTag entry
       end;
     Entry.gameName :=
       assignText (trim <$> Payload.gameName payload) (Entry.gameName entry);
     Entry.amountBase := amountBase';
     Entry.amount := assignNum (Payload.amount payload) (Entry.amount entry);
     Entry.bonusRate :=
       default (Entry.bonusRate entry)
         (assignNum (Payload.bonusRate payload) None);
     Entry.bonusAmount :=
       default (Entry.bonusAmount entry)
         (assignNum (Payload.bonusAmount payload) None);
     Entry.amountFinal := amountFinal';
     Entry.note := assignText (trim <$> Payload.note payload) (Entry.note entry);
     Entry.date :=
       match Payload.date payload with
       | Some d => normalizeDateString (Some d)
       | None => Entry.date entry
       end;
     Entry.totalPaid :=
       assignNum (Payload.totalPaid payload) (Entry.totalPaid entry);
     Entry.totalCashout :=
       assignNum (Payload.totalCashout payload) (Entry.totalCashout entry);
     Entry.remainingPay :=
       assignNum (Payload.remainingPay payload) (Entry.remainingPay entry);
     Entry.isPending :=
       default (Entry.isPending entry) (Payload.isPending payload);
     Entry.extraMoney :=
       assignNum (Payload.extraMoney payload) (Entry.extraMoney entry);
     Entry.reduction :=
       assignNum (Payload.reduction payload) (Entry.reduction entry);
     Entry.createdAt := Entry.createdAt entry |}.

Definition updateEntry (hok : bool) (id : nat) (payload : Payload.t)
    (st : ledger) : response * ledger :=
  match findById id (entries st) with
  | None => (Fail 404 "Game entry not found", st)
  | Some entry =>
    let oldType := Entry.type entry in
    let oldAmtFinal := Entry.amountFinal entry in
    let oldGameName := Entry.gameName entry in
    if rejected ALLOWED_TYPES (Payload.type payload) then
      (Fail 400 "Invalid type", st)
    else if rejected ALLOWED_METHODS (Payload.method payload) then
      (Fail 400 "Invalid method", st)
    else
      match checkedAmount (Payload.amountBase payload)
              (Entry.amountBase entry) with
      | None => (Fail 400 "Invalid amountBase", st)
      | Some amountBase' =>
        match checkedAmount (Payload.amountFinal payload)
                (Entry.amountFinal entry) with
        | None => (Fail 400 "Invalid amountFinal", st)
        | Some amountFinal' =>
          let entry' := assignPayload payload amountBase' amountFinal' entry in
          if negb (Entry.schemaValid entry') then
            (Fail 500 "Failed to update game entry", st)
          else
            let st1 := setEntries (saveEntry entry' (entries st)) st in
            let st2 := recordHistory hok entry' "update" st1 in
            let oldDelta := coinEffect oldType oldAmtFinal in
            let st3 :=
              if oldDelta =? 0 then st2
              else setGames
                     (applyGameDelta oldGameName (- oldDelta) (games st2))
                     st2 in
            let newDelta :=
              coinEffect (Entry.type entry') (Entry.amountFinal entry') in
            let st4 :=
              if newDelta =? 0 then st3
              else setGames
                     (applyGameDelta (Entry.gameName entry') newDelta
                        (games st3)) st3 in
            (Json 200 entry', st4)
        end
      end
  end.

(** *** DELETE /api/game-entries/:id *)

(** The route when [entry.deleteOne()] succeeds. *)
Definition deleteEntryById (hok : bool) (id : nat) (st : ledger)
    : response * ledger :=
  match findById id (entries st) with
  | None => (Fail 404 "Game entry not found", st)
  | Some entry =>
      let delta := coinEffect (Entry.type entry) (Entry.amountFinal entry) in
      let st1 :=
        if delta =? 0 then st
        else setGames
               (applyGameDelta (Entry.gameName entry) (- delta) (games st))
               st in
      let st2 := recordHistory hok entry "delete" st1 in
      (JsonOk, setEntries (deleteEntry entry (entries st2)) st2)
  end.


(** *** PATCH /api/game-entries/:id/clear-pending *)

Definition clearedEntry (entry : Entry.t) : Entry.t :=
  if (Entry.type entry =? "redeem")%string then
    setPending (Some 0) (Entry.reduction entry) false entry
  else if (Entry.type entry =? "deposit")%string then
    setPending (Entry.remainingPay entry) (Some 0) false entry
  else setPending (Some 0) (Some 0) false entry.

Definition clearPending (hok : bool) (id : nat) (st : ledger)
    : response * ledger :=
  match findById id (entries st) with
  | None => (Fail 404 "Game entry not found", st)
  | Some entry =>
      let entry' := clearedEntry entry in
      if negb (Entry.schemaValid entry') then
        (Fail 500 "Failed to clear pending for this entry", st)
      else
        let st1 := setEntries (saveEntry entry' (entries st)) st in
        let st2 := recordHistory hok entry' "clear-pending" st1 in
        (Json 200 entry', st2)
  end.

(** *** The write requests and their sequential execution *)

Inductive request :=
| CreateEntry (b : Body.t)
| UpdateEntry (id : nat) (payload : Payload.t)
| DeleteEntry (id : nat)
| ClearPending (id : nat).

(** One request; [hok] is the fate of its history write. *)
Definition step (hok : bool) (r : request) (st : ledger)
    : response * ledger :=
  match r with
  | CreateEntry b => createEntry hok b st
  | UpdateEntry id payload => updateEntry hok id payload st
  | DeleteEntry id => deleteEntryById hok id st
  | ClearPending id => clearPending hok id st
  end.

Fixpoint run (rs : list (bool * request)) (st : ledger) : ledger :=
  match rs with
  | [] => st
  | (hok, r) :: rest => run rest (snd (step hok r st))
  end.

(** A store with the given games registered, no entry and no coin. *)
Definition initLedger (names : list string) : ledger :=
  mkLedger [] (list_to_map (map (fun n => (n, 0)) names)) [] 0.

(** *** GET /api/game-entries/pending *)

(** The key of a group: the template [`${e.username}::${e.playerTag || ""}`]. *)
Definition pendingKey (e : Entry.t) : string :=
  Entry.username e +:+ "::" +:+ default "" (Entry.playerTag e).

(** What a document does to its group: the latest redeem and the latest
    deposit are kept. *)
Definition groupStep (group : Group.t) (e : Entry.t) : Group.t :=
  if (Entry.type e =? "redeem")%string then
    Group.mk (Some e) (Group.lastDeposit group)
  else if (Entry.type e =? "deposit")%string then
    Group.mk (Group.lastRedeem group) (Some e)
  else group.

(** One turn of the loop that fills [tagMap]. *)
Definition tagMapStep (tagMap : list (string * Group.t)) (e : Entry.t)
    : list (string * Group.t) :=
  let key := pendingKey e in
  let group := default (Group.mk None None) (mapGet key tagMap) in
  mapSet key (groupStep group e) tagMap.

Definition buildTagMap (docs : list Entry.t) : list (string * Group.t) :=
  fold_left tagMapStep docs [].

(** [a ?? b] on stored fields. *)
Definition orElse (a b : option Z) : option Z :=
  match a with
  | Some v => Some v
  | None => b
  end.

(** [x || fallback] on an optional string. *)
Definition textOr (x : option string) (fallback : string) : string :=
  match x with
  | Some s => if (s =? "")%string then fallback else s
  | None => fallback
  end.

(** The response row built from [baseDoc]. *)
Definition pendingRow (baseDoc : Entry.t) (totalPending pendingReduction : Z)
    : Row.t :=
  {| Row._id := Entry._id baseDoc;
     Row.type := Entry.type baseDoc;
     Row.username := Entry.username baseDoc;
     Row.playerName := Entry.playerName baseDoc;
     Row.playerTag := default "" (Entry.playerTag baseDoc);
     Row.gameName := Entry.gameName baseDoc;
     Row.method := default "" (Entry.method baseDoc);
     Row.totalPaid := default 0 (Entry.totalPaid baseDoc);
     Row.totalCashout :=
       default 0
         (orElse (Entry.totalCashout baseDoc) (Entry.amountFinal baseDoc));
     Row.remainingPay := totalPending;
     Row.reduction := pendingReduction;
     Row.date :=
       textOr (Entry.date baseDoc)
         (slice10 (isoString (Entry.createdAt baseDoc)));
     Row.createdAt := isoString (Entry.createdAt baseDoc) |}.

(** The pending amount read off the latest redeem of a group. *)
Definition redeemPending (lastRedeem : Entry.t) : Z :=
  let totalPaid := default 0 (Entry.totalPaid lastRedeem) in
  let totalCashout :=
    default 0
      (orElse (Entry.totalCashout lastRedeem)
         (Entry.amountFinal lastRedeem)) in
  default (totalCashout - totalPaid) (Entry.remainingPay lastRedeem).

(** The body of the loop over [tagMap.entries()]: the row of a group, if
    it has one. *)
Definition resolveGroup (group : Group.t) : option Row.t :=
  match Group.lastDeposit group with
  | Some lastDeposit =>
      let pendingReduction :=
        toNumber0 (ofField (Entry.reduction lastDeposit)) in
      let totalPending := pendingReduction in
      if totalPending <=? 0 then None
      else Some (pendingRow lastDeposit totalPending pendingReduction)
  | None =>
      match Group.lastRedeem group with
      | Some lastRedeem =>
          if Entry.isPending lastRedeem then
            let pendingRedeem := redeemPending lastRedeem in
            let totalPending := pendingRedeem in
            if totalPending <=? 0 then None
            else Some (pendingRow lastRedeem totalPending 0)
          else None
      | None => None
      end
  end.

(** Grouping and resolution, as both /pending and /summary run them. *)
Definition resolvePending (docs : list Entry.t) : list Row.t :=
  omap resolveGroup (map snd (buildTagMap docs)).

Definition redeemOrDeposit (e : Entry.t) : bool :=
  (Entry.type e =? "redeem")%string || (Entry.type e =? "deposit")%string.

(** The username clause of a query: present when the parameter is not
    blank. *)
Definition usernameClause (username : option string) (e : Entry.t) : bool :=
  if blank username then true
  else (Entry.username e =? trim (default "" username))%string.

Definition listPending (username : option string) (st : ledger)
    : list Row.t :=
  let docs :=
    List.filter (fun e => redeemOrDeposit e && usernameClause username e)
      (entries st) in
  resolvePending docs.

(** *** GET /api/game-entries/pending-by-tag *)

Inductive tagAnswer :=
| Found (row : TagPending.t)
| NoPending (status : nat) (message : string).

Definition positiveReduction (e : Entry.t) : bool :=
  0 <? toNumber0 (ofField (Entry.reduction e)).

(** The query of the route. *)
Definition tagMatch (cleanUser cleanTag : string) (e : Entry.t) : bool :=
  (Entry.username e =? cleanUser)%string
  && match Entry.playerTag e with
     | Some t => (t =? cleanTag)%string
     | None => false
     end
  && (((Entry.type e =? "redeem")%string && Entry.isPending e)
      || ((Entry.type e =? "deposit")%string
          && match Entry.reduction e with
             | Some r => 0 <? r
             | None => false
             end)).

(** One turn of the loop over the matching rows. *)
Definition tagStep (acc : Group.t) (e : Entry.t) : Group.t :=
  if (Entry.type e =? "deposit")%string && positiveReduction e then
    Group.mk (Group.lastRedeem acc) (Some e)
  else if (Entry.type e =? "redeem")%string && Entry.isPending e then
    Group.mk (Some e) (Group.lastDeposit acc)
  else acc.

Definition pendingByTag (playerTag username : option string) (st : ledger)
    : tagAnswer :=
  let cleanTag := trim (default "" playerTag) in
  let cleanUser := trim (default "" username) in
  if (cleanTag =? "")%string || (cleanUser =? "")%string then
    NoPending 400 "playerTag and username are required"
  else
    let docs := List.filter (tagMatch cleanUser cleanTag) (entries st) in
    match docs with
    | [] => NoPending 404 "No pending for this tag"
    | _ =>
        let g := fold_left tagStep docs (Group.mk None None) in
        match Group.lastDeposit g with
        | Some lastDeposit =>
            let pendingReduction :=
              toNumber0 (ofField (Entry.reduction lastDeposit)) in
            let totalPending := pendingReduction in
            if totalPending <=? 0 then
              NoPending 404 "No pending for this tag"
            else
              Found
                (TagPending.mk cleanTag totalPending 0 pendingReduction
                   (default 0 (Entry.totalCashout lastDeposit))
                   (default 0 (Entry.totalPaid lastDeposit)))
        | None =>
            match Group.lastRedeem g with
            | Some lastRedeem =>
                let cashout := default 0 (Entry.totalCashout lastRedeem) in
                let paid := default 0 (Entry.totalPaid lastRedeem) in
                let pendingRedeem :=
                  default (cashout - paid) (Entry.remainingPay lastRedeem) in
                let totalPending := pendingRedeem in
                if totalPending <=? 0 then
                  NoPending 404 "No pending for this tag"
                else
                  Found
                    (TagPending.mk cleanTag totalPending pendingRedeem 0
                       (default 0 (Entry.totalCashout lastRedeem))
                       (default 0 (Entry.totalPaid lastRedeem)))
            | None => NoPending 404 "No pending for this tag"
            end
        end
    end.

(** *** GET /api/game-entries/summary *)

(** A [$group] stage with one [$sum] accumulator: one row per key. *)
Definition groupSum (key : Entry.t -> string) (val : Entry.t -> Z)
    (docs : list Entry.t) : list (string * Z) :=
  fold_left
    (fun acc e => mapSet (key e) (default 0 (mapGet (key e) acc) + val e) acc)
    docs [].

(** [COIN_AMOUNT_EXPR]: amountFinal, then amount, then 0. *)
Definition coinAmount (e : Entry.t) : Z :=
  default 0 (orElse (Entry.amountFinal e) (Entry.amount e)).

(** The summed expression of the totals by type. *)
Definition byTypeAmount (e : Entry.t) : Z :=
  if (Entry.type e =? "deposit")%string then default 0 (Entry.amountFinal e)
  else default 0 (orElse (Entry.amountFinal e) (Entry.amount e)).

(** [for (const t of rows) if (t._id === name) total = t.totalAmount || 0]. *)
Definition pickTotal (name : string) (rows : list (string * Z)) : Z :=
  fold_left
    (fun total t => if (fst t =? name)%string then snd t else total) rows 0.

Definition sumZ {A} (f : A -> Z) (l : list A) : Z :=
  foldr (fun x acc => f x + acc) 0 l.

(** The report for the documents selected by [matchDoc], the [match]
    object the route builds from its query. *)
Definition summary (matchDoc : Entry.t -> bool) (st : ledger) : Summary.t :=
  let byType :=
    groupSum Entry.type byTypeAmount (List.filter matchDoc (entries st)) in
  let totalFreeplay := pickTotal "freeplay" byType in
  let totalPlayedGame := pickTotal "playedgame" byType in
  let totalDeposit := pickTotal "deposit" byType in
  let totalRedeem := pickTotal "redeem" byType in
  let totalCoin :=
    totalRedeem - (totalFreeplay + totalPlayedGame + totalDeposit) in
  let pendingDocs :=
    List.filter (fun e => matchDoc e && redeemOrDeposit e) (entries st) in
  let pendingEntries := resolvePending pendingDocs in
  let depositByMethod :=
    groupSum (fun e => default "" (Entry.method e))
      (fun e => default 0 (Entry.amountBase e))
      (List.filter
         (fun e => (Entry.type e =? "deposit")%string && matchDoc e)
         (entries st)) in
  let revenueCashApp := pickTotal "cashapp" depositByMethod in
  let revenuePayPal := pickTotal "paypal" depositByMethod in
  let revenueChime := pickTotal "chime" depositByMethod in
  let revenueVenmo := pickTotal "venmo" depositByMethod in
  {| Summary.totalFreeplay := totalFreeplay;
     Summary.totalPlayedGame := totalPlayedGame;
     Summary.totalDeposit := totalDeposit;
     Summary.totalRedeem := totalRedeem;
     Summary.totalCoin := totalCoin;
     Summary.totalPendingRemainingPay := sumZ Row.remainingPay pendingEntries;
     Summary.totalPendingCount := length pendingEntries;
     Summary.pendingEntries := pendingEntries;
     Summary.totalReduction :=
       sumZ (fun e => default 0 (Entry.reduction e))
         (List.filter matchDoc (entries st));
     Summary.totalExtraMoney :=
       sumZ (fun e => default 0 (Entry.extraMoney e))
         (List.filter matchDoc (entries st));
     Summary.revenueCashApp := revenueCashApp;
     Summary.revenuePayPal := revenuePayPal;
     Summary.revenueChime := revenueChime;
     Summary.revenueVenmo := revenueVenmo;
     Summary.totalRevenue :=
       revenueCashApp + revenuePayPal + revenueChime + revenueVenmo |}.

(** ** Specification-side definitions *)

(** The coin effect an entry has on the game named [g]. *)
Definition effectOn (g : string) (e : Entry.t) : Z :=
  if (Entry.gameName e =? g)%string then
    coinEffect (Entry.type e) (Entry.amountFinal e)
  else 0.

(** The sum of [coinEffect(type, amountFinal)] over the entries of [g]. *)
Definition coinSum (g : string) (l : list Entry.t) : Z :=
  sumZ (fun e => coinEffect (Entry.type e) (Entry.amountFinal e))
    (List.filter (fun e => (Entry.gameName e =? g)%string) l).

(** What the schema and the creation counter guarantee of a stored
    document. *)
Definition storedOk (n : nat) (e : Entry.t) : Prop :=
  (Entry._id e < n)%nat
  /\ Entry.schemaValid e = true
  /\ trim (Entry.gameName e) = Entry.gameName e.

(** The invariant of the store: distinct ids below the counter, valid
    documents, and every registered game carrying the coin sum of its
    entries. *)
Definition ledgerOk (st : ledger) : Prop :=
  NoDup (map Entry._id (entries st))
  /\ Forall (storedOk (nextId st)) (entries st)
  /\ forall g v, games st !! g = Some v -> v = coinSum g (entries st).

(** What two outcomes of a request share when only the history differs. *)
Definition sameOutcome (a b : response * ledger) : Prop :=
  fst a = fst b
  /\ entries (snd a) = entries (snd b)
  /\ games (snd a) = games (snd b)
  /\ nextId (snd a) = nextId (snd b).

(** The group of the documents whose key is [k]. *)
Definition groupOf (k : string) (docs : list Entry.t) : Group.t :=
  fold_left groupStep
    (List.filter (fun e => (pendingKey e =? k)%string) docs)
    (Group.mk None None).

(** The key under which a row of the list was grouped. *)
Definition rowKey (r : Row.t) : string :=
  Row.username r +:+ "::" +:+ Row.playerTag r.


(** An entry of the pair (username, playerTag), a missing tag counting as
    the empty one. *)
Definition samePair (u t : string) (e : Entry.t) : bool :=
  (Entry.username e =? u)%string
  && (default "" (Entry.playerTag e) =? t)%string.

(** The resolver run on the documents of one pair only. *)
Definition resolvePair (u t : string) (docs : list Entry.t) : option Row.t :=
  resolveGroup
    (fold_left groupStep (List.filter (samePair u t) docs)
       (Group.mk None None)).

(** A row that is pending by itself: a redeem flagged pending or a deposit
    with a positive reduction; the only rows /pending-by-tag reads. *)
Definition selfPending (e : Entry.t) : bool :=
  ((Entry.type e =? "redeem")%string && Entry.isPending e)
  || ((Entry.type e =? "deposit")%string
      && match Entry.reduction e with
         | Some r => 0 <? r
         | None => false
         end).

(** The pending amount an answer carries, if it carries one. *)
Definition lookupAmount (l : tagAnswer) : option Z :=
  match l with
  | Found row => Some (TagPending.totalPending row)
  | NoPending _ _ => None
  end.

Definition rowAmount (r : option Row.t) : option Z := Row.remainingPay <$> r.

(** *** Sample requests *)

(** A host whose date parser rejects everything, and a fixed rendering of
    creation times. *)
Definition noDate : string -> option string := fun _ => None.
Definition isoEpoch : nat -> string := fun _ => "1970-01-01T00:00:00.000Z".

Definition depositBody (u tag g : string) (amt red cash : Z) : Body.t :=
  Body.mk (Some u) (Some "op") (Some "deposit") (Some "cashapp") None
    (Some tag) (Some g) (NFinite amt) NUndefined NUndefined NUndefined
    (NFinite amt) None None NUndefined (NFinite cash) NUndefined NUndefined
    (NFinite red) JUndefined.

Definition redeemBody (u tag g : string) (amt rp : Z) (p : bool) : Body.t :=
  Body.mk (Some u) (Some "op") (Some "redeem") (Some "cashapp") None
    (Some tag) (Some g) (NFinite amt) NUndefined NUndefined NUndefined
    (NFinite amt) None None NUndefined NUndefined (NFinite rp) NUndefined
    NUndefined (JBool p).

Definition freeplayBody (u g : string) (amt : Z) : Body.t :=
  Body.mk (Some u) (Some "op") (Some "freeplay") None None None (Some g)
    (NFinite amt) NUndefined NUndefined NUndefined (NFinite amt) None None
    NUndefined NUndefined NUndefined NUndefined NUndefined JUndefined.

(** A deposit document without amountFinal, as a collection written
    before the field was required may hold. *)
Definition legacyDeposit : Entry.t :=
  Entry.mk 0 "u" "op" "deposit" (Some "cashapp") "" (Some "t") "X" (Some 10)
    (Some 10) 0 0 None "" None (Some 0) (Some 0) (Some 0) false (Some 0)
    (Some 0) 0.

Definition firstDeposit : Entry.t :=
  Entry.mk 0 "u" "op" "deposit" (Some "cashapp") "" (Some "t") "A" (Some 10)
    (Some 10) 0 0 (Some 10) "" None (Some 0) (Some 100) (Some 0) false
    (Some 0) (Some 5) 0.

Definition pendingRedeem : Entry.t :=
  Entry.mk 0 "u" "op" "redeem" (Some "cashapp") "" (Some "t") "X" (Some 40)
    (Some 40) 0 0 (Some 40) "" None (Some 0) (Some 0) (Some 50) true
    (Some 0) (Some 0) 0.

(** A deposit of 100 then a redeem of 40 on game X. *)
Definition depositThenRedeem : list (bool * request) :=
  [(true, CreateEntry (depositBody "u" "t" "X" 100 0 0));
   (true, CreateEntry (redeemBody "u" "t" "X" 40 0 false))].

(** A redeem left pending with 50 to pay, then a deposit of the same tag
    with no reduction. *)
Definition redeemThenDeposit : list (bool * request) :=
  [(true, CreateEntry (redeemBody "u" "t" "X" 40 50 true));
   (true, CreateEntry (depositBody "u" "t" "X" 10 0 0))].

(** The same two requests from two pairs whose keys coincide:
    ("a::b", "c") and ("a", "b::c"). *)
Definition collidingPairs : list (bool * request) :=
  [(true, CreateEntry (redeemBody "a::b" "c" "X" 40 50 true));
   (true, CreateEntry (depositBody "a" "b::c" "X" 10 0 0))].

(** A freeplay of 20 and a redeem of 5. *)
Definition freeplayAndRedeem : list (bool * request) :=
  [(true, CreateEntry (freeplayBody "u" "X" 20));
   (true, CreateEntry (redeemBody "u" "" "X" 5 0 false))].


(** ** The other routes of the file and their callers *)

(** *** GET /api/game-entries *)

(** A clause on a trimmed text parameter, present when the parameter is
    not blank. *)
Definition textClause (p : option string) (field : option string) : bool :=
  if blank p then true
  else match field with
       | Some v => (v =? trim (default "" p))%string
       | None => false
       end.

(** A clause on a parameter that must be one of the allowed values, absent
    otherwise. *)
Definition enumClause (allowed : list string) (p : option string)
    (field : option string) : bool :=
  if includes allowed (default "" p) then
    match field with
    | Some v => (v =? default "" p)%string
    | None => false
    end
  else true.

(** The date range of the query: [from] and [to] after
    [normalizeDateString], compared as strings with the stored date. *)
Definition dateClause (dateFrom dateTo : option string)
    (field : option string) : bool :=
  let from := orUndefined (normalizeDateString dateFrom) in
  let to := orUndefined (normalizeDateString dateTo) in
  match from, to with
  | None, None => true
  | _, _ =>
      match field with
      | None => false
      | Some d =>
          match from with
          | Some f => (f <=? d)%string
          | None => true
          end
          && match to with
             | Some t => (d <=? t)%string
             | None => true
             end
      end
  end.

(** The filter of the route. *)
Definition listMatch (q : ListQuery.t) (e : Entry.t) : bool :=
  textClause (ListQuery.username q) (Some (Entry.username e))
  && enumClause ALLOWED_TYPES (ListQuery.type q) (Some (Entry.type e))
  && enumClause ALLOWED_METHODS (ListQuery.method q) (Entry.method e)
  && textClause (ListQuery.gameName q) (Some (Entry.gameName e))
  && textClause (ListQuery.playerTag q) (Entry.playerTag e)
  && dateClause (ListQuery.dateFrom q) (ListQuery.dateTo q) (Entry.date e).

(** The answer: the matching documents, newest first. *)
Definition listEntries (q : ListQuery.t) (st : ledger) : list Entry.t :=
  rev (List.filter (listMatch q) (entries st)).

(** The query of a game row: its name alone. *)
Definition gameQuery (name : string) : ListQuery.t :=
  ListQuery.mk None None None (Some name) None None None.

(** *** The net total of a game row (src/admin/Gamerow.tsx) *)

(** [String.prototype.toLowerCase] on Latin-1 code units. *)
Definition lowerAscii (a : ascii) : ascii :=
  let n := nat_of_ascii a in
  if (((65 <=? n) && (n <=? 90)) || ((192 <=? n) && (n <=? 214))
      || ((216 <=? n) && (n <=? 222)))%nat
  then ascii_of_nat (n + 32) else a.

Fixpoint toLowerCase (s : string) : string :=
  match s with
  | EmptyString => EmptyString
  | String a r => String (lowerAscii a) (toLowerCase r)
  end.

(** The reducer of [loadTotals]. *)
Definition netStep (acc : Z) (e : Entry.t) : Z :=
  let t := toLowerCase (Entry.type e) in
  let amt := default 0 (orElse (Entry.amountFinal e) (Entry.amount e)) in
  if amt <=? 0 then acc
  else if (t =? "deposit")%string || (t =? "freeplay")%string then acc - amt
  else if (t =? "redeem")%string then acc + amt
  else acc.

Definition netTotal (entries : list Entry.t) : Z := fold_left netStep entries 0.

(** *** The pending payments table (src/user/PendingPaymentsTable.tsx) *)

(** The mapping of one server row in [fetchPending]; [None] is a row the
    table skips. *)
Definition clientPendingRow (e : Row.t) : option ClientRow.t :=
  let rawType :=
    toLowerCase (if (Row.type e =? "")%string then "redeem" else Row.type e) in
  let type := if (rawType =? "deposit")%string then "deposit" else "redeem" in
  let remainingPayNum := Row.remainingPay e in
  let reductionNum := Row.reduction e in
  let pendingAmountForUI :=
    if (type =? "redeem")%string then
      if 0 <? remainingPayNum then Some remainingPayNum else None
    else if 0 <? reductionNum then Some reductionNum
    else if 0 <? remainingPayNum then Some remainingPayNum
    else None in
  match pendingAmountForUI with
  | None => None
  | Some amount =>
      if amount <=? 0 then None
      else
        Some {| ClientRow._id := Row._id e;
                ClientRow.type := type;
                ClientRow.playerName := trim (Row.playerName e);
                ClientRow.playerTag := trim (Row.playerTag e);
                ClientRow.method :=
                  if (Row.method e =? "")%string then "-" else Row.method e;
                ClientRow.gameName :=
                  if (Row.gameName e =? "")%string then "-"
                  else Row.gameName e;
                ClientRow.pendingAmount := amount;
                ClientRow.createdAt :=
                  if (Row.createdAt e =? "")%string then Row.date e
                  else Row.createdAt e |}
  end.

(** The rows [fetchPending] keeps of a server answer. *)
Definition clientPendingRows (rows : list Row.t) : list ClientRow.t :=
  List.filter (fun r => 0 <? ClientRow.pendingAmount r)
    (omap clientPendingRow rows).

(** *** GET /api/game-entries/summary-by-game *)

(** [$cond: [{ $eq: ["$type", t] }, COIN_AMOUNT_EXPR, 0]]. *)
Definition condAmount (t : string) (e : Entry.t) : Z :=
  if (Entry.type e =? t)%string then coinAmount e else 0.

(** The [$group] stage by game name: the four conditional sums of
    [COIN_AMOUNT_EXPR]. *)
Definition addToGame (acc : Z * Z * Z * Z) (e : Entry.t) : Z * Z * Z * Z :=
  let '(fp, pg, dp, rd) := acc in
  (fp + condAmount "freeplay" e, pg + condAmount "playedgame" e,
   dp + condAmount "deposit" e, rd + condAmount "redeem" e).

Definition groupByGame (docs : list Entry.t) : list (string * (Z * Z * Z * Z)) :=
  fold_left
    (fun m e =>
       mapSet (Entry.gameName e)
         (addToGame (default (0, 0, 0, 0) (mapGet (Entry.gameName e) m)) e) m)
    docs [].

(** The [$addFields] and [$project] stages. *)
Definition gameSummaryRow (g : string * (Z * Z * Z * Z)) : GameSummary.t :=
  let '(name, (fp, pg, dp, rd)) := g in
  GameSummary.mk name fp pg dp rd (rd - (fp + pg + dp)).

(** The order of [$sort: { gameName: 1 }]. *)
Definition byGameName (a b : GameSummary.t) : Prop :=
  (GameSummary.gameName a <=? GameSummary.gameName b)%string = true.

Definition byGameName_dec (a b : GameSummary.t)
    : Decision (byGameName a b) :=
  bool_eq_dec (GameSummary.gameName a <=? GameSummary.gameName b)%string true.

(** The pipeline on the documents selected by [matchDoc], the username and
    month clauses of the route. *)
Definition summaryByGame (matchDoc : Entry.t -> bool) (st : ledger)
    : list GameSummary.t :=
  @merge_sort _ byGameName byGameName_dec
    (map gameSummaryRow (groupByGame (List.filter matchDoc (entries st)))).

(** *** GET /api/game-entries/:id/history *)

(** The rows of the entry by [sort({createdAt: -1})]: rows are written at
    distinct instants, so the newest first is the reverse of the order of
    writing. *)
Definition listHistory (id : nat) (st : ledger) : list History.t :=
  rev (List.filter (fun h => (History.entryId h =? id)%nat) (history st)).

(** *** A body for PUT that sets nothing *)


(** *** What a request does to the entries and to the history *)

(** The history after an attempt to record [h] under an action the schema
    lists. *)
Definition recorded (hok : bool) (h : History.t) (st st' : ledger) : Prop :=
  history st' = if hok then (history st ++ [h])%list else history st.

(** The answers of a request and the writes that come with each. *)
Inductive outcome (hok : bool) (st : ledger)
    : request -> response -> ledger -> Prop :=
| Refused r status message :
    (status = 400 \/ status = 404 \/ status = 500)%nat ->
    outcome hok st r (Fail status message) st
| Inserted b doc st' :
    Entry._id doc = nextId st ->
    Entry.createdAt doc = nextId st ->
    Entry.schemaValid doc = true ->
    entries st' = (entries st ++ [doc])%list ->
    nextId st' = S (nextId st) ->
    recorded hok (History.mk (Entry._id doc) "create" doc) st st' ->
    outcome hok st (CreateEntry b) (Json 201 doc) st'
| Merged b e e' st' :
    e ∈ entries st ->
    Entry._id e' = Entry._id e ->
    Entry.createdAt e' = Entry.createdAt e ->
    Entry.schemaValid e' = true ->
    entries st' = saveEntry e' (entries st) ->
    nextId st' = nextId st ->
    history st' = history st ->
    outcome hok st (CreateEntry b) (Json 200 e') st'
| Updated id payload e e' st' :
    findById id (entries st) = Some e ->
    Entry._id e' = Entry._id e ->
    Entry.createdAt e' = Entry.createdAt e ->
    Entry.schemaValid e' = true ->
    entries st' = saveEntry e' (entries st) ->
    nextId st' = nextId st ->
    recorded hok (History.mk (Entry._id e') "update" e') st st' ->
    outcome hok st (UpdateEntry id payload) (Json 200 e') st'
| Cleared id e e' st' :
    findById id (entries st) = Some e ->
    Entry._id e' = Entry._id e ->
    Entry.createdAt e' = Entry.createdAt e ->
    Entry.schemaValid e' = true ->
    entries st' = saveEntry e' (entries st) ->
    nextId st' = nextId st ->
    history st' = history st ->
    outcome hok st (ClearPending id) (Json 200 e') st'
| Deleted id e st' :
    findById id (entries st) = Some e ->
    entries st' = deleteEntry e (entries st) ->
    nextId st' = nextId st ->
    recorded hok (History.mk (Entry._id e) "delete" e) st st' ->
    outcome hok st (DeleteEntry id) JsonOk st'.

(** The action tags the routes hand to [recordHistory]. *)
Definition HISTORY_ACTIONS : list string :=
  ["create"; "update"; "delete"; "update-merge"; "clear-pending"].

(** *** Bodies the schema accepts *)

(** The optional numbers of a body, as the create route reads them, are
    not negative, and a method sent along is one of the allowed ones. *)
Definition inRange (b : Body.t) (final : Z) : bool :=
  (0 <=? incomingAmount b final)
  && (0 <=? toNumber0 (Body.bonusRate b))
  && (0 <=? toNumber0 (Body.bonusAmount b))
  && (0 <=? toNumber0 (Body.totalPaid b))
  && (0 <=? incomingTotalCashout b)
  && (0 <=? toNumber0 (Body.remainingPay b))
  && (0 <=? incomingExtraMoney b)
  && (0 <=? numericReduction b)
  && match orUndefined (Body.method b) with
     | Some m => includes ALLOWED_METHODS m
     | None => true
     end.

(** *** The player-tag form (src/user/PlayerTagEntryForm.tsx) *)

(** [ptReduction]: cashout less deposit, when positive, on whole
    amounts. *)
Definition ptReduction (ptAmount ptCashoutAmount : Z) : Z :=
  let diff := ptCashoutAmount - ptAmount in
  if 0 <? diff then diff else 0.

(** [canSubmit]; the amounts are the numbers read from the inputs, and
    [extraMoney] is [None] while the option is off. *)
Definition canSubmit (username method ptPlayerTag ptGameName : string)
    (ptAmount : Z) (extraMoney : option Z) : bool :=
  negb (trim username =? "")%string
  && negb (trim ptPlayerTag =? "")%string
  && negb (trim ptGameName =? "")%string
  && negb (method =? "")%string
  && (0 <? ptAmount)
  && match extraMoney with
     | Some x => 0 <? x
     | None => true
     end.

(** The body [handleSubmit] posts. *)
Definition formBody
    (username method ptPlayerTag playerName ptGameName note date : string)
    (ptAmount ptCashoutAmount : Z) (extraMoney : option Z) : Body.t :=
  {| Body.username := Some (trim username);
     Body.createdBy := Some (trim username);
     Body.type := Some "deposit";
     Body.method := Some method;
     Body.playerName := orUndefined (Some (trim playerName));
     Body.playerTag := Some (trim ptPlayerTag);
     Body.gameName := Some (trim ptGameName);
     Body.amountBase := NFinite ptAmount;
     Body.amount := NFinite ptAmount;
     Body.bonusRate := NFinite 0;
     Body.bonusAmount := NFinite 0;
     Body.amountFinal := NFinite ptAmount;
     Body.date := orUndefined (Some date);
     Body.note := orUndefined (Some (trim note));
     Body.totalPaid := NUndefined;
     Body.totalCashout := NFinite ptCashoutAmount;
     Body.remainingPay := NUndefined;
     Body.extraMoney :=
       match extraMoney with
       | Some x => NFinite x
       | None => NUndefined
       end;
     Body.reduction := NFinite (ptReduction ptAmount ptCashoutAmount);
     Body.isPending := JUndefined |}.

(** *** Further sample data *)



Definition playedgameBody (u g : string) (amt : Z) : Body.t :=
  Body.mk (Some u) (Some "op") (Some "playedgame") None None None (Some g)
    (NFinite amt) NUndefined NUndefined NUndefined (NFinite amt) None None
    NUndefined NUndefined NUndefined NUndefined NUndefined JUndefined.

(** A deposit of 100 and a played game of 30 on game X. *)
Definition depositAndPlayed : list (bool * request) :=
  [(true, CreateEntry (depositBody "u" "t" "X" 100 0 0));
   (true, CreateEntry (playedgameBody "u" "X" 30))].

(** A redeem of 100 left pending in full. *)
Definition openRedeem : list (bool * request) :=
  [(true, CreateEntry (redeemBody "u" "t" "X" 100 100 true))].

(** The document [openRedeem] stores. *)
Definition openRedeemDoc : Entry.t :=
  Entry.mk 0 "u" "op" "redeem" (Some "cashapp") "" (Some "t") "X"
    (Some 100) (Some 100) 0 0 (Some 100) "" None (Some 0) (Some 0)
    (Some 100) true (Some 0) (Some 0) 0.


(** ** Strings *)

Lemma trimEnd_idem s : trimEnd (trimEnd s) = trimEnd s.
Proof.
  induction s as [|a r IH]; [reflexivity|].
  simpl. destruct (trimEnd r) as [|b r'] eqn:E.
  - destruct (isSpace a) eqn:Ha; simpl; [reflexivity|]. now rewrite Ha.
  - change (trimEnd (String a (String b r')) = String a (String b r')).
    simpl trimEnd at 1. simpl in IH.
    destruct (trimEnd r') as [|c r''] eqn:E'.
    + destruct (isSpace b); [discriminate|]. now inversion IH.
    + now inversion IH.
Qed.

Lemma trimStart_head s :
  trimStart s = EmptyString
  \/ exists a r, trimStart s = String a r /\ isSpace a = false.
Proof.
  induction s as [|a r IH]; [now left|].
  simpl. destruct (isSpace a) eqn:Ha; [exact IH|].
  right. now exists a, r.
Qed.

Lemma trimEnd_head a r :
  isSpace a = false -> exists r', trimEnd (String a r) = String a r'.
Proof.
  intros Ha. simpl. destruct (trimEnd r) as [|b r'].
  - rewrite Ha. now exists EmptyString.
  - now exists (String b r').
Qed.

Lemma trim_idem s : trim (trim s) = trim s.
Proof.
  unfold trim. destruct (trimStart_head s) as [->|(a & r & -> & Ha)].
  - reflexivity.
  - destruct (trimEnd_head a r Ha) as [r' E]. rewrite E.
    simpl trimStart. rewrite Ha. rewrite <- E. apply trimEnd_idem.
Qed.

(** ** The insertion-ordered map *)

Lemma mapGet_mapSet_eq {V} k (v : V) m : mapGet k (mapSet k v m) = Some v.
Proof.
  unfold mapGet. induction m as [|[k' v'] m IH]; simpl.
  - now rewrite String.eqb_refl.
  - destruct (k' =? k)%string eqn:E; simpl.
    + now rewrite String.eqb_refl.
    + now rewrite E.
Qed.

Lemma mapGet_mapSet_ne {V} k k' (v : V) m :
  k <> k' -> mapGet k' (mapSet k v m) = mapGet k' m.
Proof.
  intros Hne. unfold mapGet. induction m as [|[k0 v0] m IH]; simpl.
  - apply String.eqb_neq in Hne. now rewrite Hne.
  - destruct (k0 =? k)%string eqn:E; simpl.
    + apply String.eqb_eq in E. subst k0.
      apply String.eqb_neq in Hne. now rewrite Hne.
    + destruct (k0 =? k')%string; [reflexivity|exact IH].
Qed.

Lemma mapSet_keys {V} k (v : V) m :
  map fst (mapSet k v m)
  = match mapGet k m with
    | Some _ => map fst m
    | None => (map fst m ++ [k])%list
    end.
Proof.
  unfold mapGet. induction m as [|[k0 v0] m IH]; simpl; [reflexivity|].
  destruct (k0 =? k)%string eqn:E; simpl.
  - apply String.eqb_eq in E. now subst.
  - rewrite IH. now destruct (find _ m).
Qed.

Lemma mapGet_None_keys {V} k (m : list (string * V)) :
  mapGet k m = None -> k ∉ map fst m.
Proof.
  unfold mapGet. induction m as [|[k0 v0] m IH]; simpl.
  - intros _. apply not_elem_of_nil.
  - destruct (k0 =? k)%string eqn:E; simpl; [discriminate|].
    intros H. apply not_elem_of_cons. split.
    + apply String.eqb_neq in E. congruence.
    + now apply IH.
Qed.

Lemma mapSet_NoDup {V} k (v : V) m :
  NoDup (map fst m) -> NoDup (map fst (mapSet k v m)).
Proof.
  intros H. rewrite mapSet_keys. destruct (mapGet k m) eqn:E; [exact H|].
  apply NoDup_app. split; [exact H|]. split.
  - intros x Hx Hin. apply list_elem_of_singleton in Hin. subst x.
    now apply (mapGet_None_keys k m).
  - apply NoDup_singleton.
Qed.

Lemma mapGet_elem_of {V} k (g : V) m :
  NoDup (map fst m) -> (k, g) ∈ m -> mapGet k m = Some g.
Proof.
  unfold mapGet. induction m as [|[k0 v0] m IH]; simpl; intros Hnd Hin.
  - now apply elem_of_nil in Hin.
  - apply NoDup_cons in Hnd as [Hk Hnd].
    apply elem_of_cons in Hin as [Heq|Hin].
    + inversion Heq; subst. now rewrite String.eqb_refl.
    + destruct (k0 =? k)%string eqn:E.
      * apply String.eqb_eq in E. subst k0. exfalso. apply Hk.
        apply list_elem_of_fmap. now exists (k, g).
      * now apply IH.
Qed.

(** ** Sums over the collection *)

Lemma sumZ_app {A} (f : A -> Z) l1 l2 :
  sumZ f (l1 ++ l2) = sumZ f l1 + sumZ f l2.
Proof. induction l1 as [|x l1 IH]; simpl; [reflexivity|]. rewrite IH. lia. Qed.

Lemma coinSum_effectOn g l : coinSum g l = sumZ (effectOn g) l.
Proof.
  unfold coinSum, effectOn. induction l as [|x l IH]; simpl; [reflexivity|].
  destruct (Entry.gameName x =? g)%string; simpl; rewrite IH; reflexivity.
Qed.

Lemma coinEffect_default t a : coinEffect t (Some (default 0 a)) = coinEffect t a.
Proof. destruct a; reflexivity. Qed.

Lemma findById_id id l e : findById id l = Some e -> Entry._id e = id.
Proof.
  unfold findById. intros H. apply find_some in H as [_ H].
  now apply Nat.eqb_eq in H.
Qed.

Lemma findById_elem_of id l e : findById id l = Some e -> e ∈ l.
Proof.
  unfold findById. intros H. apply find_some in H as [H _].
  now apply list_elem_of_In.
Qed.

Lemma findById_unique l e :
  NoDup (map Entry._id l) -> e ∈ l -> findById (Entry._id e) l = Some e.
Proof.
  unfold findById. induction l as [|x l IH]; simpl; intros Hnd Hin.
  - now apply elem_of_nil in Hin.
  - apply NoDup_cons in Hnd as [Hx Hnd].
    destruct (Entry._id x =? Entry._id e)%nat eqn:E.
    + apply Nat.eqb_eq in E.
      apply elem_of_cons in Hin as [->|Hin]; [reflexivity|].
      exfalso. apply Hx. rewrite E. apply list_elem_of_fmap. now exists e.
    + apply elem_of_cons in Hin as [->|Hin].
      * now rewrite Nat.eqb_refl in E.
      * now apply IH.
Qed.

Lemma saveEntry_fresh e' l :
  Entry._id e' ∉ map Entry._id l -> saveEntry e' l = l.
Proof.
  unfold saveEntry. induction l as [|x l IH]; simpl; [reflexivity|].
  intros H. apply not_elem_of_cons in H as [Hx Hl].
  destruct (Entry._id x =? Entry._id e')%nat eqn:E.
  - apply Nat.eqb_eq in E. congruence.
  - f_equal. now apply IH.
Qed.

Lemma saveEntry_ids e' l : map Entry._id (saveEntry e' l) = map Entry._id l.
Proof.
  unfold saveEntry. induction l as [|x l IH]; simpl; [reflexivity|].
  rewrite IH. destruct (Entry._id x =? Entry._id e')%nat eqn:E; [|reflexivity].
  apply Nat.eqb_eq in E. now rewrite E.
Qed.

Lemma saveEntry_sum (f : Entry.t -> Z) e e' l :
  NoDup (map Entry._id l) -> findById (Entry._id e') l = Some e ->
  sumZ f (saveEntry e' l) = sumZ f l - f e + f e'.
Proof.
  unfold findById, saveEntry. induction l as [|x l IH]; simpl; intros Hnd Hf.
  - discriminate.
  - apply NoDup_cons in Hnd as [Hx Hnd].
    destruct (Entry._id x =? Entry._id e')%nat eqn:E.
    + inversion Hf; subst x. apply Nat.eqb_eq in E. rewrite E in Hx.
      fold (saveEntry e' l). rewrite (saveEntry_fresh e' l Hx). lia.
    + rewrite (IH Hnd Hf). lia.
Qed.

Lemma saveEntry_Forall (P : Entry.t -> Prop) e' l :
  Forall P l -> P e' -> Forall P (saveEntry e' l).
Proof.
  intros Hl He. unfold saveEntry. induction Hl as [|x l Hx Hl IH]; simpl.
  - constructor.
  - constructor; [|exact IH]. now destruct (Entry._id x =? Entry._id e')%nat.
Qed.

Lemma deleteEntry_fresh e l :
  Entry._id e ∉ map Entry._id l -> deleteEntry e l = l.
Proof.
  unfold deleteEntry. induction l as [|x l IH]; simpl; [reflexivity|].
  intros H. apply not_elem_of_cons in H as [Hx Hl].
  destruct (Entry._id x =? Entry._id e)%nat eqn:E; simpl.
  - apply Nat.eqb_eq in E. congruence.
  - f_equal. now apply IH.
Qed.

Lemma deleteEntry_sum (f : Entry.t -> Z) e l :
  NoDup (map Entry._id l) -> findById (Entry._id e) l = Some e ->
  sumZ f (deleteEntry e l) = sumZ f l - f e.
Proof.
  unfold findById, deleteEntry. induction l as [|x l IH]; simpl; intros Hnd Hf.
  - discriminate.
  - apply NoDup_cons in Hnd as [Hx Hnd].
    destruct (Entry._id x =? Entry._id e)%nat eqn:E; simpl.
    + inversion Hf; subst x.
      fold (deleteEntry e l). rewrite (deleteEntry_fresh e l Hx). lia.
    + rewrite (IH Hnd Hf). lia.
Qed.

Lemma deleteEntry_sublist e l : sublist (deleteEntry e l) l.
Proof.
  unfold deleteEntry. induction l as [|x l IH]; simpl; [constructor|].
  destruct (negb _); now constructor.
Qed.

(** ** The game counter *)

Lemma applyGameDelta_lookup n d (gs : gmap string Z) g :
  trim n = n -> n <> "" ->
  applyGameDelta n d gs !! g
  = (fun v => if (n =? g)%string then v + d else v) <$> gs !! g.
Proof.
  intros Ht Hn. unfold applyGameDelta. rewrite Ht.
  apply String.eqb_neq in Hn. rewrite Hn.
  destruct (n =? g)%string eqn:E.
  - apply String.eqb_eq in E. subst g.
    destruct (gs !! n) as [c|] eqn:Hc; simpl.
    + now rewrite lookup_insert_eq.
    + now rewrite Hc.
  - apply String.eqb_neq in E.
    destruct (gs !! n) as [c|] eqn:Hc.
    + rewrite lookup_insert_ne by exact E. now destruct (gs !! g).
    + now destruct (gs !! g).
Qed.

(** The guarded call [if (delta !== 0) await applyGameDelta(name, delta)]. *)
Lemma guarded_delta_lookup st n d g v :
  trim n = n -> n <> "" ->
  games (if d =? 0 then st
         else setGames (applyGameDelta n d (games st)) st) !! g = Some v ->
  exists v0, games st !! g = Some v0
             /\ v = v0 + (if (n =? g)%string then d else 0).
Proof.
  intros Ht Hn. destruct (d =? 0) eqn:Ed.
  - apply Z.eqb_eq in Ed. subst d. intros H. exists v. split; [exact H|].
    destruct (n =? g)%string; lia.
  - simpl. rewrite (applyGameDelta_lookup n d (games st) g Ht Hn).
    destruct (games st !! g) as [v0|]; simpl; [|discriminate].
    intros H. inversion H. exists v0. split; [reflexivity|].
    destruct (n =? g)%string; lia.
Qed.

Lemma guarded_delta_entries st n d :
  entries (if d =? 0 then st
           else setGames (applyGameDelta n d (games st)) st) = entries st
  /\ nextId (if d =? 0 then st
             else setGames (applyGameDelta n d (games st)) st) = nextId st
  /\ history (if d =? 0 then st
              else setGames (applyGameDelta n d (games st)) st) = history st.
Proof. now destruct (d =? 0). Qed.

Lemma recordHistory_fields hok e a st :
  entries (recordHistory hok e a st) = entries st
  /\ games (recordHistory hok e a st) = games st
  /\ nextId (recordHistory hok e a st) = nextId st.
Proof. unfold recordHistory. now destruct (hok && _). Qed.

(** A history row whose action the schema does not list is never written. *)
Lemma recordHistory_outside_enum hok e a st :
  includes HISTORY_ACTION_ENUM a = false -> recordHistory hok e a st = st.
Proof.
  intros Ha. unfold recordHistory. now rewrite Ha, andb_false_r.
Qed.

(** A listed action is written exactly when the collection accepts it. *)
Lemma recordHistory_inside_enum hok e a st :
  includes HISTORY_ACTION_ENUM a = true ->
  recordHistory hok e a st
  = if hok then
      mkLedger (entries st) (games st)
        (history st ++ [History.mk (Entry._id e) a e])%list (nextId st)
    else st.
Proof.
  intros Ha. unfold recordHistory. now rewrite Ha, andb_true_r.
Qed.

Lemma schemaValid_gameName e : Entry.schemaValid e = true -> Entry.gameName e <> "".
Proof.
  unfold Entry.schemaValid. intros H.
  repeat (apply andb_true_iff in H as [H ?]).
  match goal with
  | Hg : negb (Entry.gameName e =? "")%string = true |- _ =>
      apply negb_true_iff in Hg; now apply String.eqb_neq in Hg
  end.
Qed.

(** ** The invariant is kept by every route *)

Arguments coinEffect : simpl never.
Arguments applyGameDelta : simpl never.
Arguments recordHistory : simpl never.
Arguments trim : simpl never.
Arguments Entry.schemaValid : simpl never.
Arguments createdEntry : simpl never.
Arguments mergedEntry : simpl never.
Arguments assignPayload : simpl never.
Arguments clearedEntry : simpl never.

Lemma storedOk_mono n m e : (n <= m)%nat -> storedOk n e -> storedOk m e.
Proof. intros Hle (Hid & Hv & Ht). repeat split; [lia|exact Hv|exact Ht]. Qed.

Lemma fresh_id st :
  Forall (storedOk (nextId st)) (entries st) ->
  nextId st ∉ map Entry._id (entries st).
Proof.
  intros Hall Hin. apply list_elem_of_fmap in Hin as (e & He & Hin).
  rewrite Forall_forall in Hall. destruct (Hall e Hin) as [Hlt _]. lia.
Qed.

Lemma createdEntry_id b base final n :
  Entry._id (createdEntry b base final n) = n.
Proof. reflexivity. Qed.

Lemma createNew_ok hok b base final st :
  ledgerOk st -> ledgerOk (snd (createNew hok b base final st)).
Proof.
  intros (Hnd & Hall & Hbal). unfold createNew.
  destruct (Entry.schemaValid (createdEntry b base final (nextId st))) eqn:Hv;
    cbn [negb snd]; [|now repeat split].
  set (doc := createdEntry b base final (nextId st)) in *.
  set (st1 := mkLedger (entries st ++ [doc]) (games st) (history st)
                (S (nextId st))).
  set (st2 := recordHistory hok doc "create" st1).
  destruct (recordHistory_fields hok doc "create" st1) as (He2 & Hg2 & Hn2).
  fold st2 in He2, Hg2, Hn2.
  set (delta := coinEffect (Entry.type doc) (Entry.amountFinal doc)).
  destruct (guarded_delta_entries st2 (Entry.gameName doc) delta)
    as (He3 & Hn3 & _).
  assert (Htrim : trim (Entry.gameName doc) = Entry.gameName doc)
    by apply trim_idem.
  unfold ledgerOk. rewrite He3, Hn3, He2, Hn2. cbn [entries nextId st1].
  split; [|split].
  - rewrite map_app. simpl. apply NoDup_app. split; [exact Hnd|]. split.
    + intros x Hx Hin. apply list_elem_of_singleton in Hin. subst x.
      now apply (fresh_id st Hall).
    + apply NoDup_singleton.
  - apply Forall_app. split.
    + eapply Forall_impl; [exact Hall|]. intros e. apply storedOk_mono. lia.
    + constructor; [|constructor].
      repeat split; [|exact Hv|exact Htrim].
      unfold doc. rewrite createdEntry_id. lia.
  - intros g v Hg.
    apply guarded_delta_lookup in Hg as (v0 & Hg & ->);
      [|exact Htrim|now apply schemaValid_gameName].
    rewrite Hg2 in Hg. simpl in Hg. apply Hbal in Hg. subst v0.
    rewrite !coinSum_effectOn, sumZ_app. simpl. unfold effectOn at 3.
    fold delta. change (Entry.gameName doc) with (cleanGameName b). lia.
Qed.

Lemma stored_lookup st id e :
  ledgerOk st -> findById id (entries st) = Some e ->
  storedOk (nextId st) e.
Proof.
  intros (_ & Hall & _) Hf. rewrite Forall_forall in Hall.
  apply Hall. now apply (findById_elem_of id).
Qed.

(** Saving a changed document keeps the invariant when the counters moved
    by the difference of its coin effects. *)
Lemma save_ok st st' e e' :
  ledgerOk st ->
  findById (Entry._id e') (entries st) = Some e ->
  Entry.schemaValid e' = true ->
  trim (Entry.gameName e') = Entry.gameName e' ->
  entries st' = saveEntry e' (entries st) ->
  nextId st' = nextId st ->
  (forall g v, games st' !! g = Some v ->
     exists v0, games st !! g = Some v0
                /\ v = v0 - effectOn g e + effectOn g e') ->
  ledgerOk st'.
Proof.
  intros Hok Hf Hv Ht He Hn Hg. pose proof (stored_lookup _ _ _ Hok Hf) as Hs.
  destruct Hok as (Hnd & Hall & Hbal). unfold ledgerOk. rewrite He, Hn.
  split; [|split].
  - now rewrite saveEntry_ids.
  - apply saveEntry_Forall; [exact Hall|].
    destruct Hs as (Hid & _ & _). apply findById_id in Hf.
    repeat split; [lia|exact Hv|exact Ht].
  - intros g v Hgv. apply Hg in Hgv as (v0 & H0 & ->).
    apply Hbal in H0. subst v0.
    rewrite !coinSum_effectOn.
    rewrite (saveEntry_sum (effectOn g) e e' (entries st) Hnd Hf). lia.
Qed.

Lemma findLatest_elem_of q l e : findLatest q l = Some e -> e ∈ l /\ q e = true.
Proof.
  unfold findLatest. intros H. apply last_Some_elem_of in H.
  apply list_elem_of_In in H. apply filter_In in H as [H1 H2].
  split; [now apply list_elem_of_In|exact H2].
Qed.

Lemma mergedEntry_same b base final existing :
  Entry._id (mergedEntry b base final existing) = Entry._id existing
  /\ Entry.type (mergedEntry b base final existing) = Entry.type existing
  /\ Entry.gameName (mergedEntry b base final existing)
     = Entry.gameName existing
  /\ Entry.amountFinal (mergedEntry b base final existing)
     = Some (default 0 (Entry.amountFinal existing) + final).
Proof. repeat split. Qed.

Lemma createMerged_ok hok b base final existing st :
  ledgerOk st -> existing ∈ entries st ->
  ledgerOk (snd (createMerged hok b base final existing st)).
Proof.
  intros Hok Hin. unfold createMerged.
  destruct (Entry.schemaValid (mergedEntry b base final existing)) eqn:Hv;
    cbn [negb snd]; [|exact Hok].
  destruct (mergedEntry_same b base final existing) as (Hid & Hty & Hgn & Haf).
  set (merged := mergedEntry b base final existing) in *.
  set (st1 := setEntries (saveEntry merged (entries st)) st).
  set (st2 := recordHistory hok merged "update-merge" st1).
  destruct (recordHistory_fields hok merged "update-merge" st1)
    as (He2 & Hg2 & Hn2).
  fold st2 in He2, Hg2, Hn2.
  set (diff := coinEffect (Entry.type merged) (Entry.amountFinal merged)
               - coinEffect (Entry.type existing)
                   (Some (default 0 (Entry.amountFinal existing)))).
  destruct (guarded_delta_entries st2 (Entry.gameName merged) diff)
    as (He3 & Hn3 & _).
  assert (Hf : findById (Entry._id merged) (entries st) = Some existing).
  { rewrite Hid. apply findById_unique; [apply Hok|exact Hin]. }
  destruct (stored_lookup _ _ _ Hok Hf) as (_ & _ & Htrim).
  rewrite <- Hgn in Htrim.
  eapply (save_ok st _ existing merged Hok Hf Hv Htrim).
  - now rewrite He3, He2.
  - now rewrite Hn3, Hn2.
  - intros g v Hg.
    apply guarded_delta_lookup in Hg as (v0 & Hg & ->);
      [|exact Htrim|now apply schemaValid_gameName].
    rewrite Hg2 in Hg. exists v0. split; [exact Hg|].
    unfold effectOn, diff. rewrite coinEffect_default, Hgn, Hty.
    destruct (Entry.gameName existing =? g)%string; lia.
Qed.

Lemma createEntry_ok hok b st :
  ledgerOk st -> ledgerOk (snd (createEntry hok b st)).
Proof.
  intros Hok. unfold createEntry.
  destruct (validateBody b) as [m|[base final]]; [exact Hok|].
  destruct (mergeApplies b); [|now apply createNew_ok].
  destruct (findLatest _ (entries st)) as [existing|] eqn:Hf;
    [|now apply createNew_ok].
  apply createMerged_ok; [exact Hok|].
  now apply findLatest_elem_of in Hf.
Qed.

Lemma assignPayload_gameName payload ab af entry :
  trim (Entry.gameName entry) = Entry.gameName entry ->
  trim (Entry.gameName (assignPayload payload ab af entry))
  = Entry.gameName (assignPayload payload ab af entry).
Proof.
  intros H. change (Entry.gameName (assignPayload payload ab af entry))
    with (assignText (trim <$> Payload.gameName payload)
            (Entry.gameName entry)).
  destruct (Payload.gameName payload); simpl; [apply trim_idem|exact H].
Qed.

Lemma updateEntry_ok hok id payload st :
  ledgerOk st -> ledgerOk (snd (updateEntry hok id payload st)).
Proof.
  intros Hok. unfold updateEntry.
  destruct (findById id (entries st)) as [entry|] eqn:Hf; [|exact Hok].
  destruct (rejected ALLOWED_TYPES _); [exact Hok|].
  destruct (rejected ALLOWED_METHODS _); [exact Hok|].
  destruct (checkedAmount (Payload.amountBase payload) _) as [ab|];
    [|exact Hok].
  destruct (checkedAmount (Payload.amountFinal payload) _) as [af|];
    [|exact Hok].
  destruct (Entry.schemaValid (assignPayload payload ab af entry)) eqn:Hv;
    cbn [negb snd]; [|exact Hok].
  destruct (stored_lookup _ _ _ Hok Hf) as (_ & Hv0 & Htrim0).
  pose proof (assignPayload_gameName payload ab af entry Htrim0) as Htrim.
  set (entry' := assignPayload payload ab af entry) in *.
  set (st1 := setEntries (saveEntry entry' (entries st)) st).
  set (st2 := recordHistory hok entry' "update" st1).
  destruct (recordHistory_fields hok entry' "update" st1) as (He2 & Hg2 & Hn2).
  fold st2 in He2, Hg2, Hn2.
  set (oldDelta := coinEffect (Entry.type entry) (Entry.amountFinal entry)).
  set (st3 := if oldDelta =? 0 then st2
              else setGames
                     (applyGameDelta (Entry.gameName entry) (- oldDelta)
                        (games st2)) st2).
  assert (H3 : entries st3 = entries st2 /\ nextId st3 = nextId st2).
  { unfold st3. now destruct (oldDelta =? 0). }
  destruct H3 as (He3 & Hn3).
  set (newDelta := coinEffect (Entry.type entry') (Entry.amountFinal entry')).
  destruct (guarded_delta_entries st3 (Entry.gameName entry') newDelta)
    as (He4 & Hn4 & _).
  assert (Hf' : findById (Entry._id entry') (entries st) = Some entry).
  { change (Entry._id entry') with (Entry._id entry).
    now rewrite (findById_id _ _ _ Hf). }
  eapply (save_ok st _ entry entry' Hok Hf' Hv Htrim).
  - now rewrite He4, He3, He2.
  - now rewrite Hn4, Hn3, Hn2.
  - intros g v Hg.
    apply guarded_delta_lookup in Hg as (v3 & Hg & ->);
      [|exact Htrim|now apply schemaValid_gameName].
    assert (H0 : exists v0, games st !! g = Some v0
               /\ v3 = v0 + (if (Entry.gameName entry =? g)%string
                             then - oldDelta else 0)).
    { unfold st3 in Hg. destruct (oldDelta =? 0) eqn:Ed.
      - apply Z.eqb_eq in Ed. rewrite Hg2 in Hg. exists v3.
        split; [exact Hg|]. rewrite Ed.
        destruct (Entry.gameName entry =? g)%string; lia.
      - cbn [games setGames] in Hg.
        rewrite applyGameDelta_lookup in Hg;
          [|exact Htrim0|now apply schemaValid_gameName].
        rewrite Hg2 in Hg. cbn [games st1 setEntries] in Hg.
        destruct (games st !! g) as [v0|]; [|discriminate].
        simpl in Hg. inversion Hg. exists v0. split; [reflexivity|].
        destruct (Entry.gameName entry =? g)%string; lia. }
    destruct H0 as (v0 & H0 & ->). exists v0. split; [exact H0|].
    unfold effectOn. fold oldDelta newDelta.
    destruct (Entry.gameName entry =? g)%string,
      (Entry.gameName entry' =? g)%string; lia.
Qed.

Lemma deleteEntryById_ok hok id st :
  ledgerOk st -> ledgerOk (snd (deleteEntryById hok id st)).
Proof.
  intros Hok. unfold deleteEntryById.
  destruct (findById id (entries st)) as [entry|] eqn:Hf; [|exact Hok].
  cbn [snd].
  destruct (stored_lookup _ _ _ Hok Hf) as (_ & Hv0 & Htrim0).
  set (delta := coinEffect (Entry.type entry) (Entry.amountFinal entry)).
  set (st1 := if delta =? 0 then st
              else setGames
                     (applyGameDelta (Entry.gameName entry) (- delta)
                        (games st)) st).
  assert (H1 : entries st1 = entries st /\ nextId st1 = nextId st).
  { unfold st1. now destruct (delta =? 0). }
  destruct H1 as (He1 & Hn1).
  destruct (recordHistory_fields hok entry "delete" st1) as (He2 & Hg2 & Hn2).
  set (st2 := recordHistory hok entry "delete" st1) in *.
  destruct Hok as (Hnd & Hall & Hbal).
  unfold ledgerOk. cbn [entries nextId games setEntries].
  rewrite He2, He1, Hn2, Hn1, Hg2.
  assert (Hsub := deleteEntry_sublist entry (entries st)).
  split; [|split].
  - eapply sublist_NoDup; [exact Hnd|]. now apply fmap_sublist.
  - rewrite Forall_forall in Hall. apply Forall_forall. intros x Hx.
    apply Hall. apply list_elem_of_In. apply list_elem_of_In in Hx.
    unfold deleteEntry in Hx. now apply filter_In in Hx as [Hx _].
  - intros g v Hg.
    assert (H0 : exists v0, games st !! g = Some v0
               /\ v = v0 + (if (Entry.gameName entry =? g)%string
                            then - delta else 0)).
    { unfold st1 in Hg. destruct (delta =? 0) eqn:Ed.
      - apply Z.eqb_eq in Ed. exists v. split; [exact Hg|]. rewrite Ed.
        destruct (Entry.gameName entry =? g)%string; lia.
      - cbn [games setGames] in Hg.
        rewrite applyGameDelta_lookup in Hg;
          [|exact Htrim0|now apply schemaValid_gameName].
        destruct (games st !! g) as [v0|]; [|discriminate].
        simpl in Hg. inversion Hg. exists v0. split; [reflexivity|].
        destruct (Entry.gameName entry =? g)%string; lia. }
    destruct H0 as (v0 & H0 & ->). apply Hbal in H0. subst v0.
    rewrite !coinSum_effectOn.
    rewrite (deleteEntry_sum (effectOn g) entry (entries st) Hnd).
    + unfold effectOn at 3. fold delta.
      destruct (Entry.gameName entry =? g)%string; lia.
    + now rewrite (findById_id _ _ _ Hf).
Qed.

Lemma clearedEntry_same entry :
  Entry._id (clearedEntry entry) = Entry._id entry
  /\ Entry.type (clearedEntry entry) = Entry.type entry
  /\ Entry.gameName (clearedEntry entry) = Entry.gameName entry
  /\ Entry.amountFinal (clearedEntry entry) = Entry.amountFinal entry.
Proof.
  unfold clearedEntry.
  destruct (Entry.type entry =? "redeem")%string;
    [|destruct (Entry.type entry =? "deposit")%string]; repeat split.
Qed.

Lemma clearPending_ok hok id st :
  ledgerOk st -> ledgerOk (snd (clearPending hok id st)).
Proof.
  intros Hok. unfold clearPending.
  destruct (findById id (entries st)) as [entry|] eqn:Hf; [|exact Hok].
  destruct (Entry.schemaValid (clearedEntry entry)) eqn:Hv;
    cbn [negb snd]; [|exact Hok].
  destruct (clearedEntry_same entry) as (Hid & Hty & Hgn & Haf).
  destruct (stored_lookup _ _ _ Hok Hf) as (_ & _ & Htrim).
  rewrite <- Hgn in Htrim.
  set (entry' := clearedEntry entry) in *.
  set (st1 := setEntries (saveEntry entry' (entries st)) st).
  destruct (recordHistory_fields hok entry' "clear-pending" st1)
    as (He2 & Hg2 & Hn2).
  assert (Hf' : findById (Entry._id entry') (entries st) = Some entry).
  { rewrite Hid. now rewrite (findById_id _ _ _ Hf). }
  eapply (save_ok st _ entry entry' Hok Hf' Hv Htrim).
  - now rewrite He2.
  - now rewrite Hn2.
  - intros g v Hg. rewrite Hg2 in Hg. exists v. split; [exact Hg|].
    unfold effectOn. rewrite Hgn, Hty, Haf. lia.
Qed.

Lemma step_ok hok r st : ledgerOk st -> ledgerOk (snd (step hok r st)).
Proof.
  destruct r; simpl.
  - apply createEntry_ok.
  - apply updateEntry_ok.
  - apply deleteEntryById_ok.
  - apply clearPending_ok.
Qed.

Lemma run_ok rs : forall st, ledgerOk st -> ledgerOk (run rs st).
Proof.
  induction rs as [|[hok r] rs IH]; intros st Hok; simpl; [exact Hok|].
  apply IH. now apply step_ok.
Qed.

Lemma initLedger_games names g :
  g ∈ names -> games (initLedger names) !! g = Some 0.
Proof.
  unfold initLedger. cbn [games].
  induction names as [|n names IH]; intros Hin.
  - now apply elem_of_nil in Hin.
  - cbn [map list_to_map foldr]. destruct (decide (n = g)) as [->|Hne].
    + apply lookup_insert_eq.
    + rewrite lookup_insert_ne by exact Hne. apply IH.
      apply elem_of_cons in Hin as [Hin|Hin]; [congruence|exact Hin].
Qed.

Lemma initLedger_zero names g v :
  games (initLedger names) !! g = Some v -> v = 0.
Proof.
  unfold initLedger. cbn [games].
  induction names as [|n names IH].
  - cbn [map list_to_map foldr]. now rewrite lookup_empty.
  - cbn [map list_to_map foldr]. destruct (decide (n = g)) as [->|Hne].
    + rewrite lookup_insert_eq. intros H. now inversion H.
    + now rewrite lookup_insert_ne by exact Hne.
Qed.

Lemma initLedger_ok names : ledgerOk (initLedger names).
Proof.
  unfold ledgerOk. split; [|split].
  - simpl. apply NoDup_nil_2.
  - simpl. constructor.
  - intros g v Hg. apply initLedger_zero in Hg. now subst v.
Qed.

(** Registered games stay registered: a delta never creates or drops a
    Game row. *)
Lemma applyGameDelta_is_Some n d (gs : gmap string Z) g :
  is_Some (applyGameDelta n d gs !! g) <-> is_Some (gs !! g).
Proof.
  unfold applyGameDelta. destruct (trim n =? "")%string; [reflexivity|].
  destruct (gs !! trim n) as [c|] eqn:Hc; [|reflexivity].
  destruct (decide (trim n = g)) as [<-|Hne].
  - rewrite lookup_insert_eq, Hc. split; intros _; eauto.
  - now rewrite lookup_insert_ne.
Qed.

Lemma guarded_delta_is_Some st n d g :
  is_Some (games (if d =? 0 then st
                  else setGames (applyGameDelta n d (games st)) st) !! g)
  <-> is_Some (games st !! g).
Proof.
  destruct (d =? 0); [reflexivity|]. cbn [games setGames].
  apply applyGameDelta_is_Some.
Qed.

Lemma step_registered hok r st g :
  is_Some (games (snd (step hok r st)) !! g) <-> is_Some (games st !! g).
Proof.
  destruct r as [b|id payload|id|id]; cbn [step].
  - unfold createEntry.
    assert (Hnew : forall base final,
      is_Some (games (snd (createNew hok b base final st)) !! g)
      <-> is_Some (games st !! g)).
    { intros base final. unfold createNew.
      destruct (Entry.schemaValid _); cbn [negb snd]; [|reflexivity].
      rewrite guarded_delta_is_Some.
      now destruct (recordHistory_fields hok
        (createdEntry b base final (nextId st)) "create"
        (mkLedger (entries st ++ [createdEntry b base final (nextId st)])
           (games st) (history st) (S (nextId st)))) as (_ & -> & _). }
    destruct (validateBody b) as [m|[base final]]; [reflexivity|].
    destruct (mergeApplies b); [|apply Hnew].
    destruct (findLatest _ (entries st)) as [existing|]; [|apply Hnew].
    unfold createMerged.
    destruct (Entry.schemaValid _); cbn [negb snd]; [|reflexivity].
    rewrite guarded_delta_is_Some.
    now destruct (recordHistory_fields hok
      (mergedEntry b base final existing) "update-merge"
      (setEntries (saveEntry (mergedEntry b base final existing)
                     (entries st)) st)) as (_ & -> & _).
  - unfold updateEntry.
    destruct (findById id (entries st)) as [entry|]; [|reflexivity].
    destruct (rejected ALLOWED_TYPES _); [reflexivity|].
    destruct (rejected ALLOWED_METHODS _); [reflexivity|].
    destruct (checkedAmount (Payload.amountBase payload) _) as [ab|];
      [|reflexivity].
    destruct (checkedAmount (Payload.amountFinal payload) _) as [af|];
      [|reflexivity].
    destruct (Entry.schemaValid _); cbn [negb snd]; [|reflexivity].
    rewrite guarded_delta_is_Some.
    destruct (coinEffect _ _ =? 0);
      [|cbn [games setGames]; rewrite applyGameDelta_is_Some].
    all: now destruct (recordHistory_fields hok
      (assignPayload payload ab af entry) "update"
      (setEntries (saveEntry (assignPayload payload ab af entry)
                     (entries st)) st)) as (_ & -> & _).
  - unfold deleteEntryById.
    destruct (findById id (entries st)) as [entry|]; [|reflexivity].
    cbn [snd games setEntries].
    set (st1 := if _ =? 0 then st else _).
    destruct (recordHistory_fields hok entry "delete" st1) as (_ & -> & _).
    unfold st1. destruct (coinEffect _ _ =? 0); [reflexivity|].
    cbn [games setGames]. apply applyGameDelta_is_Some.
  - unfold clearPending.
    destruct (findById id (entries st)) as [entry|]; [|reflexivity].
    destruct (Entry.schemaValid _); cbn [negb snd]; [|reflexivity].
    now destruct (recordHistory_fields hok (clearedEntry entry)
      "clear-pending"
      (setEntries (saveEntry (clearedEntry entry) (entries st)) st))
      as (_ & -> & _).
Qed.

Lemma run_registered rs g : forall st,
  is_Some (games (run rs st) !! g) <-> is_Some (games st !! g).
Proof.
  induction rs as [|[hok r] rs IH]; intros st; simpl; [reflexivity|].
  rewrite IH. apply step_registered.
Qed.

(** ** The claims *)

(** Claim C1, amended.  On whole amounts, whatever sequence of create,
    update, delete and clear-pending requests runs one after the other on
    a store that starts with its games registered and no entry, the
    [totalCoins] of every registered game ends equal to the sum of
    [coinEffect(type, amountFinal)] over the entries of that game that
    still exist.  Amounts, counters and sums are integers here, as the
    host has them within 2^53; [Binary64] tells what the counters hold on
    amounts with a fractional part. *)
Theorem totalCoins_is_coin_sum (names : list string)
    (rs : list (bool * request)) (g : string) :
  g ∈ names ->
  games (run rs (initLedger names)) !! g
  = Some (coinSum g (entries (run rs (initLedger names)))).
Proof.
  intros Hin.
  destruct (run_ok rs (initLedger names) (initLedger_ok names))
    as (_ & _ & Hbal).
  assert (Hreg : is_Some (games (run rs (initLedger names)) !! g)).
  { apply run_registered. rewrite (initLedger_games names g Hin). eauto. }
  destruct Hreg as [v Hv]. rewrite Hv. f_equal. now apply Hbal.
Qed.

Ltac swallow :=
  unfold sameOutcome, recordHistory;
  repeat (cbn [negb andb fst snd entries games nextId history setGames
               setEntries];
          match goal with
          | |- context [if ?c then _ else _] => destruct c
          end);
  cbn [negb andb fst snd entries games nextId history setGames setEntries];
  repeat split; reflexivity.

(** Claim C7.  A failed history write changes neither the answer of a
    request nor the entries, the game counters or the id counter it leaves:
    create (merging or not), update, delete and clear-pending behave the
    same whether [GameEntryHistory.create] succeeds or throws; the failure
    only leaves the history as it was. *)
Theorem history_failure_is_swallowed (r : request) (st : ledger) :
  sameOutcome (step true r st) (step false r st)
  /\ (history (snd (step false r st)) = history st).
Proof.
  destruct r as [b|id payload|id|id]; cbn [step].
  - unfold createEntry.
    destruct (validateBody b) as [m|[base final]]; [split; swallow|].
    destruct (mergeApplies b);
      [destruct (findLatest _ (entries st)) as [existing|]|].
    + unfold createMerged. split; swallow.
    + unfold createNew. split; swallow.
    + unfold createNew. split; swallow.
  - unfold updateEntry.
    destruct (findById id (entries st)) as [entry|]; [|split; swallow].
    destruct (rejected ALLOWED_TYPES _); [split; swallow|].
    destruct (rejected ALLOWED_METHODS _); [split; swallow|].
    destruct (checkedAmount (Payload.amountBase payload) _) as [ab|];
      [|split; swallow].
    destruct (checkedAmount (Payload.amountFinal payload) _) as [af|];
      [|split; swallow].
    split; swallow.
  - unfold deleteEntryById.
    destruct (findById id (entries st)) as [entry|]; split; swallow.
  - unfold clearPending.
    destruct (findById id (entries st)) as [entry|]; split; swallow.
Qed.

Lemma findById_saveEntry id l e e' :
  findById id l = Some e -> Entry._id e' = id ->
  findById id (saveEntry e' l) = Some e'.
Proof.
  unfold findById, saveEntry. intros Hf <-.
  induction l as [|x l IH]; simpl in *; [discriminate|].
  destruct (Entry._id x =? Entry._id e')%nat eqn:E.
  - simpl. now rewrite Nat.eqb_refl.
  - simpl. rewrite E. now apply IH.
Qed.

Lemma saveEntry_idem e' l : saveEntry e' (saveEntry e' l) = saveEntry e' l.
Proof.
  unfold saveEntry. induction l as [|x l IH]; simpl; [reflexivity|].
  rewrite IH. f_equal.
  destruct (Entry._id x =? Entry._id e')%nat eqn:E.
  - now rewrite Nat.eqb_refl.
  - now rewrite E.
Qed.

Lemma clearedEntry_idem e : clearedEntry (clearedEntry e) = clearedEntry e.
Proof.
  unfold clearedEntry.
  destruct (Entry.type e =? "redeem")%string eqn:E1.
  - cbn [Entry.type setPending]. now rewrite E1.
  - destruct (Entry.type e =? "deposit")%string eqn:E2.
    + cbn [Entry.type setPending]. now rewrite E1, E2.
    + cbn [Entry.type setPending]. now rewrite E1, E2.
Qed.

Lemma setPending_valid rp rd p e :
  Entry.schemaValid e = true ->
  Entry.minZero rp = true -> Entry.minZero rd = true ->
  Entry.schemaValid (setPending rp rd p e) = true.
Proof.
  unfold Entry.schemaValid. intros H Hrp Hrd.
  repeat (apply andb_true_iff in H as [H ?]).
  cbn [setPending Entry.username Entry.createdBy Entry.type Entry.method
       Entry.gameName Entry.amountBase Entry.amount Entry.bonusRate
       Entry.bonusAmount Entry.amountFinal Entry.totalPaid
       Entry.totalCashout Entry.remainingPay Entry.extraMoney
       Entry.reduction].
  repeat (apply andb_true_iff; split); assumption.
Qed.

Lemma schemaValid_pending e :
  Entry.schemaValid e = true ->
  Entry.minZero (Entry.remainingPay e) = true
  /\ Entry.minZero (Entry.reduction e) = true.
Proof.
  unfold Entry.schemaValid. intros H.
  repeat (apply andb_true_iff in H as [H ?]). now split.
Qed.

Lemma clearedEntry_valid e :
  Entry.schemaValid e = true -> Entry.schemaValid (clearedEntry e) = true.
Proof.
  intros H. destruct (schemaValid_pending e H) as [Hrp Hrd].
  unfold clearedEntry.
  destruct (Entry.type e =? "redeem")%string;
    [|destruct (Entry.type e =? "deposit")%string];
    now apply setPending_valid.
Qed.

(** Claim C6.  Clearing the pending of an existing, valid entry twice
    leaves the entries, the game counters and the answer exactly as
    clearing it once: after the first call a redeem has remainingPay 0, a
    deposit has reduction 0, any other type has both at 0, isPending is
    false in every case, amountFinal is untouched and no game counter has
    moved; the second call changes nothing more. *)
Theorem clearPending_idempotent (hok1 hok2 : bool) (id : nat)
    (entry : Entry.t) (st : ledger) :
  findById id (entries st) = Some entry ->
  Entry.schemaValid entry = true ->
  let once := clearPending hok1 id st in
  let twice := clearPending hok2 id (snd once) in
  let cleared := clearedEntry entry in
  fst once = Json 200 cleared
  /\ findById id (entries (snd once)) = Some cleared
  /\ fst twice = fst once
  /\ entries (snd twice) = entries (snd once)
  /\ games (snd twice) = games (snd once)
  /\ games (snd once) = games st
  /\ Entry.amountFinal cleared = Entry.amountFinal entry
  /\ Entry.isPending cleared = false
  /\ (Entry.type entry = "redeem" ->
      Entry.remainingPay cleared = Some 0
      /\ Entry.reduction cleared = Entry.reduction entry)
  /\ (Entry.type entry = "deposit" ->
      Entry.reduction cleared = Some 0
      /\ Entry.remainingPay cleared = Entry.remainingPay entry)
  /\ (Entry.type entry <> "redeem" -> Entry.type entry <> "deposit" ->
      Entry.remainingPay cleared = Some 0
      /\ Entry.reduction cleared = Some 0).
Proof.
  intros Hf Hv once twice cleared.
  pose proof (clearedEntry_valid entry Hv) as Hv'.
  destruct (clearedEntry_same entry) as (Hid & _ & _ & Haf).
  assert (Hid' : Entry._id cleared = id)
    by (unfold cleared; rewrite Hid; now apply findById_id in Hf).
  assert (Honce : once
    = (Json 200 cleared,
       recordHistory hok1 cleared "clear-pending"
         (setEntries (saveEntry cleared (entries st)) st))).
  { unfold once, clearPending. rewrite Hf. fold cleared.
    unfold cleared at 1. now rewrite Hv'. }
  destruct (recordHistory_fields hok1 cleared "clear-pending"
              (setEntries (saveEntry cleared (entries st)) st))
    as (He1 & Hg1 & Hn1).
  assert (Hf1 : findById id (entries (snd once)) = Some cleared).
  { rewrite Honce. cbn [snd]. rewrite He1. cbn [entries setEntries].
    now apply (findById_saveEntry id _ entry). }
  assert (Htwice : twice
    = (Json 200 cleared,
       recordHistory hok2 cleared "clear-pending"
         (setEntries (saveEntry cleared (entries (snd once))) (snd once)))).
  { assert (Hidem : clearedEntry cleared = cleared)
      by apply clearedEntry_idem.
    unfold twice, clearPending. rewrite Hf1, Hidem.
    fold cleared in Hv'. now rewrite Hv'. }
  destruct (recordHistory_fields hok2 cleared "clear-pending"
              (setEntries (saveEntry cleared (entries (snd once))) (snd once)))
    as (He2 & Hg2 & Hn2).
  split; [now rewrite Honce|]. split; [exact Hf1|].
  split; [now rewrite Htwice, Honce|].
  split.
  { rewrite Htwice. cbn [snd]. rewrite He2. cbn [entries setEntries].
    rewrite Honce. cbn [snd]. rewrite He1. cbn [entries setEntries].
    apply saveEntry_idem. }
  split; [rewrite Htwice; cbn [snd]; now rewrite Hg2|].
  split; [rewrite Honce; cbn [snd]; now rewrite Hg1|].
  split; [exact Haf|].
  unfold cleared, clearedEntry.
  destruct (Entry.type entry =? "redeem")%string eqn:E1;
    [|destruct (Entry.type entry =? "deposit")%string eqn:E2].
  - apply String.eqb_eq in E1. cbn [setPending Entry.isPending
      Entry.remainingPay Entry.reduction].
    repeat split; intros; congruence.
  - apply String.eqb_eq in E2. apply String.eqb_neq in E1.
    cbn [setPending Entry.isPending Entry.remainingPay Entry.reduction].
    repeat split; intros; congruence.
  - apply String.eqb_neq in E1. apply String.eqb_neq in E2.
    cbn [setPending Entry.isPending Entry.remainingPay Entry.reduction].
    repeat split; intros; congruence.
Qed.

(** ** Creation: the merge and the default case *)

Lemma filter_snoc {A} (q : A -> bool) l x :
  List.filter q (l ++ [x])
  = (List.filter q l ++ if q x then [x] else [])%list.
Proof. rewrite List.filter_app. reflexivity. Qed.

(** [findLatest] returns the last match: nothing after it matches. *)
Lemma findLatest_split q l e :
  findLatest q l = Some e ->
  exists l1 l2, l = (l1 ++ e :: l2)%list /\ q e = true
                /\ Forall (fun x => q x = false) l2.
Proof.
  unfold findLatest. induction l as [|x l IH] using rev_ind; [discriminate|].
  rewrite filter_snoc. destruct (q x) eqn:Hq.
  - rewrite last_snoc. intros H. inversion H; subst x.
    exists l, []. repeat split; [exact Hq|constructor].
  - rewrite app_nil_r. intros H. destruct (IH H) as (l1 & l2 & -> & He & Hl2).
    exists l1, (l2 ++ [x])%list. rewrite <- app_assoc. repeat split.
    + exact He.
    + apply Forall_app. split; [exact Hl2|]. now constructor.
Qed.

Lemma saveEntry_app e' l1 l2 :
  saveEntry e' (l1 ++ l2) = (saveEntry e' l1 ++ saveEntry e' l2)%list.
Proof. unfold saveEntry. apply map_app. Qed.

Lemma saveEntry_cons e' x l :
  saveEntry e' (x :: l)
  = (if (Entry._id x =? Entry._id e')%nat then e' else x) :: saveEntry e' l.
Proof. reflexivity. Qed.

Lemma saveEntry_split e e' l1 l2 :
  NoDup (map Entry._id (l1 ++ e :: l2)) -> Entry._id e' = Entry._id e ->
  saveEntry e' (l1 ++ e :: l2) = (l1 ++ e' :: l2)%list.
Proof.
  intros Hnd Hid. rewrite map_app in Hnd. simpl in Hnd.
  apply NoDup_app in Hnd as (_ & H1 & Hnd).
  apply NoDup_cons in Hnd as (H2 & _).
  rewrite saveEntry_app, saveEntry_cons, Hid, Nat.eqb_refl.
  rewrite <- Hid in H1, H2.
  rewrite !saveEntry_fresh; [reflexivity|exact H2|].
  intros Hin. apply (H1 _ Hin). apply elem_of_cons. now left.
Qed.

Lemma validateBody_inr b base final :
  validateBody b = inr (base, final) ->
  Body.amountBase b = NFinite base /\ Body.amountFinal b = NFinite final
  /\ 0 <= base /\ 0 <= final.
Proof.
  unfold validateBody.
  repeat match goal with
         | |- context [if ?c then inl _ else _] => destruct c; [discriminate|]
         end.
  destruct (Body.amountBase b) as [| | | |vb]; try discriminate.
  cbn [toNumber]. destruct (vb <? 0) eqn:Eb; [discriminate|].
  destruct (Body.amountFinal b) as [| | | |vf]; try discriminate.
  cbn [toNumber]. destruct (vf <? 0) eqn:Ef; [discriminate|].
  intros H. inversion H; subst. apply Z.ltb_ge in Eb, Ef. now repeat split.
Qed.

Lemma mergeApplies_intro b :
  Body.type b = Some "deposit" -> cleanPlayerTag b <> "" ->
  0 < numericReduction b -> mergeApplies b = true.
Proof.
  intros Hty Htag Hred. unfold mergeApplies. rewrite Hty. cbn [default].
  apply String.eqb_neq in Htag. rewrite Htag.
  apply Z.ltb_lt in Hred. now rewrite Hred.
Qed.

(** The answer and the store of a create that merges. *)
Lemma createEntry_merge hok b base final existing st :
  validateBody b = inr (base, final) ->
  mergeApplies b = true ->
  findLatest (mergeTarget (cleanUsername b) (cleanPlayerTag b)) (entries st)
  = Some existing ->
  Entry.schemaValid (mergedEntry b base final existing) = true ->
  let merged := mergedEntry b base final existing in
  let diffDelta :=
    coinEffect (Entry.type merged) (Entry.amountFinal merged)
    - coinEffect (Entry.type existing) (Entry.amountFinal existing) in
  let st' := snd (createEntry hok b st) in
  fst (createEntry hok b st) = Json 200 merged
  /\ entries st' = saveEntry merged (entries st)
  /\ nextId st' = nextId st
  /\ history st' = history st
  /\ games st'
     = (if diffDelta =? 0 then games st
        else applyGameDelta (Entry.gameName existing) diffDelta (games st)).
Proof.
  intros Hval Happ Hfind Hv merged diffDelta st'.
  assert (Heq : createEntry hok b st
                = createMerged hok b base final existing st).
  { unfold createEntry. now rewrite Hval, Happ, Hfind. }
  unfold st'. rewrite Heq. unfold createMerged. rewrite Hv. fold merged.
  cbn [negb fst snd]. rewrite coinEffect_default. fold diffDelta.
  change (Entry.gameName merged) with (Entry.gameName existing).
  rewrite recordHistory_outside_enum by reflexivity.
  destruct (diffDelta =? 0); repeat split.
Qed.

(** The answer and the store of a create that does not merge. *)
Lemma createEntry_new hok b base final st :
  validateBody b = inr (base, final) ->
  mergeApplies b = false
  \/ findLatest (mergeTarget (cleanUsername b) (cleanPlayerTag b))
       (entries st) = None ->
  Entry.schemaValid (createdEntry b base final (nextId st)) = true ->
  let doc := createdEntry b base final (nextId st) in
  let st' := snd (createEntry hok b st) in
  fst (createEntry hok b st) = Json 201 doc
  /\ entries st' = (entries st ++ [doc])%list
  /\ nextId st' = S (nextId st).
Proof.
  intros Hval Hno Hv doc st'.
  assert (Heq : createEntry hok b st = createNew hok b base final st).
  { unfold createEntry. rewrite Hval.
    destruct Hno as [->| ->]; [reflexivity|]. now destruct (mergeApplies b). }
  unfold st'. rewrite Heq. unfold createNew. rewrite Hv. fold doc.
  cbn [negb fst snd].
  destruct (coinEffect _ _ =? 0), hok; repeat split.
Qed.

Lemma toNumber0_ofField f : toNumber0 (ofField f) = default 0 f.
Proof. now destruct f. Qed.

Lemma positive_part x : (if 0 <? x then x else 0) = Z.max x 0.
Proof. destruct (0 <? x) eqn:E; [apply Z.ltb_lt in E|apply Z.ltb_ge in E]; lia. Qed.

Lemma schemaValid_amountFinal e :
  Entry.schemaValid e = true ->
  exists a, Entry.amountFinal e = Some a /\ 0 <= a.
Proof.
  unfold Entry.schemaValid. intros H.
  repeat (apply andb_true_iff in H as [H ?]).
  destruct (Entry.amountFinal e) as [a|]; [|discriminate].
  exists a. split; [reflexivity|].
  match goal with
  | Ha : Entry.requiredMinZero (Some a) = true |- _ =>
      now apply Z.leb_le in Ha
  end.
Qed.

Lemma mergeTarget_true u t e :
  mergeTarget u t e = true ->
  Entry.username e = u /\ Entry.playerTag e = Some t
  /\ Entry.type e = "deposit".
Proof.
  unfold mergeTarget. intros H.
  apply andb_true_iff in H as [H H3]. apply andb_true_iff in H as [H1 H2].
  apply String.eqb_eq in H1, H3.
  destruct (Entry.playerTag e) as [t'|]; [|discriminate].
  apply String.eqb_eq in H2. now subst.
Qed.



(** Claim C2.  A valid create of a deposit with a non-empty playerTag and
    a positive reduction, when [existing] is the most recently created
    deposit of the same (username, playerTag), rewrites that row in place:
    amountBase, amount and amountFinal grow by the incoming values,
    totalCashout takes the incoming value only when it was absent or zero,
    extraMoney accumulates, playerName, note and date change only when
    supplied, reduction becomes max(totalCashout - amountFinal, 0) and
    isPending tells whether it is positive; the game of the row moves by
    the difference of the new and the old coin effect while every other game
    keeps its counter.  The history row the route then asks for is tagged
    update-merge, which the enum of the GameEntryHistory schema does not
    list: the write is refused and swallowed, and the history is left as it
    was whether or not the collection accepts writes. *)
Theorem deposit_merge_writes_no_history (hok : bool) (b : Body.t)
    (base final : Z) (existing : Entry.t) (st : ledger) :
  ledgerOk st ->
  validateBody b = inr (base, final) ->
  Body.type b = Some "deposit" ->
  cleanPlayerTag b <> "" ->
  0 < numericReduction b ->
  findLatest (mergeTarget (cleanUsername b) (cleanPlayerTag b)) (entries st)
  = Some existing ->
  Entry.schemaValid (mergedEntry b base final existing) = true ->
  let merged := mergedEntry b base final existing in
  let st' := snd (createEntry hok b st) in
  let diffDelta :=
    coinEffect (Entry.type merged) (Entry.amountFinal merged)
    - coinEffect (Entry.type existing) (Entry.amountFinal existing) in
  (exists l1 l2,
      entries st = (l1 ++ existing :: l2)%list
      /\ Forall (fun x => mergeTarget (cleanUsername b) (cleanPlayerTag b) x
                          = false) l2
      /\ entries st' = (l1 ++ merged :: l2)%list)
  /\ (Entry.username existing = cleanUsername b
      /\ Entry.playerTag existing = Some (cleanPlayerTag b)
      /\ Entry.type existing = "deposit")
  /\ fst (createEntry hok b st) = Json 200 merged
  /\ (Body.amountBase b = NFinite base /\ Body.amountFinal b = NFinite final)
  /\ Entry.amountBase merged
     = Some (default 0 (Entry.amountBase existing) + base)
  /\ Entry.amount merged
     = Some (default 0 (Entry.amount existing) + incomingAmount b final)
  /\ Entry.amountFinal merged
     = Some (default 0 (Entry.amountFinal existing) + final)
  /\ Entry.totalCashout merged
     = (if default 0 (Entry.totalCashout existing) =? 0
        then Some (incomingTotalCashout b)
        else Entry.totalCashout existing)
  /\ Entry.extraMoney merged
     = Some (default 0 (Entry.extraMoney existing) + incomingExtraMoney b)
  /\ Entry.playerName merged
     = match Body.playerName b with
       | Some p => trim p
       | None => Entry.playerName existing
       end
  /\ Entry.note merged
     = match Body.note b with
       | Some n => trim n
       | None => Entry.note existing
       end
  /\ Entry.date merged
     = match Body.date b with
       | Some d => normalizeDateString (Some d)
       | None => Entry.date existing
       end
  /\ Entry.reduction merged
     = Some (Z.max (default 0 (Entry.totalCashout merged)
                    - default 0 (Entry.amountFinal merged)) 0)
  /\ Entry.isPending merged = (0 <? default 0 (Entry.reduction merged))
  /\ includes HISTORY_ACTION_ENUM "update-merge" = false
  /\ history st' = history st
  /\ forall g,
       games st' !! g
       = (fun v => if (Entry.gameName existing =? g)%string
                   then v + diffDelta else v) <$> games st !! g.
Proof.
  intros Hok Hval Hty Htag Hred Hfind Hv merged st' diffDelta.
  pose proof (mergeApplies_intro b Hty Htag Hred) as Happ.
  destruct (createEntry_merge hok b base final existing st Hval Happ Hfind Hv)
    as (Hres & Hent & _ & Hhist & Hgames).
  fold merged in Hres, Hent, Hhist, Hgames. fold st' in Hent, Hhist, Hgames.
  fold diffDelta in Hgames.
  destruct (findLatest_split _ _ _ Hfind) as (l1 & l2 & Hl & Hq & Hl2).
  apply mergeTarget_true in Hq as Hpair. destruct Hpair as (Hu & Ht & Hd).
  assert (Hin : existing ∈ entries st).
  { rewrite Hl. apply elem_of_app. right. apply elem_of_cons. now left. }
  assert (Hst : storedOk (nextId st) existing).
  { destruct Hok as (_ & Hall & _). rewrite Forall_forall in Hall.
    now apply Hall. }
  destruct Hst as (_ & Hv0 & Htrim).
  destruct (validateBody_inr b base final Hval) as (Hb & Hf & _).
  split.
  { exists l1, l2. split; [exact Hl|]. split; [exact Hl2|].
    rewrite Hent, Hl. apply saveEntry_split; [|reflexivity].
    rewrite <- Hl. apply Hok. }
  split; [now repeat split|]. split; [exact Hres|]. split; [now split|].
  split; [unfold merged, mergedEntry, mergeDeposit; cbn [Entry.amountBase];
          now rewrite toNumber0_ofField|].
  split; [unfold merged, mergedEntry, mergeDeposit; cbn [Entry.amount];
          now rewrite toNumber0_ofField|].
  split; [reflexivity|].
  split; [unfold merged, mergedEntry, mergeDeposit; cbn [Entry.totalCashout];
          now destruct (Entry.totalCashout existing)|].
  split; [unfold merged, mergedEntry, mergeDeposit; cbn [Entry.extraMoney];
          now rewrite toNumber0_ofField|].
  split; [reflexivity|]. split; [reflexivity|]. split; [reflexivity|].
  split.
  { unfold merged, mergedEntry, mergeDeposit.
    cbn [Entry.reduction Entry.totalCashout Entry.amountFinal].
    rewrite positive_part, !toNumber0_ofField. reflexivity. }
  split; [reflexivity|]. split; [reflexivity|]. split; [exact Hhist|].
  intros g. rewrite Hgames.
  destruct (diffDelta =? 0) eqn:E.
  - apply Z.eqb_eq in E. rewrite E.
    destruct (games st !! g) as [v|]; [|reflexivity]. simpl. f_equal.
    destruct (Entry.gameName existing =? g)%string; lia.
  - apply applyGameDelta_lookup; [exact Htrim|].
    now apply schemaValid_gameName.
Qed.


Lemma toNumber0_cases n :
  toNumber0 n = match n with NFinite v => v | _ => 0 end.
Proof. now destruct n. Qed.

(** Claim C9.  A valid create that does not merge, of whatever type,
    stores the reduction the caller sent (0 when it is absent or not a
    finite number) and the boolean coercion of the caller's isPending;
    neither is derived from the other fields of the request. *)
Theorem create_keeps_caller_pending (hok : bool) (b : Body.t)
    (base final : Z) (st : ledger) :
  validateBody b = inr (base, final) ->
  mergeApplies b = false
  \/ findLatest (mergeTarget (cleanUsername b) (cleanPlayerTag b))
       (entries st) = None ->
  Entry.schemaValid (createdEntry b base final (nextId st)) = true ->
  let doc := createdEntry b base final (nextId st) in
  fst (createEntry hok b st) = Json 201 doc
  /\ entries (snd (createEntry hok b st)) = (entries st ++ [doc])%list
  /\ Entry.type doc = default "" (Body.type b)
  /\ Entry.reduction doc
     = Some (match Body.reduction b with NFinite r => r | _ => 0 end)
  /\ Entry.isPending doc = truthy (Body.isPending b).
Proof.
  intros Hval Hno Hv doc.
  destruct (createEntry_new hok b base final st Hval Hno Hv)
    as (Hres & Hent & _).
  split; [exact Hres|]. split; [exact Hent|]. split; [reflexivity|].
  split; [|reflexivity].
  unfold doc, createdEntry, newEntry, numericReduction.
  cbn [Entry.reduction]. now rewrite toNumber0_cases.
Qed.

(** ** The pending resolver *)

Lemma buildTagMap_snoc docs e :
  buildTagMap (docs ++ [e]) = tagMapStep (buildTagMap docs) e.
Proof. unfold buildTagMap. now rewrite fold_left_app. Qed.

Lemma buildTagMap_NoDup docs : NoDup (map fst (buildTagMap docs)).
Proof.
  induction docs as [|e docs IH] using rev_ind.
  - apply NoDup_nil_2.
  - rewrite buildTagMap_snoc. unfold tagMapStep. now apply mapSet_NoDup.
Qed.

(** The map holds, under each key met, the group folded from the
    documents of that key, in their order. *)
Lemma buildTagMap_get k docs :
  mapGet k (buildTagMap docs)
  = match List.filter (fun e => (pendingKey e =? k)%string) docs with
    | [] => None
    | _ => Some (groupOf k docs)
    end.
Proof.
  unfold groupOf. induction docs as [|e docs IH] using rev_ind;
    [reflexivity|].
  rewrite buildTagMap_snoc, filter_snoc. unfold tagMapStep.
  destruct (pendingKey e =? k)%string eqn:E.
  - apply String.eqb_eq in E. subst k. rewrite mapGet_mapSet_eq, IH.
    rewrite fold_left_app. cbn [fold_left].
    destruct (List.filter _ docs); reflexivity.
  - apply String.eqb_neq in E. rewrite mapGet_mapSet_ne by exact E.
    now rewrite IH, app_nil_r.
Qed.

Lemma buildTagMap_elem_of k g docs :
  (k, g) ∈ buildTagMap docs -> g = groupOf k docs.
Proof.
  intros Hin. apply mapGet_elem_of in Hin; [|apply buildTagMap_NoDup].
  rewrite buildTagMap_get in Hin.
  destruct (List.filter _ docs); congruence.
Qed.

(** The two documents a fold keeps are the last redeem and the last
    deposit it met. *)
Lemma fold_groupStep l g0 :
  Group.lastDeposit (fold_left groupStep l g0)
  = match last (List.filter (fun e => (Entry.type e =? "deposit")%string) l)
    with
    | Some d => Some d
    | None => Group.lastDeposit g0
    end
  /\ Group.lastRedeem (fold_left groupStep l g0)
     = match last (List.filter (fun e => (Entry.type e =? "redeem")%string) l)
       with
       | Some r => Some r
       | None => Group.lastRedeem g0
       end.
Proof.
  induction l as [|e l IH] using rev_ind; [now split|].
  rewrite fold_left_app, !filter_snoc. cbn [fold_left]. unfold groupStep at 1 3.
  destruct IH as [IHd IHr].
  destruct (Entry.type e =? "redeem")%string eqn:Er.
  - apply String.eqb_eq in Er. rewrite Er. cbn [String.eqb Ascii.eqb Bool.eqb].
    rewrite app_nil_r, last_snoc. cbn [Group.lastDeposit Group.lastRedeem].
    now split.
  - destruct (Entry.type e =? "deposit")%string eqn:Ed.
    + rewrite app_nil_r, last_snoc.
      cbn [Group.lastDeposit Group.lastRedeem]. now split.
    + rewrite !app_nil_r. now split.
Qed.

Lemma last_filter_elem_of {A} (q : A -> bool) l x :
  last (List.filter q l) = Some x -> x ∈ l /\ q x = true.
Proof.
  intros H. apply last_Some_elem_of in H. apply list_elem_of_In in H.
  apply filter_In in H as [H1 H2]. split; [now apply list_elem_of_In|exact H2].
Qed.

(** The documents a group of key [k] keeps carry the key [k]. *)
Lemma groupOf_keys k docs :
  (forall d, Group.lastDeposit (groupOf k docs) = Some d ->
     pendingKey d = k /\ d ∈ docs /\ Entry.type d = "deposit")
  /\ (forall r, Group.lastRedeem (groupOf k docs) = Some r ->
        pendingKey r = k /\ r ∈ docs /\ Entry.type r = "redeem").
Proof.
  unfold groupOf.
  destruct (fold_groupStep
              (List.filter (fun e => (pendingKey e =? k)%string) docs)
              (Group.mk None None)) as [-> ->].
  cbn [Group.lastDeposit Group.lastRedeem]. split; intros x H.
  - destruct (last _) as [d|] eqn:E; [|discriminate]. inversion H; subst d.
    apply last_filter_elem_of in E as [E Hty].
    apply list_elem_of_In, filter_In in E as [E Hk].
    apply String.eqb_eq in Hk, Hty. now rewrite list_elem_of_In.
  - destruct (last _) as [d|] eqn:E; [|discriminate]. inversion H; subst d.
    apply last_filter_elem_of in E as [E Hty].
    apply list_elem_of_In, filter_In in E as [E Hk].
    apply String.eqb_eq in Hk, Hty. now rewrite list_elem_of_In.
Qed.

Lemma pendingRow_key baseDoc a b :
  rowKey (pendingRow baseDoc a b) = pendingKey baseDoc.
Proof. reflexivity. Qed.

Lemma resolveGroup_key k docs r :
  resolveGroup (groupOf k docs) = Some r -> rowKey r = k.
Proof.
  destruct (groupOf_keys k docs) as [Hd Hr]. unfold resolveGroup.
  destruct (Group.lastDeposit (groupOf k docs)) as [d|].
  - destruct (Hd d eq_refl) as (Hk & _ & _).
    destruct (_ <=? 0); [discriminate|]. intros H. inversion H.
    now rewrite pendingRow_key.
  - destruct (Group.lastRedeem (groupOf k docs)) as [x|]; [|discriminate].
    destruct (Hr x eq_refl) as (Hk & _ & _).
    destruct (Entry.isPending x); [|discriminate].
    destruct (_ <=? 0); [discriminate|]. intros H. inversion H.
    now rewrite pendingRow_key.
Qed.

Lemma omap_keys_sublist {V R} (f : V -> option R) (key : R -> string)
    (m : list (string * V)) :
  (forall k g r, (k, g) ∈ m -> f g = Some r -> key r = k) ->
  map key (omap f (map snd m)) `sublist_of` map fst m.
Proof.
  induction m as [|[k g] m IH]; intros H; simpl; [constructor|].
  assert (IH' : map key (omap f (map snd m)) `sublist_of` map fst m).
  { apply IH. intros k' g' r Hin. apply H. apply elem_of_cons. now right. }
  destruct (f g) as [r|] eqn:E; simpl.
  - rewrite (H k g r); [now constructor| |exact E].
    apply elem_of_cons. now left.
  - now constructor.
Qed.

Lemma resolvePending_NoDup docs : NoDup (map rowKey (resolvePending docs)).
Proof.
  unfold resolvePending.
  eapply sublist_NoDup; [apply (buildTagMap_NoDup docs)|].
  apply omap_keys_sublist. intros k g r Hin Hr.
  apply buildTagMap_elem_of in Hin. subst g. now apply resolveGroup_key in Hr.
Qed.




Lemma mapGet_Some_elem_of {V} k (g : V) m : mapGet k m = Some g -> (k, g) ∈ m.
Proof.
  unfold mapGet. destruct (find _ m) as [[k' g']|] eqn:E; [|discriminate].
  simpl. intros H. inversion H; subst g'. apply find_some in E as [Hin Hk].
  simpl in Hk. apply String.eqb_eq in Hk. subst k'.
  now apply list_elem_of_In.
Qed.

(** The rows of the list are the rows of the groups, one group for each
    key met among the documents. *)
Lemma resolvePending_spec docs r :
  r ∈ resolvePending docs
  <-> exists k, (exists e, e ∈ docs /\ pendingKey e = k)
                /\ resolveGroup (groupOf k docs) = Some r.
Proof.
  unfold resolvePending. rewrite list_elem_of_omap. split.
  - intros (g & Hg & Hr). apply list_elem_of_fmap in Hg as ([k g'] & -> & Hin).
    simpl in Hr. pose proof (mapGet_elem_of k g' _ (buildTagMap_NoDup docs) Hin)
      as Hget.
    apply buildTagMap_elem_of in Hin. subst g'.
    exists k. split; [|exact Hr]. rewrite buildTagMap_get in Hget.
    destruct (List.filter _ docs) as [|e l] eqn:E; [discriminate|].
    assert (He : In e (List.filter (fun e => (pendingKey e =? k)%string) docs))
      by (rewrite E; now left).
    apply filter_In in He as [He Hk]. apply String.eqb_eq in Hk.
    exists e. split; [now apply list_elem_of_In|exact Hk].
  - intros (k & (e & He & Hk) & Hr). exists (groupOf k docs).
    split; [|exact Hr]. apply list_elem_of_fmap. exists (k, groupOf k docs).
    split; [reflexivity|]. apply mapGet_Some_elem_of.
    rewrite buildTagMap_get.
    destruct (List.filter _ docs) as [|x l] eqn:E; [|reflexivity].
    assert (Hin : In e (List.filter (fun e => (pendingKey e =? k)%string) docs)).
    { apply filter_In. split; [now apply list_elem_of_In|].
      now apply String.eqb_eq. }
    rewrite E in Hin. destruct Hin.
Qed.


(** *** Grouping by the pair, as the specification words it *)

Lemma filter_ext_in {A} (p q : A -> bool) l :
  (forall x, x ∈ l -> p x = q x) -> List.filter p l = List.filter q l.
Proof.
  induction l as [|x l IH]; intros H; simpl; [reflexivity|].
  rewrite (H x) by (apply elem_of_cons; now left).
  rewrite IH; [reflexivity|]. intros y Hy. apply H. apply elem_of_cons.
  now right.
Qed.

Lemma samePair_key u t e : samePair u t e = true -> pendingKey e = u +:+ "::" +:+ t.
Proof.
  unfold samePair, pendingKey. intros H. apply andb_true_iff in H as [H1 H2].
  apply String.eqb_eq in H1, H2. now rewrite H1, H2.
Qed.

(** Where no other pair shares the key of (u, t), the group of that key is
    the group of the pair: the latest deposit decides, whatever its
    reduction, else the latest redeem when it is pending, and a resolved
    amount that is not positive gives no row. *)
Lemma resolveGroup_by_pair u t docs :
  (forall e, e ∈ docs -> pendingKey e = u +:+ "::" +:+ t ->
     samePair u t e = true) ->
  resolveGroup (groupOf (u +:+ "::" +:+ t) docs) = resolvePair u t docs.
Proof.
  intros H. unfold resolvePair, groupOf. f_equal. f_equal.
  apply filter_ext_in. intros e He.
  destruct (samePair u t e) eqn:E.
  - apply String.eqb_eq. now apply samePair_key.
  - apply String.eqb_neq. intros Hk. rewrite (H e He Hk) in E. discriminate.
Qed.

Lemma append_inj_l (u x y : string) : u +:+ x = u +:+ y -> x = y.
Proof.
  induction u as [|a u IH]; simpl; intros H; [exact H|].
  inversion H. now apply IH.
Qed.

(** Under a username scope the key is faithful to the pair. *)
Lemma scoped_keys_faithful u t docs :
  Forall (fun e => Entry.username e = u) docs ->
  forall e, e ∈ docs -> pendingKey e = u +:+ "::" +:+ t ->
            samePair u t e = true.
Proof.
  intros Hall e He Hk. rewrite Forall_forall in Hall.
  pose proof (Hall e He) as Hu. unfold pendingKey in Hk. rewrite Hu in Hk.
  apply append_inj_l, append_inj_l in Hk.
  unfold samePair. rewrite Hu, Hk, !String.eqb_refl. reflexivity.
Qed.

(** The rule of a group, spelled out on its latest deposit and its latest
    redeem. *)
Lemma resolvePair_rule u t docs :
  let own := List.filter (samePair u t) docs in
  resolvePair u t docs
  = match last (List.filter (fun e => (Entry.type e =? "deposit")%string) own)
    with
    | Some d =>
        if default 0 (Entry.reduction d) <=? 0 then None
        else Some (pendingRow d (default 0 (Entry.reduction d))
                     (default 0 (Entry.reduction d)))
    | None =>
        match last (List.filter
                      (fun e => (Entry.type e =? "redeem")%string) own) with
        | Some r =>
            if Entry.isPending r then
              if redeemPending r <=? 0 then None
              else Some (pendingRow r (redeemPending r) 0)
            else None
        | None => None
        end
    end.
Proof.
  intros own. unfold resolvePair, resolveGroup. fold own.
  destruct (fold_groupStep own (Group.mk None None)) as [-> ->].
  cbn [Group.lastDeposit Group.lastRedeem].
  destruct (last (List.filter _ own)) as [d|].
  - now rewrite toNumber0_ofField.
  - now destruct (last (List.filter _ own)).
Qed.

(** Under a username scope /pending is the resolver of each pair of that
    user: the rows listed are the rows of the pairs met. *)
Lemma listPending_scoped_by_pair username st r :
  blank username = false ->
  let u := trim (default "" username) in
  let docs :=
    List.filter (fun e => redeemOrDeposit e && usernameClause username e)
      (entries st) in
  r ∈ listPending username st
  <-> exists t, (exists e, e ∈ docs /\ samePair u t e = true)
                /\ resolvePair u t docs = Some r.
Proof.
  intros Hb u docs. unfold listPending. fold docs.
  assert (Hall : Forall (fun e => Entry.username e = u) docs).
  { apply Forall_forall. intros e He. apply list_elem_of_In in He.
    unfold docs in He. apply filter_In in He as [_ He].
    apply andb_true_iff in He as [_ He]. unfold usernameClause in He.
    rewrite Hb in He. now apply String.eqb_eq in He. }
  rewrite resolvePending_spec. split.
  - intros (k & (e & He & Hk) & Hr).
    exists (default "" (Entry.playerTag e)).
    assert (Hu : Entry.username e = u)
      by (rewrite Forall_forall in Hall; now apply Hall).
    assert (Hk' : k = u +:+ "::" +:+ default "" (Entry.playerTag e))
      by (rewrite <- Hk; unfold pendingKey; now rewrite Hu).
    split.
    + exists e. split; [exact He|]. unfold samePair.
      now rewrite Hu, !String.eqb_refl.
    + rewrite <- Hr, Hk'. symmetry. apply resolveGroup_by_pair.
      now apply scoped_keys_faithful.
  - intros (t & (e & He & Hp) & Hr). exists (u +:+ "::" +:+ t). split.
    + exists e. split; [exact He|]. now apply samePair_key.
    + rewrite <- Hr. apply resolveGroup_by_pair.
      now apply scoped_keys_faithful.
Qed.

(** *** The lookup by tag *)

Lemma filter_filter_and {A} (p q : A -> bool) l :
  List.filter p (List.filter q l) = List.filter (fun x => q x && p x) l.
Proof.
  induction l as [|x l IH]; simpl; [reflexivity|].
  destruct (q x); simpl; [|exact IH]. destruct (p x); now rewrite IH.
Qed.

Lemma tagMatch_split u t e :
  t <> "" -> tagMatch u t e = selfPending e && samePair u t e.
Proof.
  intros Ht. unfold tagMatch, selfPending, samePair.
  set (sp := _ || _).
  destruct (Entry.playerTag e) as [t'|].
  - change (default "" (Some t')) with t'.
    destruct (Entry.username e =? u)%string, (t' =? t)%string, sp;
      reflexivity.
  - change (default "" (@None string)) with "".
    assert (E : ("" =? t)%string = false)
      by (apply String.eqb_neq; congruence).
    rewrite E. destruct (Entry.username e =? u)%string, sp; reflexivity.
Qed.

Lemma tagStep_groupStep acc e :
  selfPending e = true -> tagStep acc e = groupStep acc e.
Proof.
  unfold selfPending, tagStep, groupStep, positiveReduction.
  rewrite toNumber0_ofField.
  destruct (Entry.type e =? "redeem")%string eqn:Er.
  - apply String.eqb_eq in Er. rewrite Er.
    change ("redeem" =? "deposit")%string with false.
    destruct (Entry.isPending e); [reflexivity|discriminate].
  - destruct (Entry.type e =? "deposit")%string; [|discriminate].
    destruct (Entry.reduction e) as [r|]; [|discriminate].
    change (default 0 (Some r)) with r.
    destruct (0 <? r); [reflexivity|discriminate].
Qed.

Lemma fold_tagStep l : forall acc,
  Forall (fun e => selfPending e = true) l ->
  fold_left tagStep l acc = fold_left groupStep l acc.
Proof.
  induction l as [|e l IH]; intros acc H; [reflexivity|].
  apply Forall_cons in H as [He Hl]. cbn [fold_left].
  rewrite (tagStep_groupStep acc e He). now apply IH.
Qed.

(** Claim C4, amended.  For a non-blank tag and username, /pending-by-tag
    answers with the amount the resolver of /pending gives for that pair
    once the pair is cut down to the rows that are pending by themselves
    (redeems flagged pending, deposits with a positive reduction), rows
    carrying remainingPay as the routes write them; it answers 404 exactly
    when that cut-down group resolves to no positive amount.  A latest
    deposit with reduction 0 is therefore skipped, not obeyed. *)
Theorem pendingByTag_resolves_self_pending_rows
    (playerTag username : option string) (st : ledger) :
  let cleanTag := trim (default "" playerTag) in
  let cleanUser := trim (default "" username) in
  cleanTag <> "" -> cleanUser <> "" ->
  Forall (fun e => is_Some (Entry.remainingPay e)) (entries st) ->
  lookupAmount (pendingByTag playerTag username st)
  = rowAmount
      (resolvePair cleanUser cleanTag
         (List.filter selfPending (entries st))).
Proof.
  intros cleanTag cleanUser Ht Hu Hrp.
  unfold pendingByTag. fold cleanTag cleanUser.
  apply String.eqb_neq in Ht as Ht', Hu as Hu'. rewrite Ht', Hu'. cbn [orb].
  assert (Hdocs : List.filter (tagMatch cleanUser cleanTag) (entries st)
                  = List.filter (samePair cleanUser cleanTag)
                      (List.filter selfPending (entries st))).
  { rewrite filter_filter_and. apply filter_ext_in. intros e _.
    now apply tagMatch_split. }
  unfold resolvePair. rewrite <- Hdocs.
  set (docs := List.filter (tagMatch cleanUser cleanTag) (entries st)).
  assert (Hself : Forall (fun e => selfPending e = true) docs).
  { apply Forall_forall. intros e He. apply list_elem_of_In in He.
    unfold docs in He. apply filter_In in He as [_ He].
    rewrite tagMatch_split in He by exact Ht.
    now apply andb_true_iff in He as [He _]. }
  assert (Hin : forall e, e ∈ docs -> is_Some (Entry.remainingPay e)).
  { intros e He. rewrite Forall_forall in Hrp. apply Hrp.
    apply list_elem_of_In in He. unfold docs in He.
    apply filter_In in He as [He _]. now apply list_elem_of_In. }
  rewrite (fold_tagStep docs _ Hself).
  destruct (fold_groupStep docs (Group.mk None None)) as [Hd Hr].
  cbn [Group.lastDeposit Group.lastRedeem] in Hd, Hr.
  unfold resolveGroup.
  destruct docs as [|e0 docs'] eqn:Edocs; [reflexivity|].
  rewrite <- Edocs in *. clear Edocs.
  destruct (Group.lastDeposit (fold_left groupStep docs _)) as [d|].
  - destruct (_ <=? 0); reflexivity.
  - destruct (Group.lastRedeem (fold_left groupStep docs _)) as [r|];
      [|reflexivity].
    destruct (last (List.filter _ docs)) as [d|]; [discriminate|].
    destruct (last (List.filter (fun e => (Entry.type e =? "redeem")%string)
                      docs)) as [r'|] eqn:El; [|discriminate].
    inversion Hr; subst r'. apply last_filter_elem_of in El as [Hrin Hty].
    rewrite Forall_forall in Hself. pose proof (Hself r Hrin) as Hsp.
    unfold selfPending in Hsp. rewrite Hty in Hsp. cbn [andb] in Hsp.
    apply String.eqb_eq in Hty. rewrite Hty in Hsp.
    cbn [String.eqb Ascii.eqb Bool.eqb andb orb] in Hsp.
    rewrite orb_false_r in Hsp. rewrite Hsp.
    destruct (Hin r Hrin) as [rp Hrp']. unfold redeemPending.
    rewrite Hrp'. change (default _ (Some rp)) with rp.
    destruct (rp <=? 0); reflexivity.
Qed.

(** ** The summary *)

Lemma groupSum_snoc key val docs e :
  groupSum key val (docs ++ [e])
  = mapSet (key e)
      (default 0 (mapGet (key e) (groupSum key val docs)) + val e)
      (groupSum key val docs).
Proof. unfold groupSum. now rewrite fold_left_app. Qed.

Lemma groupSum_NoDup key val docs : NoDup (map fst (groupSum key val docs)).
Proof.
  induction docs as [|e docs IH] using rev_ind.
  - apply NoDup_nil_2.
  - rewrite groupSum_snoc. now apply mapSet_NoDup.
Qed.

(** A [$group] row carries the sum over the documents of its key. *)
Lemma groupSum_get key val docs k :
  mapGet k (groupSum key val docs)
  = match List.filter (fun e => (key e =? k)%string) docs with
    | [] => None
    | l => Some (sumZ val l)
    end.
Proof.
  induction docs as [|e docs IH] using rev_ind; [reflexivity|].
  rewrite groupSum_snoc, filter_snoc.
  destruct (key e =? k)%string eqn:E.
  - apply String.eqb_eq in E. subst k. rewrite mapGet_mapSet_eq, IH.
    destruct (List.filter _ docs) as [|x l].
    + simpl. f_equal. lia.
    + cbn [app]. f_equal. change (x :: (l ++ [e])%list) with ((x :: l) ++ [e])%list.
      rewrite sumZ_app. simpl. lia.
  - apply String.eqb_neq in E. rewrite mapGet_mapSet_ne by exact E.
    now rewrite IH, app_nil_r.
Qed.

Lemma mapGet_not_elem_of {V} k (m : list (string * V)) :
  k ∉ map fst m -> mapGet k m = None.
Proof.
  unfold mapGet. induction m as [|[k0 v0] m IH]; simpl; [reflexivity|].
  intros H. apply not_elem_of_cons in H as [Hne Hm].
  destruct (k0 =? k)%string eqn:E.
  - apply String.eqb_eq in E. congruence.
  - now apply IH.
Qed.

Lemma pickTotal_fold k (m : list (string * Z)) : forall acc,
  NoDup (map fst m) ->
  fold_left (fun total t => if (fst t =? k)%string then snd t else total)
    m acc
  = default acc (mapGet k m).
Proof.
  induction m as [|[k0 v0] m IH]; intros acc Hnd; [reflexivity|].
  simpl in Hnd. apply NoDup_cons in Hnd as [Hk Hnd].
  cbn [fold_left fst snd]. rewrite (IH _ Hnd). unfold mapGet. cbn [find fst].
  destruct (k0 =? k)%string eqn:E.
  - apply String.eqb_eq in E. subst k0.
    pose proof (mapGet_not_elem_of k m Hk) as Hn. unfold mapGet in Hn.
    rewrite Hn. reflexivity.
  - reflexivity.
Qed.

Lemma pickTotal_groupSum key val docs k :
  pickTotal k (groupSum key val docs)
  = sumZ val (List.filter (fun e => (key e =? k)%string) docs).
Proof.
  unfold pickTotal. rewrite pickTotal_fold by apply groupSum_NoDup.
  rewrite groupSum_get. now destruct (List.filter _ docs).
Qed.

Lemma sumZ_ext_in {A} (f g : A -> Z) l :
  (forall x, x ∈ l -> f x = g x) -> sumZ f l = sumZ g l.
Proof.
  induction l as [|x l IH]; intros H; simpl; [reflexivity|].
  rewrite (H x) by (apply elem_of_cons; now left).
  rewrite IH; [reflexivity|]. intros y Hy. apply H. apply elem_of_cons.
  now right.
Qed.

Lemma byType_other t docs :
  t <> "deposit" ->
  sumZ byTypeAmount (List.filter (fun e => (Entry.type e =? t)%string) docs)
  = sumZ coinAmount (List.filter (fun e => (Entry.type e =? t)%string) docs).
Proof.
  intros Ht. apply sumZ_ext_in. intros e He.
  apply list_elem_of_In, filter_In in He as [_ He].
  apply String.eqb_eq in He. unfold byTypeAmount, coinAmount.
  apply String.eqb_neq in Ht. rewrite String.eqb_sym in Ht.
  rewrite He. rewrite String.eqb_sym. now rewrite Ht.
Qed.

Lemma byType_deposit docs :
  sumZ byTypeAmount
    (List.filter (fun e => (Entry.type e =? "deposit")%string) docs)
  = sumZ (fun e => default 0 (Entry.amountFinal e))
      (List.filter (fun e => (Entry.type e =? "deposit")%string) docs).
Proof.
  apply sumZ_ext_in. intros e He.
  apply list_elem_of_In, filter_In in He as [_ He].
  unfold byTypeAmount. now rewrite He.
Qed.

Lemma summary_deposit_total (matchDoc : Entry.t -> bool) st :
  Summary.totalDeposit (summary matchDoc st)
  = sumZ (fun e => default 0 (Entry.amountFinal e))
      (List.filter (fun e => (Entry.type e =? "deposit")%string)
         (List.filter matchDoc (entries st))).
Proof.
  unfold summary. cbn [Summary.totalDeposit].
  rewrite pickTotal_groupSum. apply byType_deposit.
Qed.

(** Claim C5, amended.  Over the documents a scope selects, totalFreeplay,
    totalPlayedGame and totalRedeem are the sums, by type, of amountFinal
    with amount and then 0 as fallbacks; totalDeposit is the sum of
    amountFinal with 0 as its only fallback; and totalCoin is totalRedeem
    minus the three others. *)
Theorem summary_totals_by_type (matchDoc : Entry.t -> bool) (st : ledger) :
  let s := summary matchDoc st in
  let scope := List.filter matchDoc (entries st) in
  let ofType t := List.filter (fun e => (Entry.type e =? t)%string) scope in
  Summary.totalFreeplay s = sumZ coinAmount (ofType "freeplay")
  /\ Summary.totalPlayedGame s = sumZ coinAmount (ofType "playedgame")
  /\ Summary.totalRedeem s = sumZ coinAmount (ofType "redeem")
  /\ Summary.totalDeposit s
     = sumZ (fun e => default 0 (Entry.amountFinal e)) (ofType "deposit")
  /\ Summary.totalCoin s
     = Summary.totalRedeem s
       - (Summary.totalFreeplay s + Summary.totalPlayedGame s
          + Summary.totalDeposit s).
Proof.
  intros s scope ofType. unfold s, summary.
  cbn [Summary.totalFreeplay Summary.totalPlayedGame Summary.totalRedeem
       Summary.totalDeposit Summary.totalCoin].
  fold scope. rewrite !pickTotal_groupSum.
  repeat split.
  - now apply byType_other.
  - now apply byType_other.
  - now apply byType_other.
  - apply byType_deposit.
Qed.

(** On documents that all carry amountFinal, as the schema requires, the
    deposit total is the sum with the fallbacks too. *)
Lemma deposit_total_with_amountFinal (matchDoc : Entry.t -> bool) st :
  Forall (fun e => is_Some (Entry.amountFinal e)) (entries st) ->
  Summary.totalDeposit (summary matchDoc st)
  = sumZ coinAmount
      (List.filter (fun e => (Entry.type e =? "deposit")%string)
         (List.filter matchDoc (entries st))).
Proof.
  intros Hall. rewrite summary_deposit_total.
  apply sumZ_ext_in. intros e He.
  apply list_elem_of_In, filter_In in He as [He _].
  apply filter_In in He as [He _]. rewrite Forall_forall in Hall.
  destruct (Hall e) as [a Ha]; [now apply list_elem_of_In|].
  unfold coinAmount. now rewrite Ha.
Qed.

(** ** Further properties of the routes *)

(** *** One request *)

Lemma recordHistory_recorded hok e a st :
  includes HISTORY_ACTION_ENUM a = true ->
  recorded hok (History.mk (Entry._id e) a e) st (recordHistory hok e a st).
Proof.
  intros Ha. unfold recorded. rewrite recordHistory_inside_enum by exact Ha.
  now destruct hok.
Qed.

Lemma guarded_delta_history st n d :
  history (if d =? 0 then st
           else setGames (applyGameDelta n d (games st)) st) = history st.
Proof. now destruct (d =? 0). Qed.

Lemma recorded_guarded hok h st st1 n d :
  recorded hok h st st1 ->
  recorded hok h st
    (if d =? 0 then st1 else setGames (applyGameDelta n d (games st1)) st1).
Proof. unfold recorded. now rewrite guarded_delta_history. Qed.

Lemma createNew_outcome hok b base final st :
  outcome hok st (CreateEntry b) (fst (createNew hok b base final st))
    (snd (createNew hok b base final st)).
Proof.
  unfold createNew.
  destruct (Entry.schemaValid (createdEntry b base final (nextId st))) eqn:Hv;
    cbn [negb fst snd]; [|apply Refused; auto].
  set (doc := createdEntry b base final (nextId st)) in *.
  set (st1 := mkLedger (entries st ++ [doc]) (games st) (history st)
                (S (nextId st))).
  destruct (recordHistory_fields hok doc "create" st1) as (He & _ & Hn).
  destruct (guarded_delta_entries (recordHistory hok doc "create" st1)
              (Entry.gameName doc)
              (coinEffect (Entry.type doc) (Entry.amountFinal doc)))
    as (He' & Hn' & _).
  apply Inserted.
  - reflexivity.
  - reflexivity.
  - exact Hv.
  - now rewrite He', He.
  - now rewrite Hn', Hn.
  - apply recorded_guarded.
    pose proof (recordHistory_recorded hok doc "create" st1 eq_refl) as H.
    unfold recorded in *. exact H.
Qed.

Lemma createMerged_outcome hok b base final existing st :
  existing ∈ entries st ->
  outcome hok st (CreateEntry b)
    (fst (createMerged hok b base final existing st))
    (snd (createMerged hok b base final existing st)).
Proof.
  intros Hin. unfold createMerged.
  destruct (Entry.schemaValid (mergedEntry b base final existing)) eqn:Hv;
    cbn [negb fst snd]; [|apply Refused; auto].
  set (merged := mergedEntry b base final existing) in *.
  set (st1 := setEntries (saveEntry merged (entries st)) st).
  destruct (recordHistory_fields hok merged "update-merge" st1)
    as (He & _ & Hn).
  set (st2 := recordHistory hok merged "update-merge" st1) in *.
  match goal with
  | |- outcome _ _ _ _ (if ?d =? 0 then _ else _) =>
      destruct (guarded_delta_entries st2 (Entry.gameName merged) d)
        as (He' & Hn' & _)
  end.
  apply (Merged hok st b existing merged).
  - exact Hin.
  - reflexivity.
  - reflexivity.
  - exact Hv.
  - now rewrite He', He.
  - now rewrite Hn', Hn.
  - rewrite guarded_delta_history. unfold st2.
    now rewrite recordHistory_outside_enum.
Qed.

(** Every answer of a request comes with the writes of its case. *)
Lemma step_outcome hok r st :
  outcome hok st r (fst (step hok r st)) (snd (step hok r st)).
Proof.
  destruct r as [b|id payload|id|id]; cbn [step].
  - unfold createEntry.
    destruct (validateBody b) as [m|[base final]]; [apply Refused; auto|].
    destruct (mergeApplies b); [|apply createNew_outcome].
    destruct (findLatest _ (entries st)) as [existing|] eqn:Hf;
      [|apply createNew_outcome].
    apply createMerged_outcome. now apply findLatest_elem_of in Hf.
  - unfold updateEntry.
    destruct (findById id (entries st)) as [entry|] eqn:Hf; [|apply Refused; auto].
    destruct (rejected ALLOWED_TYPES _); [apply Refused; auto|].
    destruct (rejected ALLOWED_METHODS _); [apply Refused; auto|].
    destruct (checkedAmount (Payload.amountBase payload) _) as [ab|];
      [|apply Refused; auto].
    destruct (checkedAmount (Payload.amountFinal payload) _) as [af|];
      [|apply Refused; auto].
    destruct (Entry.schemaValid (assignPayload payload ab af entry)) eqn:Hv;
      cbn [negb fst snd]; [|apply Refused; auto].
    set (entry' := assignPayload payload ab af entry) in *.
    set (st1 := setEntries (saveEntry entry' (entries st)) st).
    destruct (recordHistory_fields hok entry' "update" st1) as (He & _ & Hn).
    pose proof (recordHistory_recorded hok entry' "update" st1 eq_refl) as Hh.
    set (st2 := recordHistory hok entry' "update" st1) in *.
    set (st3 := if coinEffect (Entry.type entry) (Entry.amountFinal entry) =? 0
                then st2 else _).
    assert (H3 : entries st3 = entries st2 /\ nextId st3 = nextId st2
                 /\ history st3 = history st2).
    { unfold st3. now destruct (_ =? 0). }
    destruct H3 as (He3 & Hn3 & Hh3).
    destruct (guarded_delta_entries st3 (Entry.gameName entry')
                (coinEffect (Entry.type entry') (Entry.amountFinal entry')))
      as (He4 & Hn4 & Hh4).
    apply (Updated hok st id payload entry entry').
    + exact Hf.
    + reflexivity.
    + reflexivity.
    + exact Hv.
    + now rewrite He4, He3, He.
    + now rewrite Hn4, Hn3, Hn.
    + unfold recorded in *. now rewrite Hh4, Hh3.
  - unfold deleteEntryById.
    destruct (findById id (entries st)) as [entry|] eqn:Hf; [|apply Refused; auto].
    cbn [fst snd].
    set (st1 := if _ =? 0 then st else _).
    assert (H1 : entries st1 = entries st /\ nextId st1 = nextId st
                 /\ history st1 = history st).
    { unfold st1. now destruct (_ =? 0). }
    destruct H1 as (He1 & Hn1 & Hh1).
    destruct (recordHistory_fields hok entry "delete" st1) as (He & _ & Hn).
    pose proof (recordHistory_recorded hok entry "delete" st1 eq_refl) as Hh.
    apply (Deleted hok st id entry).
    + exact Hf.
    + cbn [entries setEntries]. now rewrite He, He1.
    + cbn [nextId setEntries]. now rewrite Hn, Hn1.
    + unfold recorded in *. cbn [history setEntries]. now rewrite Hh, Hh1.
  - unfold clearPending.
    destruct (findById id (entries st)) as [entry|] eqn:Hf; [|apply Refused; auto].
    destruct (Entry.schemaValid (clearedEntry entry)) eqn:Hv;
      cbn [negb fst snd]; [|apply Refused; auto].
    destruct (clearedEntry_same entry) as (Hid & _).
    set (entry' := clearedEntry entry) in *.
    set (st1 := setEntries (saveEntry entry' (entries st)) st).
    destruct (recordHistory_fields hok entry' "clear-pending" st1)
      as (He & _ & Hn).
    apply (Cleared hok st id entry entry'); try assumption.
    + unfold entry', clearedEntry.
      now destruct (Entry.type entry =? "redeem")%string,
                   (Entry.type entry =? "deposit")%string.
    + now rewrite recordHistory_outside_enum.
Qed.

(** *** [coinEffect] and [applyGameDelta] *)

Lemma coinEffect_add t a b :
  0 <= a -> 0 <= b ->
  coinEffect t (Some (a + b)) = coinEffect t (Some a) + coinEffect t (Some b).
Proof.
  intros Ha Hb. unfold coinEffect.
  destruct (Z.leb_spec (a + b) 0), (Z.leb_spec a 0), (Z.leb_spec b 0);
    try lia;
    destruct ((t =? "deposit")%string || (t =? "freeplay")%string
              || (t =? "playedgame")%string);
    try lia; destruct (t =? "redeem")%string; lia.
Qed.

(** Property X1.  [coinEffect] is additive in a non-negative amount, so
    the effect of an accumulated amount is the sum of the effects of its
    parts; a redeem and a coin-taking entry (deposit, freeplay or
    playedgame) of the same amount cancel; and a type outside the four
    allowed ones has no effect. *)
Theorem coinEffect_is_additive (type : string) (a b : Z) :
  0 <= a -> 0 <= b ->
  coinEffect type (Some (a + b))
  = coinEffect type (Some a) + coinEffect type (Some b)
  /\ (includes ["deposit"; "freeplay"; "playedgame"] type = true ->
      coinEffect type (Some a) + coinEffect "redeem" (Some a) = 0)
  /\ (includes ALLOWED_TYPES type = false -> coinEffect type (Some a) = 0).
Proof.
  intros Ha Hb. split; [now apply coinEffect_add|].
  unfold coinEffect, includes, ALLOWED_TYPES. cbn [existsb].
  change ("redeem" =? "deposit")%string with false.
  change ("redeem" =? "freeplay")%string with false.
  change ("redeem" =? "playedgame")%string with false.
  change ("redeem" =? "redeem")%string with true.
  cbn [orb].
  split; intros H; destruct (a <=? 0); try reflexivity;
    destruct (type =? "freeplay")%string, (type =? "deposit")%string,
      (type =? "redeem")%string, (type =? "playedgame")%string;
    try discriminate H; cbn [orb]; lia.
Qed.


(** Property X2.  [applyGameDelta] touches one counter and no row: the
    counter of the trimmed name, when there is one, is replaced by itself
    plus the delta; every other counter stays; a blank name, or a name
    without a Game row, changes nothing; no Game row is created or dropped;
    and deltas on two different games commute. *)
Theorem applyGameDelta_laws (n m : string) (d1 d2 : Z) (gs : gmap string Z) :
  (trim n <> "" ->
   applyGameDelta n d1 gs !! trim n = (fun c => c + d1) <$> gs !! trim n)
  /\ (forall g, g <> trim n -> applyGameDelta n d1 gs !! g = gs !! g)
  /\ (trim n = "" \/ gs !! trim n = None -> applyGameDelta n d1 gs = gs)
  /\ dom (applyGameDelta n d1 gs) = dom gs
  /\ (trim n <> trim m ->
      applyGameDelta n d1 (applyGameDelta m d2 gs)
      = applyGameDelta m d2 (applyGameDelta n d1 gs)).
Proof.
  split; [|split; [|split; [|split]]].
  - intros Hn. unfold applyGameDelta. apply String.eqb_neq in Hn.
    rewrite Hn. destruct (gs !! trim n) as [c|] eqn:Hc.
    + now rewrite lookup_insert_eq.
    + now rewrite Hc.
  - intros g Hg. unfold applyGameDelta.
    destruct (trim n =? "")%string; [reflexivity|].
    destruct (gs !! trim n) as [c|]; [|reflexivity].
    now rewrite lookup_insert_ne by congruence.
  - intros [Hn|Hn]; unfold applyGameDelta.
    + rewrite Hn. reflexivity.
    + rewrite Hn. now destruct (trim n =? "")%string.
  - unfold applyGameDelta.
    destruct (trim n =? "")%string; [reflexivity|].
    destruct (gs !! trim n) as [c|] eqn:Hc; [|reflexivity].
    apply dom_insert_lookup_L. now rewrite Hc.
  - intros Hne. unfold applyGameDelta.
    destruct (trim n =? "")%string, (trim m =? "")%string; try reflexivity.
    destruct (gs !! trim m) as [c|] eqn:Hc,
             (gs !! trim n) as [c'|] eqn:Hc';
      rewrite ?lookup_insert_ne, ?Hc, ?Hc' by congruence;
      try reflexivity.
    apply insert_insert_ne. congruence.
Qed.

(** *** [normalizeDateString] *)

Lemma isoDayPrefix_slice10 s :
  isoDayPrefix s = true ->
  isoDayPrefix (slice10 s) = true /\ slice10 (slice10 s) = slice10 s
  /\ String.length (slice10 s) = 10%nat /\ slice10 s <> "".
Proof.
  do 10 (destruct s as [|? s]; [discriminate|]).
  unfold slice10. cbn [substring].
  replace (substring 0 0 s) with EmptyString by now destruct s.
  cbn [substring String.length]. intros H.
  split; [exact H|]. split; [reflexivity|]. split; [reflexivity|discriminate].
Qed.

Lemma slice10_idempotent s : slice10 (slice10 s) = slice10 s.
Proof.
  unfold slice10.
  do 10 (destruct s as [|? s]; [reflexivity|]).
  cbn [substring].
  replace (substring 0 0 s) with EmptyString by now destruct s.
  reflexivity.
Qed.

Lemma normalizeDateString_shape d day :
  normalizeDateString d = Some day -> exists x, day = slice10 x.
Proof.
  unfold normalizeDateString.
  destruct d as [s|]; [|discriminate].
  destruct (s =? "")%string; [discriminate|].
  destruct (isoDayPrefix s).
  - intros [= <-]. now exists s.
  - destruct (parseDate s) as [iso|]; [|discriminate].
    intros [= <-]. now exists iso.
Qed.

(** Property X3.  A string that starts with [YYYY-MM-DD] is cut to its
    first ten characters without the date parser of the host being
    consulted, and normalizing the result again changes nothing; and
    whatever the host renders, a normalized date of that shape is ten
    characters long and is its own normal form. *)
Theorem normalizeDateString_on_days (d : option string) (s : string) :
  (isoDayPrefix s = true ->
   normalizeDateString (Some s) = Some (slice10 s)
   /\ String.length (slice10 s) = 10%nat
   /\ normalizeDateString (normalizeDateString (Some s))
      = normalizeDateString (Some s))
  /\ (forall day,
        normalizeDateString d = Some day -> isoDayPrefix day = true ->
        String.length day = 10%nat
        /\ normalizeDateString (Some day) = Some day).
Proof.
  assert (Hpat : forall x, isoDayPrefix x = true ->
                           normalizeDateString (Some x) = Some (slice10 x)).
  { intros x Hx. unfold normalizeDateString. rewrite Hx.
    destruct x; [discriminate|reflexivity]. }
  split.
  - intros Hs. destruct (isoDayPrefix_slice10 s Hs) as (H1 & H2 & H3 & _).
    split; [now apply Hpat|]. split; [exact H3|].
    rewrite (Hpat s Hs), (Hpat _ H1). now rewrite H2.
  - intros day Hd Hday.
    destruct (normalizeDateString_shape d day Hd) as (x & ->).
    destruct (isoDayPrefix_slice10 _ Hday) as (_ & _ & H3 & _).
    rewrite slice10_idempotent in H3. split; [exact H3|].
    rewrite (Hpat _ Hday). now rewrite slice10_idempotent.
Qed.

(** *** Requests that are refused, and the growth of the history *)

(** Property X4.  A request answered with a 400 or a 404 leaves entries,
    game counters, history and id counter as they were: the routes send
    those answers before their first write.  A 500 gives no such
    assurance, see [deleteEntryByIdThrowing]. *)
Theorem refused_request_changes_nothing (hok : bool) (r : request)
    (st : ledger) (status : nat) (message : string) :
  fst (step hok r st) = Fail status message ->
  (status = 400 \/ status = 404)%nat ->
  snd (step hok r st) = st.
Proof.
  intros H _. pose proof (step_outcome hok r st) as Ho.
  destruct (step hok r st) as [resp st']. cbn [fst snd] in *. subst resp.
  now inversion Ho; subst.
Qed.

Lemma recorded_added hok h st st' :
  recorded hok h st st' ->
  history st' = (history st ++ (if hok then [h] else []))%list.
Proof.
  unfold recorded. intros ->. destruct hok; [reflexivity|].
  now rewrite app_nil_r.
Qed.

Lemma unchanged_added (l l' : list History.t) :
  l' = l -> l' = (l ++ [])%list.
Proof. intros ->. now rewrite app_nil_r. Qed.

Lemma step_history hok r st :
  exists added,
    history (snd (step hok r st)) = (history st ++ added)%list
    /\ (length added <= (if hok then 1 else 0))%nat
    /\ Forall (fun h => History.action h ∈ HISTORY_ACTIONS) added.
Proof.
  pose proof (step_outcome hok r st) as Ho.
  destruct (step hok r st) as [resp st']. cbn [fst snd] in *.
  inversion Ho; subst;
    try match goal with
        | H : recorded _ _ _ _ |- _ => apply recorded_added in H
        | H : history _ = history _ |- _ => apply unchanged_added in H
        end.
  1: { exists []. rewrite app_nil_r. repeat split; [cbn [length]; destruct hok; lia|constructor]. }
  all: eexists; split; [eassumption|]; destruct hok; cbn [length];
    (split; [lia|]); repeat constructor; cbn [History.action];
    unfold HISTORY_ACTIONS; repeat constructor.
Qed.

(** Property X5.  The history only grows: whatever requests run, the rows
    present before stay in place at the front, at most one row is added
    per request whose history write succeeds, and every added row carries
    one of the five action tags. *)
Theorem history_is_append_only (rs : list (bool * request)) (st : ledger) :
  exists added,
    history (run rs st) = (history st ++ added)%list
    /\ (length added <= length (List.filter fst rs))%nat
    /\ Forall (fun h => History.action h ∈ HISTORY_ACTIONS) added.
Proof.
  revert st. induction rs as [|[hok r] rs IH]; intros st.
  - exists []. rewrite app_nil_r. repeat split; [cbn; lia|constructor].
  - cbn [run List.filter fst].
    destruct (step_history hok r st) as (a1 & H1 & L1 & A1).
    destruct (IH (snd (step hok r st))) as (a2 & H2 & L2 & A2).
    exists (a1 ++ a2)%list. rewrite H2, H1, app_assoc.
    split; [reflexivity|]. split.
    + rewrite length_app. destruct hok; cbn [length] in *; lia.
    + now apply Forall_app.
Qed.

(** *** How many entries there are *)

Lemma deleteEntry_length e l :
  NoDup (map Entry._id l) -> e ∈ l ->
  length (deleteEntry e l) = pred (length l).
Proof.
  unfold deleteEntry. induction l as [|x l IH]; simpl; intros Hnd Hin.
  - now apply elem_of_nil in Hin.
  - apply NoDup_cons in Hnd as [Hx Hnd].
    destruct (Entry._id x =? Entry._id e)%nat eqn:E; simpl.
    + apply Nat.eqb_eq in E. rewrite E in Hx.
      fold (deleteEntry e l). now rewrite (deleteEntry_fresh e l Hx).
    + apply elem_of_cons in Hin as [->|Hin];
        [now rewrite Nat.eqb_refl in E|].
      rewrite (IH Hnd Hin). destruct l; [now apply elem_of_nil in Hin|].
      reflexivity.
Qed.

Lemma saveEntry_length e' l : length (saveEntry e' l) = length l.
Proof. unfold saveEntry. apply length_map. Qed.

(** Property X6.  The number of entries follows the answer: one more
    after a 201, one less after a delete that succeeds, and the same
    number after every other answer, the 200 of a merge included. *)
Theorem entry_count_follows_the_answer (hok : bool) (r : request)
    (st : ledger) :
  NoDup (map Entry._id (entries st)) ->
  length (entries (snd (step hok r st)))
  = match fst (step hok r st) with
    | Json status _ =>
        if (status =? 201)%nat then S (length (entries st))
        else length (entries st)
    | JsonOk => pred (length (entries st))
    | Fail _ _ => length (entries st)
    end.
Proof.
  intros Hnd. pose proof (step_outcome hok r st) as Ho.
  destruct (step hok r st) as [resp st']. cbn [fst snd] in *.
  inversion Ho; subst;
    try match goal with
        | H : entries _ = _ |- _ => rewrite H
        end;
    cbn [Nat.eqb]; rewrite ?saveEntry_length, ?length_app; cbn [length];
    try lia.
  apply deleteEntry_length; [exact Hnd|]. eapply findById_elem_of; eassumption.
Qed.

(** *** Delete, and create followed by delete *)











(** *** PUT with a body that sets nothing *)




(** *** GET /api/game-entries/:id/history *)


Lemma head_listHistory_snoc id st st' h :
  history st' = (history st ++ [h])%list ->
  head (listHistory id st')
  = if (History.entryId h =? id)%nat then Some h
    else head (listHistory id st).
Proof.
  intros H. unfold listHistory. rewrite H, filter_snoc.
  destruct (History.entryId h =? id)%nat.
  - now rewrite rev_app_distr.
  - now rewrite app_nil_r.
Qed.

(** Property X10.  When the history write succeeds, the first row of
    GET /:id/history, the newest one, is after a create the created
    document under the tag create, and after an update the updated
    document under the tag update.  A merge and a clear-pending leave the
    whole history as it was, whether or not the collection accepts writes:
    the schema refuses their tags, so the newest row of the entry they
    rewrite still shows it as it was before. *)
Theorem newest_history_row_after_a_write (hok : bool) (st : ledger) :
  (forall b doc,
      fst (step true (CreateEntry b) st) = Json 201 doc ->
      head (listHistory (Entry._id doc) (snd (step true (CreateEntry b) st)))
      = Some (History.mk (Entry._id doc) "create" doc))
  /\ (forall id payload doc,
         fst (step true (UpdateEntry id payload) st) = Json 200 doc ->
         Entry._id doc = id
         /\ head (listHistory id (snd (step true (UpdateEntry id payload) st)))
            = Some (History.mk id "update" doc))
  /\ (forall b doc,
         fst (step hok (CreateEntry b) st) = Json 200 doc ->
         history (snd (step hok (CreateEntry b) st)) = history st)
  /\ (forall id,
         history (snd (step hok (ClearPending id) st)) = history st).
Proof.
  split; [|split; [|split]].
  - intros b doc H. pose proof (step_outcome true (CreateEntry b) st) as Ho.
    destruct (step true (CreateEntry b) st) as [resp st'].
    cbn [fst snd] in *. subst resp.
    inversion Ho as [| b0 doc0 st0 Hid Hat Hv He Hn Hh | | | |]; subst.
    unfold recorded in Hh.
    rewrite (head_listHistory_snoc _ st st' _ Hh). cbn [History.entryId].
    now rewrite Nat.eqb_refl.
  - intros id payload doc H.
    pose proof (step_outcome true (UpdateEntry id payload) st) as Ho.
    destruct (step true (UpdateEntry id payload) st) as [resp st'].
    cbn [fst snd] in *. subst resp.
    inversion Ho as [| | | id0 p e e' st0 Hf Hid Hat Hv He Hn Hh | |]; subst.
    unfold recorded in Hh. pose proof (findById_id _ _ _ Hf) as Hi.
    split; [congruence|].
    rewrite (head_listHistory_snoc _ st st' _ Hh). cbn [History.entryId].
    rewrite Hid, Hi. now rewrite Nat.eqb_refl.
  - intros b doc H. pose proof (step_outcome hok (CreateEntry b) st) as Ho.
    destruct (step hok (CreateEntry b) st) as [resp st'].
    cbn [fst snd] in *. subst resp.
    inversion Ho as [| | b0 e e' st0 Hin Hid Hat Hv He Hn Hh | | |]; subst.
    exact Hh.
  - intros id. pose proof (step_outcome hok (ClearPending id) st) as Ho.
    destruct (step hok (ClearPending id) st) as [resp st'].
    cbn [fst snd] in *.
    inversion Ho as [| | | | id0 e e' st0 Hf Hid Hat Hv He Hn Hh |]; subst;
      [reflexivity|exact Hh].
Qed.

(** *** The rows of the pending list *)

(** The row of a group and the document it is built from. *)
Lemma resolveGroup_base g r :
  resolveGroup g = Some r ->
  0 < Row.remainingPay r
  /\ ((exists d, Group.lastDeposit g = Some d
                 /\ Entry.reduction d = Some (Row.remainingPay r)
                 /\ r = pendingRow d (Row.remainingPay r) (Row.remainingPay r))
      \/ (Group.lastDeposit g = None
          /\ exists rd, Group.lastRedeem g = Some rd
                        /\ Entry.isPending rd = true
                        /\ Row.remainingPay r = redeemPending rd
                        /\ r = pendingRow rd (redeemPending rd) 0)).
Proof.
  unfold resolveGroup.
  destruct (Group.lastDeposit g) as [d|].
  - rewrite toNumber0_ofField.
    destruct (Z.leb_spec (default 0 (Entry.reduction d)) 0) as [|Hpos];
      [discriminate|].
    intros [= <-]. cbn [pendingRow Row.remainingPay].
    split; [exact Hpos|]. left. exists d. split; [reflexivity|].
    split; [|reflexivity].
    destruct (Entry.reduction d) as [v|]; [reflexivity|].
    cbn in Hpos. lia.
  - destruct (Group.lastRedeem g) as [rd|]; [|discriminate].
    destruct (Entry.isPending rd) eqn:Hp; [|discriminate].
    destruct (Z.leb_spec (redeemPending rd) 0) as [|Hpos]; [discriminate|].
    intros [= <-]. cbn [pendingRow Row.remainingPay].
    split; [exact Hpos|]. right. split; [reflexivity|].
    exists rd. now repeat split.
Qed.

(** The entry behind a row of the pending list. *)
Lemma listPending_base username st r :
  r ∈ listPending username st ->
  0 < Row.remainingPay r
  /\ exists e,
       e ∈ entries st /\ usernameClause username e = true
       /\ Row._id r = Entry._id e /\ Row.username r = Entry.username e
       /\ Row.type r = Entry.type e
       /\ ((Entry.type e = "deposit"
            /\ Entry.reduction e = Some (Row.remainingPay r)
            /\ Row.reduction r = Row.remainingPay r)
           \/ (Entry.type e = "redeem" /\ Entry.isPending e = true
               /\ Row.remainingPay r = redeemPending e
               /\ Row.reduction r = 0)).
Proof.
  unfold listPending. intros Hr.
  apply resolvePending_spec in Hr as (k & _ & Hr).
  destruct (groupOf_keys k
              (List.filter
                 (fun e => redeemOrDeposit e && usernameClause username e)
                 (entries st))) as (Hd & Hrd).
  destruct (resolveGroup_base _ r Hr) as (Hpos & [(d & Hg & Hred & Hrow)
                                                 |(_ & rd & Hg & Hp & Hrp & Hrow)]).
  - split; [exact Hpos|]. exists d.
    destruct (Hd d Hg) as (_ & Hin & Ht).
    apply list_elem_of_In, filter_In in Hin as [Hin Hq].
    apply andb_true_iff in Hq as [_ Hq].
    split; [now apply list_elem_of_In|]. split; [exact Hq|].
    rewrite Hrow at 1 2 3. cbn [pendingRow Row._id Row.username Row.type].
    repeat split. left. split; [exact Ht|]. split; [exact Hred|].
    rewrite Hrow at 1. reflexivity.
  - split; [exact Hpos|]. exists rd.
    destruct (Hrd rd Hg) as (_ & Hin & Ht).
    apply list_elem_of_In, filter_In in Hin as [Hin Hq].
    apply andb_true_iff in Hq as [_ Hq].
    split; [now apply list_elem_of_In|]. split; [exact Hq|].
    rewrite Hrow at 1 2 3. cbn [pendingRow Row._id Row.username Row.type].
    repeat split. right. split; [exact Ht|]. split; [exact Hp|].
    split; [exact Hrp|]. rewrite Hrow. reflexivity.
Qed.

(** Property X11.  Every row of GET /pending has a positive amount and
    stands for one stored entry of the queried user: a deposit whose
    reduction is that amount, or a redeem flagged pending whose remaining
    pay (or cashout less paid) is that amount; and no two rows share a
    group key. *)
Theorem pending_rows_stand_for_open_entries (username : option string)
    (st : ledger) :
  NoDup (map rowKey (listPending username st))
  /\ forall r, r ∈ listPending username st ->
       0 < Row.remainingPay r
       /\ exists e,
            e ∈ entries st /\ usernameClause username e = true
            /\ Row._id r = Entry._id e /\ Row.username r = Entry.username e
            /\ Row.type r = Entry.type e
            /\ ((Entry.type e = "deposit"
                 /\ Entry.reduction e = Some (Row.remainingPay r)
                 /\ Row.reduction r = Row.remainingPay r)
                \/ (Entry.type e = "redeem" /\ Entry.isPending e = true
                    /\ Row.remainingPay r = redeemPending e
                    /\ Row.reduction r = 0)).
Proof.
  split; [apply resolvePending_NoDup|apply listPending_base].
Qed.

(** *** Marking a row as paid *)


(** *** The pending section of /summary *)

Lemma sumZ_positive {A} (f : A -> Z) l :
  Forall (fun x => 0 < f x) l -> l <> [] -> 0 < sumZ f l.
Proof.
  intros H. induction H as [|x l Hx Hl IH]; [congruence|].
  intros _. change (sumZ f (x :: l)) with (f x + sumZ f l).
  destruct l as [|y l]; [change (sumZ f []) with 0; lia|].
  assert (0 < sumZ f (y :: l)) by (apply IH; discriminate). lia.
Qed.

(** Property X13.  The pending section of GET /summary restricted to a
    user is the list GET /pending answers for that user; its count is the
    number of rows, its total the sum of their amounts, and the total is
    zero exactly when there is no row. *)
Theorem summary_pending_is_the_pending_list (username : option string)
    (st : ledger) :
  let s := summary (usernameClause username) st in
  Summary.pendingEntries s = listPending username st
  /\ Summary.totalPendingCount s = length (listPending username st)
  /\ Summary.totalPendingRemainingPay s
     = sumZ Row.remainingPay (listPending username st)
  /\ (Summary.totalPendingRemainingPay s = 0
      <-> Summary.totalPendingCount s = 0%nat).
Proof.
  intros s.
  assert (Hp : Summary.pendingEntries s = listPending username st).
  { unfold s, summary, listPending. cbn [Summary.pendingEntries].
    f_equal. apply filter_ext_in. intros x _. apply andb_comm. }
  assert (Hc : Summary.totalPendingCount s = length (listPending username st))
    by (rewrite <- Hp; reflexivity).
  assert (Ht : Summary.totalPendingRemainingPay s
               = sumZ Row.remainingPay (listPending username st))
    by (rewrite <- Hp; reflexivity).
  split; [exact Hp|]. split; [exact Hc|]. split; [exact Ht|].
  rewrite Ht, Hc.
  destruct (listPending username st) as [|r l] eqn:E; [now split|].
  split; [|discriminate]. intros H0.
  assert (0 < sumZ Row.remainingPay (r :: l)); [|lia].
  apply sumZ_positive; [|discriminate].
  apply Forall_forall. intros x Hx. rewrite <- E in Hx.
  now apply listPending_base in Hx as [Hx _].
Qed.

(** *** The pending payments table *)

Lemma clientPendingRow_open r :
  0 < Row.remainingPay r ->
  (Row.type r = "deposit" /\ Row.reduction r = Row.remainingPay r)
  \/ Row.type r = "redeem" ->
  exists c,
    clientPendingRow r = Some c
    /\ ClientRow._id c = Row._id r
    /\ ClientRow.type c = Row.type r
    /\ ClientRow.pendingAmount c = Row.remainingPay r.
Proof.
  intros Hpos Hcase. unfold clientPendingRow.
  assert (Hlt : (0 <? Row.remainingPay r) = true) by now apply Z.ltb_lt.
  assert (Hle : (Row.remainingPay r <=? 0) = false) by now apply Z.leb_gt.
  destruct Hcase as [[Ht Hred]|Ht]; rewrite Ht.
  - change (toLowerCase
              (if ("deposit" =? "")%string then "redeem" else "deposit"))
      with "deposit".
    change ("deposit" =? "deposit")%string with true. cbv iota.
    change ("deposit" =? "redeem")%string with false. cbv iota.
    rewrite Hred, Hlt, Hle. eexists. split; [reflexivity|]. now repeat split.
  - change (toLowerCase
              (if ("redeem" =? "")%string then "redeem" else "redeem"))
      with "redeem".
    change ("redeem" =? "deposit")%string with false. cbv iota.
    change ("redeem" =? "redeem")%string with true. cbv iota.
    rewrite Hlt, Hle. eexists. split; [reflexivity|]. now repeat split.
Qed.

Lemma clientPendingRows_open rows :
  Forall (fun r =>
            0 < Row.remainingPay r
            /\ ((Row.type r = "deposit"
                 /\ Row.reduction r = Row.remainingPay r)
                \/ Row.type r = "redeem")) rows ->
  map ClientRow._id (clientPendingRows rows) = map Row._id rows
  /\ map ClientRow.type (clientPendingRows rows) = map Row.type rows
  /\ map ClientRow.pendingAmount (clientPendingRows rows)
     = map Row.remainingPay rows.
Proof.
  unfold clientPendingRows.
  induction 1 as [|r rows [Hpos Hcase] _ (IH1 & IH2 & IH3)];
    [now repeat split|].
  destruct (clientPendingRow_open r Hpos Hcase) as (c & Hc & Hi & Ht & Ha).
  cbn [omap list_omap]. rewrite Hc. cbn [List.filter].
  assert (Hlt : (0 <? ClientRow.pendingAmount c) = true)
    by (rewrite Ha; now apply Z.ltb_lt).
  rewrite Hlt. cbn [map]. now rewrite IH1, IH2, IH3, Hi, Ht, Ha.
Qed.

(** Property X14.  The pending payments table keeps every row GET
    /pending sends and shows for each the amount the server computed:
    none is dropped by the client's own checks, and deposit and redeem
    rows keep their type. *)
Theorem pending_table_shows_every_server_row (st : ledger) :
  let rows := listPending None st in
  map ClientRow._id (clientPendingRows rows) = map Row._id rows
  /\ map ClientRow.type (clientPendingRows rows) = map Row.type rows
  /\ map ClientRow.pendingAmount (clientPendingRows rows)
     = map Row.remainingPay rows.
Proof.
  intros rows. apply clientPendingRows_open, Forall_forall.
  intros r Hr.
  destruct (listPending_base None st r Hr)
    as (Hpos & e & _ & _ & _ & _ & Ht & Hcase).
  split; [exact Hpos|].
  destruct Hcase as [(Hd & _ & Hred)|(Hrd & _)].
  - left. split; [congruence|exact Hred].
  - right. congruence.
Qed.

(** *** The money sections of /summary *)

Lemma sumZ_filter {A} (f : A -> Z) (p : A -> bool) l :
  sumZ f (List.filter p l) = sumZ (fun x => if p x then f x else 0) l.
Proof.
  induction l as [|x l IH]; [reflexivity|]. cbn [List.filter].
  change (sumZ (fun x => if p x then f x else 0) (x :: l))
    with ((if p x then f x else 0)
          + sumZ (fun x => if p x then f x else 0) l).
  rewrite <- IH. destruct (p x); [reflexivity|]. lia.
Qed.

Lemma sumZ_plus {A} (f g : A -> Z) l :
  sumZ (fun x => f x + g x) l = sumZ f l + sumZ g l.
Proof.
  induction l as [|x l IH]; [reflexivity|].
  change (sumZ (fun x => f x + g x) (x :: l))
    with (f x + g x + sumZ (fun x => f x + g x) l).
  change (sumZ f (x :: l)) with (f x + sumZ f l).
  change (sumZ g (x :: l)) with (g x + sumZ g l). lia.
Qed.

Lemma sumZ_minus {A} (f g : A -> Z) l :
  sumZ (fun x => f x - g x) l = sumZ f l - sumZ g l.
Proof.
  induction l as [|x l IH]; [reflexivity|].
  change (sumZ (fun x => f x - g x) (x :: l))
    with (f x - g x + sumZ (fun x => f x - g x) l).
  change (sumZ f (x :: l)) with (f x + sumZ f l).
  change (sumZ g (x :: l)) with (g x + sumZ g l). lia.
Qed.

Lemma includes_cases s l : includes l s = true -> s ∈ l.
Proof.
  unfold includes. intros H. apply existsb_exists in H as (x & Hx & Hs).
  apply String.eqb_eq in Hs. subst x. now apply list_elem_of_In.
Qed.

Lemma schemaValid_type e :
  Entry.schemaValid e = true ->
  Entry.type e = "freeplay" \/ Entry.type e = "deposit"
  \/ Entry.type e = "redeem" \/ Entry.type e = "playedgame".
Proof.
  unfold Entry.schemaValid. intros H.
  repeat (apply andb_true_iff in H as [H ?]).
  match goal with
  | Ht : includes ALLOWED_TYPES (Entry.type e) = true |- _ =>
      apply includes_cases in Ht; unfold ALLOWED_TYPES in Ht;
      repeat (apply elem_of_cons in Ht as [Ht|Ht]; [auto|]);
      now apply elem_of_nil in Ht
  end.
Qed.

Lemma schemaValid_method e :
  Entry.schemaValid e = true ->
  Entry.type e = "deposit" \/ Entry.type e = "redeem" ->
  exists m, Entry.method e = Some m
            /\ (m = "cashapp" \/ m = "paypal" \/ m = "chime" \/ m = "venmo").
Proof.
  unfold Entry.schemaValid. intros H Ht.
  repeat (apply andb_true_iff in H as [H ?]).
  destruct (Entry.method e) as [m|].
  - exists m. split; [reflexivity|].
    match goal with
    | Hm : includes ALLOWED_METHODS m = true |- _ =>
        apply includes_cases in Hm; unfold ALLOWED_METHODS in Hm;
        repeat (apply elem_of_cons in Hm as [Hm|Hm]; [auto|]);
        now apply elem_of_nil in Hm
    end.
  - exfalso. destruct Ht as [Ht|Ht]; rewrite Ht in *; discriminate.
Qed.

(** Property X15.  On a store of schema-valid documents the total revenue
    of GET /summary is the sum of [amountBase] over the deposits of the
    scope: the four methods the route reads cover every deposit. *)
Theorem revenue_is_the_deposited_base_amount (matchDoc : Entry.t -> bool)
    (st : ledger) :
  Forall (fun e => Entry.schemaValid e = true) (entries st) ->
  Summary.totalRevenue (summary matchDoc st)
  = sumZ (fun e => default 0 (Entry.amountBase e))
      (List.filter
         (fun e => (Entry.type e =? "deposit")%string && matchDoc e)
         (entries st)).
Proof.
  intros Hv. unfold summary. cbn [Summary.totalRevenue].
  rewrite !pickTotal_groupSum.
  set (l := List.filter _ (entries st)).
  rewrite !sumZ_filter, <- !sumZ_plus.
  apply sumZ_ext_in. intros e He.
  apply list_elem_of_In, filter_In in He as [He Hq].
  apply andb_true_iff in Hq as [Hd _]. apply String.eqb_eq in Hd.
  apply list_elem_of_In in He.
  rewrite Forall_forall in Hv.
  destruct (schemaValid_method e (Hv e He)) as (m & -> & Hm); [now left|].
  change (default "" (Some m)) with m.
  destruct Hm as [->|[->|[->| ->]]]; cbn; lia.
Qed.

Lemma coin_amount_effect e :
  Entry.schemaValid e = true ->
  (if (Entry.type e =? "redeem")%string then byTypeAmount e else 0)
  - ((if (Entry.type e =? "freeplay")%string then byTypeAmount e else 0)
     + (if (Entry.type e =? "playedgame")%string then byTypeAmount e else 0)
     + (if (Entry.type e =? "deposit")%string then byTypeAmount e else 0))
  = coinEffect (Entry.type e) (Entry.amountFinal e).
Proof.
  intros Hv. destruct (schemaValid_amountFinal e Hv) as (a & Ha & Hpos).
  unfold byTypeAmount, coinEffect. rewrite Ha.
  destruct (schemaValid_type e Hv) as [->|[->|[->| ->]]];
    cbn; destruct (Z.leb_spec a 0); lia.
Qed.

(** Property X16.  On a store of schema-valid documents the [totalCoin]
    of GET /summary is the sum of [coinEffect(type, amountFinal)] over
    the documents of the scope, the quantity the game counters
    accumulate. *)
Theorem summary_totalCoin_is_the_coin_effect (matchDoc : Entry.t -> bool)
    (st : ledger) :
  Forall (fun e => Entry.schemaValid e = true) (entries st) ->
  Summary.totalCoin (summary matchDoc st)
  = sumZ (fun e => coinEffect (Entry.type e) (Entry.amountFinal e))
      (List.filter matchDoc (entries st)).
Proof.
  intros Hv. unfold summary. cbn [Summary.totalCoin].
  rewrite !pickTotal_groupSum.
  set (l := List.filter matchDoc (entries st)).
  rewrite !sumZ_filter, <- !sumZ_plus, <- sumZ_minus.
  apply sumZ_ext_in. intros e He.
  apply list_elem_of_In, filter_In in He as [He _].
  apply list_elem_of_In in He. rewrite Forall_forall in Hv.
  apply coin_amount_effect. now apply Hv.
Qed.

(** *** GET /api/game-entries/summary-by-game *)

Lemma groupByGame_snoc docs e :
  groupByGame (docs ++ [e])
  = mapSet (Entry.gameName e)
      (addToGame
         (default (0, 0, 0, 0) (mapGet (Entry.gameName e) (groupByGame docs)))
         e)
      (groupByGame docs).
Proof. unfold groupByGame. now rewrite fold_left_app. Qed.

Lemma groupByGame_NoDup docs : NoDup (map fst (groupByGame docs)).
Proof.
  induction docs as [|e docs IH] using rev_ind.
  - apply NoDup_nil_2.
  - rewrite groupByGame_snoc. now apply mapSet_NoDup.
Qed.

Lemma groupByGame_get k docs :
  mapGet k (groupByGame docs)
  = match List.filter (fun e => (Entry.gameName e =? k)%string) docs with
    | [] => None
    | l => Some (fold_left addToGame l (0, 0, 0, 0))
    end.
Proof.
  induction docs as [|e docs IH] using rev_ind; [reflexivity|].
  rewrite groupByGame_snoc, filter_snoc.
  destruct (Entry.gameName e =? k)%string eqn:E.
  - apply String.eqb_eq in E. subst k. rewrite mapGet_mapSet_eq, IH.
    destruct (List.filter _ docs) as [|x l]; [reflexivity|].
    cbn [app]. f_equal.
    change (x :: (l ++ [e])%list) with ((x :: l) ++ [e])%list.
    now rewrite fold_left_app.
  - apply String.eqb_neq in E. rewrite mapGet_mapSet_ne by exact E.
    now rewrite IH, app_nil_r.
Qed.

Lemma fold_addToGame l : forall fp pg dp rd,
  fold_left addToGame l (fp, pg, dp, rd)
  = (fp + sumZ (condAmount "freeplay") l,
     pg + sumZ (condAmount "playedgame") l,
     dp + sumZ (condAmount "deposit") l,
     rd + sumZ (condAmount "redeem") l).
Proof.
  induction l as [|x l IH]; intros fp pg dp rd.
  - cbn [fold_left]. change (sumZ _ []) with 0. now rewrite !Z.add_0_r.
  - cbn [fold_left addToGame]. rewrite IH.
    change (sumZ ?f (x :: l)) with (f x + sumZ f l).
    now rewrite !Z.add_assoc.
Qed.

(** A row of the report carries the sums of the documents of its game. *)
Lemma summaryByGame_elem matchDoc st r :
  r ∈ summaryByGame matchDoc st ->
  let own :=
    List.filter (fun e => (Entry.gameName e =? GameSummary.gameName r)%string)
      (List.filter matchDoc (entries st)) in
  own <> []
  /\ GameSummary.totalFreeplay r = sumZ (condAmount "freeplay") own
  /\ GameSummary.totalPlayedGame r = sumZ (condAmount "playedgame") own
  /\ GameSummary.totalDeposit r = sumZ (condAmount "deposit") own
  /\ GameSummary.totalRedeem r = sumZ (condAmount "redeem") own
  /\ GameSummary.totalCoins r
     = GameSummary.totalRedeem r
       - (GameSummary.totalFreeplay r + GameSummary.totalPlayedGame r
          + GameSummary.totalDeposit r).
Proof.
  unfold summaryByGame. rewrite merge_sort_Permutation. intros Hr.
  apply list_elem_of_fmap in Hr as ([k q] & -> & Hin).
  apply mapGet_elem_of in Hin; [|apply groupByGame_NoDup].
  rewrite groupByGame_get in Hin.
  destruct q as [[[fp pg] dp] rd]. cbv zeta.
  cbn [gameSummaryRow GameSummary.gameName].
  destruct (List.filter _ (List.filter matchDoc (entries st))) as [|x l];
    [discriminate|].
  rewrite fold_addToGame in Hin. injection Hin as <- <- <- <-.
  cbn [GameSummary.totalFreeplay GameSummary.totalPlayedGame
       GameSummary.totalDeposit GameSummary.totalRedeem
       GameSummary.totalCoins].
  split; [discriminate|]. now repeat split.
Qed.

Lemma summaryByGame_names matchDoc st :
  map GameSummary.gameName (summaryByGame matchDoc st)
  ≡ₚ map fst (groupByGame (List.filter matchDoc (entries st))).
Proof.
  unfold summaryByGame.
  rewrite (Permutation_map GameSummary.gameName
             (merge_sort_Permutation byGameName _)).
  rewrite map_map. erewrite map_ext; [reflexivity|].
  now intros [k [[[fp pg] dp] rd]].
Qed.

Lemma groupByGame_keys docs g :
  g ∈ map fst (groupByGame docs) <-> g ∈ map Entry.gameName docs.
Proof.
  split; intros H.
  - apply list_elem_of_fmap in H as ([k q] & -> & Hin). cbn [fst].
    apply mapGet_elem_of in Hin; [|apply groupByGame_NoDup].
    rewrite groupByGame_get in Hin.
    destruct (List.filter _ docs) as [|x l] eqn:E; [discriminate|].
    assert (Hx : In x (List.filter
                         (fun e => (Entry.gameName e =? k)%string) docs))
      by (rewrite E; now left).
    apply filter_In in Hx as [Hx Hk]. apply String.eqb_eq in Hk.
    apply list_elem_of_fmap. exists x. split; [now rewrite Hk|].
    now apply list_elem_of_In.
  - apply list_elem_of_fmap in H as (e & -> & He).
    destruct (mapGet (Entry.gameName e) (groupByGame docs)) as [q|] eqn:Hq.
    + apply mapGet_Some_elem_of in Hq. apply list_elem_of_fmap.
      now exists (Entry.gameName e, q).
    + rewrite groupByGame_get in Hq.
      destruct (List.filter _ docs) as [|x l] eqn:E; [|discriminate].
      assert (Hin : In e (List.filter
                            (fun x => (Entry.gameName x
                                       =? Entry.gameName e)%string) docs)).
      { apply filter_In. split; [now apply list_elem_of_In|].
        apply String.eqb_refl. }
      rewrite E in Hin. destruct Hin.
Qed.

(** Property X17.  The answer of GET /summary-by-game is sorted by game
    name and has exactly one row for each game that occurs in the scope;
    a row carries, by type, the sums of the coin amounts of the documents
    of its game, and its [totalCoins] is redeem less the three others. *)
Theorem summaryByGame_has_one_sorted_row_per_game
    (matchDoc : Entry.t -> bool) (st : ledger) :
  let scope := List.filter matchDoc (entries st) in
  let rows := summaryByGame matchDoc st in
  Sorted byGameName rows
  /\ NoDup (map GameSummary.gameName rows)
  /\ (forall g, g ∈ map GameSummary.gameName rows
                <-> g ∈ map Entry.gameName scope)
  /\ forall r, r ∈ rows ->
       let own :=
         List.filter
           (fun e => (Entry.gameName e =? GameSummary.gameName r)%string)
           scope in
       GameSummary.totalFreeplay r = sumZ (condAmount "freeplay") own
       /\ GameSummary.totalPlayedGame r = sumZ (condAmount "playedgame") own
       /\ GameSummary.totalDeposit r = sumZ (condAmount "deposit") own
       /\ GameSummary.totalRedeem r = sumZ (condAmount "redeem") own
       /\ GameSummary.totalCoins r
          = GameSummary.totalRedeem r
            - (GameSummary.totalFreeplay r + GameSummary.totalPlayedGame r
               + GameSummary.totalDeposit r).
Proof.
  intros scope rows. split; [|split; [|split]].
  - apply Sorted_merge_sort. intros a b. apply String.leb_total.
  - unfold rows. rewrite summaryByGame_names. apply groupByGame_NoDup.
  - intros g. unfold rows. rewrite summaryByGame_names.
    apply groupByGame_keys.
  - intros r Hr. now apply summaryByGame_elem in Hr as (_ & H).
Qed.

(** *** The list route and the total of a game row *)

(** The query of a game row selects the entries of that game. *)
Lemma listEntries_gameQuery g st :
  trim g = g -> g <> "" ->
  listEntries (gameQuery g) st
  = rev (List.filter (fun e => (Entry.gameName e =? g)%string) (entries st)).
Proof.
  intros Ht Hg. unfold listEntries. f_equal. apply filter_ext_in.
  intros e _. unfold listMatch, gameQuery, textClause, enumClause, dateClause.
  cbn [ListQuery.username ListQuery.type ListQuery.method ListQuery.gameName
       ListQuery.playerTag ListQuery.dateFrom ListQuery.dateTo].
  change (blank None) with true.
  change (includes ALLOWED_TYPES (default "" None)) with false.
  change (includes ALLOWED_METHODS (default "" None)) with false.
  change (normalizeDateString None) with (@None string).
  change (orUndefined None) with (@None string).
  cbv iota. cbn [andb].
  unfold blank. change (default "" (Some g)) with g. rewrite Ht.
  apply String.eqb_neq in Hg. rewrite Hg. cbn [orb].
  now rewrite !andb_true_r.
Qed.

(** One step of the reducer of a game row on a schema-valid document: a
    playedgame entry is passed over, any other moves the total by its coin
    effect. *)
Lemma netStep_coinEffect acc e :
  Entry.schemaValid e = true ->
  netStep acc e
  = if (Entry.type e =? "playedgame")%string then acc
    else acc + coinEffect (Entry.type e) (Entry.amountFinal e).
Proof.
  intros Hv. destruct (schemaValid_amountFinal e Hv) as (a & Ha & Hpos).
  unfold netStep, coinEffect. rewrite Ha.
  change (default 0 (orElse (Some a) (Entry.amount e))) with a.
  destruct (schemaValid_type e Hv) as [->|[->|[->| ->]]];
    vm_compute toLowerCase; cbn; destruct (Z.leb_spec a 0); lia.
Qed.

Lemma fold_left_ext_in {A B} (f g : A -> B -> A) (l : list B) :
  (forall a x, x ∈ l -> f a x = g a x) ->
  forall a, fold_left f l a = fold_left g l a.
Proof.
  induction l as [|x l IH]; intros H a; [reflexivity|].
  cbn [fold_left]. rewrite (H a x) by apply list_elem_of_here.
  apply IH. intros a' y Hy. apply H. now apply list_elem_of_further.
Qed.

(** Property X19.  On a store of schema-valid documents the total a game
    row computes from GET /api/game-entries?gameName= runs over the
    entries of that game, newest first, and adds up their coin effects
    (deposits and freeplays subtracted, redeems added, as the server
    counts them) with the playedgame entries left out. *)
Theorem gamerow_total_omits_playedgame (st : ledger) (g : string) :
  Forall (fun e => Entry.schemaValid e = true) (entries st) ->
  trim g = g -> g <> "" ->
  netTotal (listEntries (gameQuery g) st)
  = fold_left
      (fun acc e =>
         if (Entry.type e =? "playedgame")%string then acc
         else acc + coinEffect (Entry.type e) (Entry.amountFinal e))
      (rev (List.filter (fun e => (Entry.gameName e =? g)%string)
              (entries st)))
      0.
Proof.
  intros Hst Ht Hne.
  rewrite (listEntries_gameQuery g st Ht Hne).
  unfold netTotal. apply fold_left_ext_in. intros acc e He.
  apply netStep_coinEffect.
  apply list_elem_of_In, in_rev, filter_In in He as [He _].
  apply list_elem_of_In in He. rewrite Forall_forall in Hst. now apply Hst.
Qed.

(** *** What the create route accepts and what the schema refuses *)

Lemma blank_false x : blank x = false -> trim (default "" x) <> "".
Proof.
  unfold blank. destruct x as [s|]; [|discriminate].
  intros H. apply orb_false_iff in H as [_ H]. now apply String.eqb_neq.
Qed.

Lemma validateBody_fields b base final :
  validateBody b = inr (base, final) ->
  blank (Body.username b) = false
  /\ blank (Body.createdBy b) = false
  /\ includes ALLOWED_TYPES (default "" (Body.type b)) = true
  /\ includes ["deposit"; "redeem"] (default "" (Body.type b))
     && negb (includes ALLOWED_METHODS (default "" (Body.method b))) = false
  /\ blank (Body.gameName b) = false.
Proof.
  unfold validateBody.
  destruct (blank (Body.username b)); [discriminate|].
  destruct (blank (Body.createdBy b)); [discriminate|].
  destruct (includes ALLOWED_TYPES _); [|discriminate]. cbn [negb].
  destruct (includes ["deposit"; "redeem"] _ && _); [discriminate|].
  destruct (blank (Body.gameName b)); [discriminate|]. now intros _.
Qed.

Lemma createdEntry_valid b base final n :
  validateBody b = inr (base, final) ->
  inRange b final = true ->
  Entry.schemaValid (createdEntry b base final n) = true.
Proof.
  intros Hval Hr.
  destruct (validateBody_fields b base final Hval)
    as (Hu & Hc & Ht & Hm & Hg).
  destruct (validateBody_inr b base final Hval) as (_ & _ & Hb & Hf).
  unfold inRange in Hr. repeat (apply andb_true_iff in Hr as [Hr ?]).
  apply blank_false, String.eqb_neq in Hu, Hc, Hg.
  unfold Entry.schemaValid, createdEntry, newEntry.
  cbn [Entry.username Entry.createdBy Entry.type Entry.method
       Entry.gameName Entry.amountBase Entry.amount Entry.bonusRate
       Entry.bonusAmount Entry.amountFinal Entry.totalPaid
       Entry.totalCashout Entry.remainingPay Entry.extraMoney
       Entry.reduction Entry.minZero Entry.requiredMinZero].
  unfold cleanUsername, cleanCreatedBy, cleanGameName.
  rewrite Hu, Hc, Hg, Ht. cbn [negb andb].
  repeat (apply andb_true_iff; split); try assumption;
    try (apply Z.leb_le; assumption); try reflexivity.
  destruct (orUndefined (Body.method b)) as [m|] eqn:Em; [assumption|].
  assert (Hem : includes ALLOWED_METHODS (default "" (Body.method b)) = false).
  { unfold orUndefined in Em. destruct (Body.method b) as [m0|]; [|reflexivity].
    destruct (String.eqb_spec m0 "") as [E|E]; [now rewrite E|discriminate]. }
  rewrite Hem in Hm. cbn [negb] in Hm. rewrite andb_true_r in Hm.
  unfold includes in Hm. cbn [existsb] in Hm.
  rewrite orb_false_r in Hm. now rewrite Hm.
Qed.


(** Property X22.  The create route does not check the sign of
    [reduction]: a body that passes its checks with a negative reduction
    reaches the schema, which refuses it; the answer is a 500, not a 400,
    and nothing is stored. *)
Theorem negative_reduction_is_refused_by_the_schema (hok : bool)
    (b : Body.t) (base final : Z) (st : ledger) :
  validateBody b = inr (base, final) ->
  numericReduction b < 0 ->
  createEntry hok b st = (Fail 500 "Failed to create game entry", st).
Proof.
  intros Hval Hneg. unfold createEntry. rewrite Hval.
  assert (Hm : mergeApplies b = false).
  { unfold mergeApplies. apply andb_false_iff. right. apply Z.ltb_ge. lia. }
  rewrite Hm. unfold createNew.
  assert (Hv : Entry.schemaValid (createdEntry b base final (nextId st))
               = false).
  { unfold Entry.schemaValid. apply andb_false_iff. right.
    unfold createdEntry, newEntry. cbn [Entry.reduction Entry.minZero].
    apply Z.leb_gt. exact Hneg. }
  now rewrite Hv.
Qed.

(** *** A deposit sent by the player-tag form *)

Lemma resolvePair_row u t docs r :
  resolvePair u t docs = Some r -> Row.username r = u /\ Row.playerTag r = t.
Proof.
  rewrite resolvePair_rule. cbv zeta.
  destruct (last (List.filter (fun e => (Entry.type e =? "deposit")%string) _))
    as [d|] eqn:Ed.
  - destruct (_ <=? 0); [discriminate|]. intros [= <-].
    apply last_filter_elem_of in Ed as [Hin _].
    apply list_elem_of_In, filter_In in Hin as [_ Hp].
    apply andb_true_iff in Hp as [H1 H2]. apply String.eqb_eq in H1, H2.
    now split.
  - destruct (last (List.filter (fun e => (Entry.type e =? "redeem")%string) _))
      as [rd|] eqn:Er; [|discriminate].
    destruct (Entry.isPending rd); [|discriminate].
    destruct (_ <=? 0); [discriminate|]. intros [= <-].
    apply last_filter_elem_of in Er as [Hin _].
    apply list_elem_of_In, filter_In in Hin as [_ Hp].
    apply andb_true_iff in Hp as [H1 H2]. apply String.eqb_eq in H1, H2.
    now split.
Qed.

(** A deposit added last decides the row of its pair. *)
Lemma resolvePair_snoc_deposit u t docs doc :
  samePair u t doc = true -> Entry.type doc = "deposit" ->
  resolvePair u t (docs ++ [doc])
  = if default 0 (Entry.reduction doc) <=? 0 then None
    else Some (pendingRow doc (default 0 (Entry.reduction doc))
                 (default 0 (Entry.reduction doc))).
Proof.
  intros Hp Ht. rewrite resolvePair_rule. cbv zeta.
  rewrite filter_snoc, Hp, filter_snoc, Ht.
  change ("deposit" =? "deposit")%string with true. cbv iota.
  now rewrite last_snoc.
Qed.

Lemma formBody_checks
    username method ptPlayerTag playerName ptGameName note date
    ptAmount ptCashoutAmount extraMoney :
  let b := formBody username method ptPlayerTag playerName ptGameName note
             date ptAmount ptCashoutAmount extraMoney in
  canSubmit username method ptPlayerTag ptGameName ptAmount extraMoney
  = true ->
  includes ALLOWED_METHODS method = true ->
  0 <= ptCashoutAmount ->
  validateBody b = inr (ptAmount, ptAmount)
  /\ inRange b ptAmount = true
  /\ cleanUsername b = trim username
  /\ cleanPlayerTag b = trim ptPlayerTag
  /\ trim username <> "" /\ trim ptPlayerTag <> "".
Proof.
  intros b Hc Hm Hcash. unfold canSubmit in Hc.
  repeat (apply andb_true_iff in Hc as [Hc ?]).
  repeat match goal with
         | H : negb _ = true |- _ => apply negb_true_iff in H
         end.
  assert (Hpos : 0 < ptAmount) by now apply Z.ltb_lt.
  assert (Hred : 0 <= ptReduction ptAmount ptCashoutAmount).
  { unfold ptReduction. destruct (Z.ltb_spec 0 (ptCashoutAmount - ptAmount)); lia. }
  assert (Hblank : forall s, (trim s =? "")%string = false ->
                             blank (Some (trim s)) = false).
  { intros s Hs. unfold blank. now rewrite trim_idem, Hs. }
  split; [|split; [|split; [|split; [|split]]]].
  - unfold validateBody, b, formBody.
    cbn [Body.username Body.createdBy Body.type Body.method Body.gameName
         Body.amountBase Body.amountFinal default toNumber].
    unfold id. rewrite !Hblank by assumption.
    change (includes ALLOWED_TYPES "deposit") with true.
    change (includes ["deposit"; "redeem"] "deposit") with true.
    rewrite Hm. cbn [negb andb].
    assert (Hlt : (ptAmount <? 0) = false) by (apply Z.ltb_ge; lia).
    now rewrite Hlt.
  - unfold inRange, b, formBody, incomingAmount, incomingTotalCashout,
      incomingExtraMoney, numericReduction.
    cbn [Body.amount Body.bonusRate Body.bonusAmount Body.totalPaid
         Body.totalCashout Body.remainingPay Body.extraMoney Body.reduction
         Body.method].
    rewrite !toNumber0_cases.
    repeat (apply andb_true_iff; split); try (apply Z.leb_le; lia).
    + destruct extraMoney as [x|]; [|reflexivity].
      apply Z.leb_le. match goal with H : (0 <? x) = true |- _ =>
                                       apply Z.ltb_lt in H; lia end.
    + unfold orUndefined.
      match goal with H : (method =? "")%string = false |- _ =>
                        now rewrite H end.
  - unfold cleanUsername, b, formBody.
    cbn [Body.username default]. unfold id. apply trim_idem.
  - unfold cleanPlayerTag, b, formBody.
    cbn [Body.playerTag default]. unfold id. apply trim_idem.
  - now apply String.eqb_neq.
  - now apply String.eqb_neq.
Qed.

(** Property X23.  A deposit sent by the player-tag form that is not
    merged (the first deposit of its pair, or one that covers the
    cashout) is stored with the reduction the form computed, cashout less
    deposit when positive; from then on that reduction is the pending
    amount of the pair: GET /pending for the user has a row for the tag
    exactly when the reduction is positive, with that amount, and GET
    /pending-by-tag then answers the same amount. *)
Theorem form_deposit_sets_the_pending_of_its_tag (hok : bool)
    (username method ptPlayerTag playerName ptGameName note date : string)
    (ptAmount ptCashoutAmount : Z) (extraMoney : option Z) (st : ledger) :
  let b := formBody username method ptPlayerTag playerName ptGameName note
             date ptAmount ptCashoutAmount extraMoney in
  let u := trim username in
  let t := trim ptPlayerTag in
  let red := ptReduction ptAmount ptCashoutAmount in
  canSubmit username method ptPlayerTag ptGameName ptAmount extraMoney
  = true ->
  includes ALLOWED_METHODS method = true ->
  0 <= ptCashoutAmount ->
  red = 0 \/ findLatest (mergeTarget u t) (entries st) = None ->
  let st' := snd (createEntry hok b st) in
  exists doc,
    fst (createEntry hok b st) = Json 201 doc
    /\ entries st' = (entries st ++ [doc])%list
    /\ Entry.type doc = "deposit"
    /\ Entry.username doc = u
    /\ Entry.playerTag doc = Some t
    /\ Entry.amountFinal doc = Some ptAmount
    /\ Entry.reduction doc = Some red
    /\ (forall r,
          r ∈ listPending (Some u) st' /\ Row.playerTag r = t
          <-> 0 < red /\ r = pendingRow doc red red)
    /\ (0 < red ->
        pendingByTag (Some t) (Some u) st'
        = Found (TagPending.mk t red 0 red ptCashoutAmount 0)).
Proof.
  intros b u t red Hc Hm Hcash Hfirst st'.
  destruct (formBody_checks username method ptPlayerTag playerName
              ptGameName note date ptAmount ptCashoutAmount extraMoney
              Hc Hm Hcash) as (Hval & Hr & Hcu & Hct & Hu & Ht).
  fold b in Hval, Hr, Hcu, Hct. fold u in Hcu, Hu. fold t in Hct, Ht.
  pose proof (createdEntry_valid b ptAmount ptAmount (nextId st) Hval Hr)
    as Hv.
  assert (Hno : mergeApplies b = false
                \/ findLatest
                     (mergeTarget (cleanUsername b) (cleanPlayerTag b))
                     (entries st) = None).
  { destruct Hfirst as [H0|Hnone]; [left|right; now rewrite Hcu, Hct].
    unfold mergeApplies. apply andb_false_iff. right.
    change (numericReduction b) with red. rewrite H0. reflexivity. }
  destruct (createEntry_new hok b ptAmount ptAmount st Hval Hno Hv)
    as (Hres & He & _).
  fold st' in He.
  set (doc := createdEntry b ptAmount ptAmount (nextId st)) in *.
  assert (Hty : Entry.type doc = "deposit") by reflexivity.
  assert (Hdu : Entry.username doc = u) by exact Hcu.
  assert (Hdt : Entry.playerTag doc = Some t)
    by (change (Entry.playerTag doc) with (Some (cleanPlayerTag b));
        now rewrite Hct).
  assert (Hdr : Entry.reduction doc = Some red) by reflexivity.
  assert (Htu : trim u = u) by apply trim_idem.
  assert (Htt : trim t = t) by apply trim_idem.
  assert (Hbu : blank (Some u) = false).
  { unfold blank. rewrite Htu. apply String.eqb_neq in Hu. now rewrite Hu. }
  assert (Hpair : samePair u t doc = true).
  { unfold samePair. rewrite Hdu, Hdt. cbn [default]. unfold id.
    now rewrite !String.eqb_refl. }
  exists doc.
  split; [exact Hres|]. split; [exact He|]. split; [exact Hty|].
  split; [exact Hdu|]. split; [exact Hdt|]. split; [reflexivity|].
  split; [exact Hdr|]. split.
  - intros r.
    pose proof (listPending_scoped_by_pair (Some u) st' r Hbu) as Hsc.
    cbv zeta in Hsc. change (trim (default "" (Some u))) with (trim u) in Hsc.
    rewrite Htu in Hsc.
    assert (Hdocs :
      List.filter (fun e => redeemOrDeposit e && usernameClause (Some u) e)
        (entries st')
      = (List.filter
           (fun e => redeemOrDeposit e && usernameClause (Some u) e)
           (entries st) ++ [doc])%list).
    { rewrite He, filter_snoc.
      assert (Hq : redeemOrDeposit doc && usernameClause (Some u) doc = true).
      { unfold redeemOrDeposit, usernameClause. rewrite Hty, Hbu.
        change (default "" (Some u)) with u. rewrite Htu, Hdu.
        rewrite !String.eqb_refl. reflexivity. }
      now rewrite Hq. }
    rewrite Hdocs in Hsc.
    pose proof (resolvePair_snoc_deposit u t
                  (List.filter
                     (fun e => redeemOrDeposit e
                               && usernameClause (Some u) e) (entries st))
                  doc Hpair Hty) as Hsnoc.
    rewrite Hdr in Hsnoc. change (default 0 (Some red)) with red in Hsnoc.
    split.
    + intros [Hin Htag]. apply Hsc in Hin as (t' & _ & Hrp).
      destruct (resolvePair_row _ _ _ _ Hrp) as [_ Ht'].
      rewrite <- Ht', Htag, Hsnoc in Hrp.
      destruct (Z.leb_spec red 0); [discriminate|].
      injection Hrp as <-. now split.
    + intros [Hpos ->]. split.
      * apply Hsc. exists t. split.
        -- exists doc. split; [|exact Hpair].
           apply elem_of_app. right. apply list_elem_of_singleton.
           reflexivity.
        -- rewrite Hsnoc. destruct (Z.leb_spec red 0); [lia|reflexivity].
      * cbn [pendingRow Row.playerTag]. now rewrite Hdt.
  - intros Hpos. unfold pendingByTag. cbv zeta.
    change (trim (default "" (Some t))) with (trim t).
    change (trim (default "" (Some u))) with (trim u).
    rewrite Htt, Htu.
    apply String.eqb_neq in Hu, Ht. rewrite Hu, Ht. cbn [orb].
    assert (Hredb : (0 <? red) = true) by now apply Z.ltb_lt.
    assert (Hmatch : tagMatch u t doc = true).
    { unfold tagMatch. rewrite Hdu, Hdt, Hty, Hdr, Hredb.
      rewrite !String.eqb_refl. reflexivity. }
    fold st'. rewrite He, filter_snoc, Hmatch.
    set (l := List.filter (tagMatch u t) (entries st)).
    destruct (l ++ [doc])%list as [|x l'] eqn:E;
      [now apply app_eq_nil in E as [_ [=]]|].
    rewrite <- E, fold_left_app. cbn [fold_left]. unfold tagStep at 1.
    assert (Hpr : positiveReduction doc = true).
    { unfold positiveReduction. rewrite toNumber0_ofField, Hdr. exact Hredb. }
    rewrite Hty, Hpr. change ("deposit" =? "deposit")%string with true.
    cbn [andb Group.lastDeposit]. rewrite toNumber0_ofField, Hdr.
    change (default 0 (Some red)) with red.
    destruct (Z.leb_spec red 0); [lia|]. reflexivity.
Qed.

(** *** PUT: what an update changes *)




End Routes.

(** ** The claims on concrete requests *)

(** The scenario of the specification: a deposit of 100 then a redeem of
    40 on game X leave its counter at -60. *)
Example deposit_then_redeem_balance :
  games (run noDate depositThenRedeem (initLedger ["X"])) !! "X" = Some (-60).
Proof. vm_compute. reflexivity. Qed.

(** Claim C1 fails as stated on amounts with a fractional part.  After
    deposits of 0.1 and 0.2 on game X and the deletion of the first, the
    one entry left is the deposit of 0.2, whose coin effect is -0.2, and
    the counter of X holds -0.20000000000000004: the additions of
    [applyGameDelta] round. *)
Lemma totalCoins_drifts_on_fractional_amounts :
  let st :=
    Binary64.run Binary64.twoDepositsOneDeleted (Binary64.initLedger ["X"]) in
  map Binary64.amountFinal (Binary64.entries st) = [Binary64.fifth]
  /\ Binary64.coinSum "X" (Binary64.entries st)
     = PrimFloat.opp Binary64.fifth
  /\ Binary64.games st !! "X" = Some Binary64.belowMinusFifth
  /\ Binary64.games st !! "X"
     <> Some (Binary64.coinSum "X" (Binary64.entries st)).
Proof.
  intros st.
  assert (He : map Binary64.amountFinal (Binary64.entries st)
               = [Binary64.fifth]) by (vm_compute; reflexivity).
  assert (Hs : Binary64.coinSum "X" (Binary64.entries st)
               = PrimFloat.opp Binary64.fifth) by (vm_compute; reflexivity).
  assert (Hg : Binary64.games st !! "X" = Some Binary64.belowMinusFifth)
    by (vm_compute; reflexivity).
  split; [exact He|]. split; [exact Hs|]. split; [exact Hg|].
  rewrite Hg, Hs. intros H.
  pose proof
    (f_equal
       (fun o : option PrimFloat.float =>
          match o with
          | Some x => PrimFloat.eqb x (PrimFloat.opp Binary64.fifth)
          | None => false
          end) H) as E.
  vm_compute in E. discriminate E.
Qed.

(** On whole amounts the counters of [Binary64] are those of the
    embedding: the deposit of 100 and the redeem of 40 leave -60. *)
Example binary64_whole_amounts :
  Binary64.games
    (Binary64.run Binary64.depositThenRedeem (Binary64.initLedger ["X"]))
  !! "X"
  = Some Binary64.minusSixty.
Proof. vm_compute. reflexivity. Qed.

Lemma totalCoins_is_coin_sum_witness :
  "X" ∈ ["X"]
  /\ games (run noDate depositThenRedeem (initLedger ["X"])) !! "X"
     = Some (coinSum "X"
               (entries (run noDate depositThenRedeem (initLedger ["X"])))).
Proof.
  split; [apply list_elem_of_here|].
  apply (totalCoins_is_coin_sum noDate ["X"] depositThenRedeem "X").
  apply list_elem_of_here.
Defined.

Lemma history_failure_is_swallowed_witness :
  sameOutcome
    (step noDate true (CreateEntry (depositBody "u" "t" "X" 100 0 0))
       (initLedger ["X"]))
    (step noDate false (CreateEntry (depositBody "u" "t" "X" 100 0 0))
       (initLedger ["X"]))
  /\ history
       (snd (step noDate false (CreateEntry (depositBody "u" "t" "X" 100 0 0))
               (initLedger ["X"]))) = [].
Proof.
  exact (history_failure_is_swallowed noDate
           (CreateEntry (depositBody "u" "t" "X" 100 0 0)) (initLedger ["X"])).
Defined.

Lemma clearPending_idempotent_witness :
  let st := mkLedger [pendingRedeem] ∅ [] 1 in
  findById 0 (entries st) = Some pendingRedeem
  /\ Entry.schemaValid pendingRedeem = true
  /\ entries (snd (clearPending false 0 (snd (clearPending true 0 st))))
     = entries (snd (clearPending true 0 st))
  /\ Entry.remainingPay (clearedEntry pendingRedeem) = Some 0.
Proof.
  intros st.
  assert (Hf : findById 0 (entries st) = Some pendingRedeem) by reflexivity.
  assert (Hv : Entry.schemaValid pendingRedeem = true) by reflexivity.
  destruct (clearPending_idempotent true false 0 pendingRedeem st Hf Hv)
    as (_ & _ & _ & He & _ & _ & _ & _ & Hr & _).
  split; [exact Hf|]. split; [exact Hv|]. split; [exact He|].
  now apply Hr.
Defined.

(** The scenario of the specification: two deposits of one (username,
    playerTag) with positive reductions and the cashout set once to 100
    leave one row with amountFinal 10 + 20 and reduction 100 - 30.  The
    history accepts writes, and yet holds the create row alone after the
    merge. *)
Lemma deposit_merge_writes_no_history_witness :
  let st :=
    run noDate [(true, CreateEntry (depositBody "u" "t" "A" 10 5 100))]
      (initLedger ["A"; "B"]) in
  let b := depositBody "u" "t" "B" 20 5 0 in
  ledgerOk st
  /\ validateBody b = inr (20, 20)
  /\ findLatest (mergeTarget (cleanUsername b) (cleanPlayerTag b)) (entries st)
     = Some firstDeposit
  /\ Entry.schemaValid (mergedEntry noDate b 20 20 firstDeposit) = true
  /\ length (entries (snd (createEntry noDate true b st))) = 1%nat
  /\ Entry.amountFinal (mergedEntry noDate b 20 20 firstDeposit) = Some 30
  /\ Entry.reduction (mergedEntry noDate b 20 20 firstDeposit) = Some 70
  /\ games (snd (createEntry noDate true b st)) !! "A" = Some (-30)
  /\ fst (createEntry noDate true b st)
     = Json 200 (mergedEntry noDate b 20 20 firstDeposit)
  /\ history (snd (createEntry noDate true b st))
     = [History.mk 0 "create" firstDeposit].
Proof.
  intros st b.
  assert (Hok : ledgerOk st) by (apply run_ok, initLedger_ok).
  assert (Hval : validateBody b = inr (20, 20)) by reflexivity.
  assert (Hty : Body.type b = Some "deposit") by reflexivity.
  assert (Htag : cleanPlayerTag b <> "") by (vm_compute; discriminate).
  assert (Hred : 0 < numericReduction b) by (vm_compute; reflexivity).
  assert (Hfind :
    findLatest (mergeTarget (cleanUsername b) (cleanPlayerTag b)) (entries st)
    = Some firstDeposit) by reflexivity.
  assert (Hv : Entry.schemaValid (mergedEntry noDate b 20 20 firstDeposit)
               = true) by reflexivity.
  destruct (deposit_merge_writes_no_history noDate true b 20 20 firstDeposit
              st Hok Hval Hty Htag Hred Hfind Hv)
    as (_ & _ & Hres & _ & _ & _ & Haf & _ & _ & _ & _ & _ & Hr & _ & _ & Hh
        & Hg).
  split; [exact Hok|]. split; [exact Hval|]. split; [exact Hfind|].
  split; [exact Hv|]. split; [reflexivity|]. split; [exact Haf|].
  split; [exact Hr|]. split; [rewrite Hg; reflexivity|].
  split; [exact Hres|]. rewrite Hh. reflexivity.
Defined.


(** A first deposit with a tag and a reduction of 5 finds no row to merge
    into: it is stored with reduction 5 and isPending false, although the
    reduction is positive. *)
Lemma create_keeps_caller_pending_witness :
  let b := depositBody "u" "t" "A" 10 5 100 in
  let st := initLedger ["A"] in
  validateBody b = inr (10, 10)
  /\ findLatest (mergeTarget (cleanUsername b) (cleanPlayerTag b)) (entries st)
     = None
  /\ Entry.schemaValid (createdEntry noDate b 10 10 (nextId st)) = true
  /\ Entry.reduction (createdEntry noDate b 10 10 (nextId st)) = Some 5
  /\ Entry.isPending (createdEntry noDate b 10 10 (nextId st)) = false.
Proof.
  intros b st.
  assert (Hval : validateBody b = inr (10, 10)) by reflexivity.
  assert (Hno : mergeApplies b = false
    \/ findLatest (mergeTarget (cleanUsername b) (cleanPlayerTag b))
         (entries st) = None) by (right; reflexivity).
  assert (Hv : Entry.schemaValid (createdEntry noDate b 10 10 (nextId st))
               = true) by reflexivity.
  destruct (create_keeps_caller_pending noDate true b 10 10 st Hval Hno Hv)
    as (_ & _ & _ & Hr & Hp).
  split; [exact Hval|]. split; [reflexivity|]. split; [exact Hv|].
  split; [exact Hr|exact Hp].
Defined.

(** A redeem created with isPending true and nothing left to pay keeps the
    flag: no reduction or remainder is consulted. *)
Example create_keeps_flag_without_amount :
  let b := redeemBody "u" "t" "A" 10 0 true in
  fst (createEntry noDate true b (initLedger ["A"]))
  = Json 201 (createdEntry noDate b 10 10 0)
  /\ Entry.isPending (createdEntry noDate b 10 10 0) = true
  /\ Entry.reduction (createdEntry noDate b 10 10 0) = Some 0
  /\ Entry.remainingPay (createdEntry noDate b 10 10 0) = Some 0.
Proof. repeat split. Qed.


(** The scenario of the specification: a redeem pending with 50 to pay,
    then a deposit of the same tag with reduction 0: the tag is not
    listed. *)
Example stale_redeem_is_suppressed :
  listPending isoEpoch None (run noDate redeemThenDeposit (initLedger ["X"]))
  = [].
Proof. reflexivity. Qed.

(** Claim C4 fails as stated: after a redeem left pending with 50 and a
    later deposit of the same tag with reduction 0, /pending lists nothing
    for the pair and its resolver run on the pair gives no row, yet
    /pending-by-tag answers with a pending amount of 50. *)
Lemma pendingByTag_ignores_zero_reduction_deposit :
  let st := run noDate redeemThenDeposit (initLedger ["X"]) in
  listPending isoEpoch None st = []
  /\ rowAmount
       (resolvePair isoEpoch "u" "t"
          (List.filter redeemOrDeposit (entries st))) = None
  /\ lookupAmount (pendingByTag (Some "t") (Some "u") st) = Some 50
  /\ lookupAmount (pendingByTag (Some "t") (Some "u") st)
     <> rowAmount
          (resolvePair isoEpoch "u" "t"
             (List.filter redeemOrDeposit (entries st))).
Proof. repeat split. discriminate. Qed.

Lemma pendingByTag_resolves_self_pending_rows_witness :
  let st := run noDate redeemThenDeposit (initLedger ["X"]) in
  trim (default "" (Some "t")) <> ""
  /\ trim (default "" (Some "u")) <> ""
  /\ Forall (fun e => is_Some (Entry.remainingPay e)) (entries st)
  /\ lookupAmount (pendingByTag (Some "t") (Some "u") st)
     = rowAmount
         (resolvePair isoEpoch "u" "t"
            (List.filter selfPending (entries st))).
Proof.
  intros st.
  assert (Ht : trim (default "" (Some "t")) <> "") by (vm_compute; discriminate).
  assert (Hu : trim (default "" (Some "u")) <> "") by (vm_compute; discriminate).
  assert (Hrp : Forall (fun e => is_Some (Entry.remainingPay e)) (entries st)).
  { repeat constructor; eexists; reflexivity. }
  split; [exact Ht|]. split; [exact Hu|]. split; [exact Hrp|].
  exact (pendingByTag_resolves_self_pending_rows isoEpoch
           (Some "t") (Some "u") st Ht Hu Hrp).
Defined.

(** Claim C5 fails as stated on a deposit that lacks amountFinal: its
    amount of 10 is not counted in totalDeposit, while the sum with the
    fallback to amount is 10. *)
Lemma deposit_total_has_no_amount_fallback :
  let st := mkLedger [legacyDeposit] ∅ [] 1 in
  Summary.totalDeposit (summary isoEpoch (fun _ => true) st) = 0
  /\ sumZ coinAmount
       (List.filter (fun e => (Entry.type e =? "deposit")%string)
          (entries st)) = 10.
Proof. split; reflexivity. Qed.

(** The scenario of the specification: one freeplay of 20 and one redeem
    of 5 give a net coin of -15. *)
Lemma summary_totals_by_type_witness :
  let s :=
    summary isoEpoch (fun _ => true)
      (run noDate freeplayAndRedeem (initLedger ["X"])) in
  Summary.totalCoin s
  = Summary.totalRedeem s
    - (Summary.totalFreeplay s + Summary.totalPlayedGame s
       + Summary.totalDeposit s)
  /\ Summary.totalCoin s = -15.
Proof.
  intros s.
  destruct (summary_totals_by_type isoEpoch (fun _ => true)
              (run noDate freeplayAndRedeem (initLedger ["X"])))
    as (_ & _ & _ & _ & H).
  split; [exact H|reflexivity].
Defined.

(** Claim C3 on two pairs whose keys coincide.  The pair ("a::b", "c") has
    a redeem pending with 50 to pay and no deposit, so its own rows
    resolve to 50; the deposit with reduction 0 belongs to the pair
    ("a", "b::c").  Both are filed under the key "a::b::c", the deposit
    takes over, and the list for all users comes out empty.  Under the
    scope of the username "a::b" the row is listed. *)
Theorem pending_key_collision :
  let st := run noDate collidingPairs (initLedger ["X"]) in
  map pendingKey (entries st) = ["a::b::c"; "a::b::c"]
  /\ map (fun e => (Entry.username e, Entry.playerTag e)) (entries st)
     = [("a::b", Some "c"); ("a", Some "b::c")]
  /\ rowAmount
       (resolvePair isoEpoch "a::b" "c"
          (List.filter redeemOrDeposit (entries st))) = Some 50
  /\ listPending isoEpoch None st = []
  /\ map Row.remainingPay (listPending isoEpoch (Some "a::b") st) = [50].
Proof. repeat split. Qed.

(** ** Instances of the further properties *)

Lemma coinEffect_is_additive_witness :
  0 <= 10 /\ 0 <= 20
  /\ coinEffect "deposit" (Some (10 + 20))
     = coinEffect "deposit" (Some 10) + coinEffect "deposit" (Some 20).
Proof.
  assert (H10 : 0 <= 10) by lia. assert (H20 : 0 <= 20) by lia.
  destruct (coinEffect_is_additive "deposit" 10 20 H10 H20) as (H & _).
  split; [exact H10|]. split; [exact H20|exact H].
Defined.

Lemma refused_request_changes_nothing_witness :
  fst (step noDate true (DeleteEntry 7) (initLedger ["X"]))
  = Fail 404 "Game entry not found"
  /\ snd (step noDate true (DeleteEntry 7) (initLedger ["X"]))
     = initLedger ["X"].
Proof.
  assert (H : fst (step noDate true (DeleteEntry 7) (initLedger ["X"]))
              = Fail 404 "Game entry not found") by reflexivity.
  split; [exact H|].
  apply (refused_request_changes_nothing noDate true (DeleteEntry 7)
           (initLedger ["X"]) 404 "Game entry not found" H).
  now right.
Defined.

Lemma entry_count_follows_the_answer_witness :
  let st := run noDate depositThenRedeem (initLedger ["X"]) in
  NoDup (map Entry._id (entries st))
  /\ length (entries (snd (step noDate true (DeleteEntry 0) st))) = 1%nat
  /\ length (entries
               (snd (step noDate true
                       (CreateEntry (freeplayBody "u" "X" 5)) st))) = 3%nat.
Proof.
  intros st.
  assert (Hok : ledgerOk st) by (apply run_ok, initLedger_ok).
  destruct Hok as (Hnd & _).
  split; [exact Hnd|]. split.
  - exact (entry_count_follows_the_answer noDate true (DeleteEntry 0) st Hnd).
  - exact (entry_count_follows_the_answer noDate true
             (CreateEntry (freeplayBody "u" "X" 5)) st Hnd).
Defined.





(** After a clear-pending the stored entry is no longer pending, and the
    newest history row of the entry is still the one written when it was
    created, flagged pending. *)
Example history_is_stale_after_clear_pending :
  let st := run noDate openRedeem (initLedger ["X"]) in
  let st' := snd (clearPending true 0 st) in
  map Entry.isPending (entries st') = [false]
  /\ head (listHistory 0 st') = Some (History.mk 0 "create" openRedeemDoc)
  /\ Entry.isPending openRedeemDoc = true.
Proof. repeat split. Qed.


Lemma depositThenRedeem_valid :
  Forall (fun e => Entry.schemaValid e = true)
    (entries (run noDate depositThenRedeem (initLedger ["X"]))).
Proof. repeat constructor. Qed.

Lemma revenue_is_the_deposited_base_amount_witness :
  let st := run noDate depositThenRedeem (initLedger ["X"]) in
  Forall (fun e => Entry.schemaValid e = true) (entries st)
  /\ Summary.totalRevenue (summary isoEpoch (fun _ => true) st) = 100.
Proof.
  intros st. split; [exact depositThenRedeem_valid|].
  rewrite (revenue_is_the_deposited_base_amount isoEpoch (fun _ => true) st
             depositThenRedeem_valid).
  reflexivity.
Defined.

Lemma summary_totalCoin_is_the_coin_effect_witness :
  let st := run noDate depositThenRedeem (initLedger ["X"]) in
  Forall (fun e => Entry.schemaValid e = true) (entries st)
  /\ Summary.totalCoin (summary isoEpoch (fun _ => true) st) = -60.
Proof.
  intros st. split; [exact depositThenRedeem_valid|].
  rewrite (summary_totalCoin_is_the_coin_effect isoEpoch (fun _ => true) st
             depositThenRedeem_valid).
  reflexivity.
Defined.

Lemma gamerow_total_omits_playedgame_witness :
  let st := run noDate depositAndPlayed (initLedger ["X"]) in
  Forall (fun e => Entry.schemaValid e = true) (entries st)
  /\ trim "X" = "X" /\ "X" <> ""
  /\ games st !! "X" = Some (-130)
  /\ netTotal (listEntries noDate (gameQuery "X") st) = -100.
Proof.
  intros st.
  assert (Hv : Forall (fun e => Entry.schemaValid e = true) (entries st))
    by (repeat constructor).
  assert (Ht : trim "X" = "X") by reflexivity.
  assert (Hne : "X" <> "") by discriminate.
  split; [exact Hv|]. split; [exact Ht|]. split; [exact Hne|].
  split; [reflexivity|].
  rewrite (gamerow_total_omits_playedgame noDate st "X" Hv Ht Hne).
  reflexivity.
Defined.


Lemma negative_reduction_is_refused_by_the_schema_witness :
  let b := depositBody "u" "t" "X" 100 (-5) 0 in
  validateBody b = inr (100, 100)
  /\ numericReduction b < 0
  /\ createEntry noDate true b (initLedger ["X"])
     = (Fail 500 "Failed to create game entry", initLedger ["X"]).
Proof.
  intros b.
  assert (Hval : validateBody b = inr (100, 100)) by reflexivity.
  assert (Hneg : numericReduction b < 0) by reflexivity.
  split; [exact Hval|]. split; [exact Hneg|].
  exact (negative_reduction_is_refused_by_the_schema noDate true b 100 100
           (initLedger ["X"]) Hval Hneg).
Defined.

Lemma form_deposit_sets_the_pending_of_its_tag_witness :
  let st := run noDate openRedeem (initLedger ["X"]) in
  let b := formBody "u" "cashapp" "t" "" "X" "" "" 40 100 None in
  let st' := snd (createEntry noDate true b st) in
  canSubmit "u" "cashapp" "t" "X" 40 None = true
  /\ includes ALLOWED_METHODS "cashapp" = true
  /\ 0 <= 100
  /\ findLatest (mergeTarget "u" "t") (entries st) = None
  /\ ptReduction 40 100 = 60
  /\ map Row.remainingPay (listPending isoEpoch (Some "u") st) = [100]
  /\ (exists doc,
        fst (createEntry noDate true b st) = Json 201 doc
        /\ Entry.reduction doc = Some 60
        /\ pendingRow isoEpoch doc 60 60 ∈ listPending isoEpoch (Some "u") st')
  /\ pendingByTag (Some "t") (Some "u") st'
     = Found (TagPending.mk "t" 60 0 60 100 0).
Proof.
  intros st b st'.
  assert (Hc : canSubmit "u" "cashapp" "t" "X" 40 None = true) by reflexivity.
  assert (Hm : includes ALLOWED_METHODS "cashapp" = true) by reflexivity.
  assert (Hcash : 0 <= 100) by lia.
  assert (Hnone : findLatest (mergeTarget "u" "t") (entries st) = None)
    by reflexivity.
  assert (Hpos : 0 < ptReduction 40 100) by reflexivity.
  destruct (form_deposit_sets_the_pending_of_its_tag noDate isoEpoch true
              "u" "cashapp" "t" "" "X" "" "" 40 100 None st
              Hc Hm Hcash (or_intror Hnone))
    as (doc & Hres & _ & _ & _ & _ & _ & Hred & Hrows & Htag).
  split; [exact Hc|]. split; [exact Hm|]. split; [exact Hcash|].
  split; [exact Hnone|]. split; [reflexivity|]. split; [reflexivity|].
  split.
  - exists doc. split; [exact Hres|]. split; [exact Hred|].
    destruct (Hrows (pendingRow isoEpoch doc 60 60)) as [_ Hback].
    destruct (Hback (conj Hpos eq_refl)) as [Hin _]. exact Hin.
  - exact (Htag Hpos).
Defined.

